(** * BookAnimator: the scene generation pipeline of [src/App.js]

    [src/App.js] holds two builds of the same application:
    - lines 1-428, a plain [React.createElement] build that accepts text
      files and simulates generation (module [Plain] below);
    - lines 428-1115, a JSX build that accepts PDF layouts and calls the
      generation service (module [Jsx] below).
    The definitions that the two builds share textually (the navigation
    sidebar, the page splitter, the store update) are embedded once. *)

From Stdlib Require Import ZArith QArith Qabs Ascii String List Lia.
From stdpp Require Import base option list gmap pretty.
From Equations Require Import Equations.

Set Warnings "-register-all".

Local Open Scope nat_scope.
Local Open Scope list_scope.

(** ** JavaScript strings

    A JavaScript string is a sequence of UTF-16 code units. *)

Abbreviation jstring := (list N).

(** [str s] is the string literal [s] (ASCII literals only). *)
Definition str (s : string) : jstring :=
  map N_of_ascii (list_ascii_of_string s).

(** The double quote character, U+0022. *)
Definition dquote : jstring := [34%N].

(** [String(n)] for a non-negative integer [n]: its decimal digits. *)
Definition String_of_nat (n : nat) : jstring := str (pretty n).

(** Decimal digits, of which [String(n)] is made. *)
Definition is_digit (a : ascii) : bool :=
  let n := N_of_ascii a in ((48 <=? n) && (n <=? 57))%N.

Fixpoint digits_only (s : string) : bool :=
  match s with
  | EmptyString => true
  | String a s' => is_digit a && digits_only s'
  end.

(** Truthiness of a string: the empty string is the only falsy one. *)
Definition truthy_string (s : jstring) : bool :=
  match s with [] => false | _ :: _ => true end.

(** [a || b] on strings. *)
Definition or_string (a b : jstring) : jstring :=
  if truthy_string a then a else b.

(** The class [\s] of regular expressions, which is also the set that
    [String.prototype.trim] strips: WhiteSpace and LineTerminator. *)
Definition is_space (c : N) : bool :=
  ((9 <=? c) && (c <=? 13) || (c =? 32) || (c =? 160) || (c =? 5760)
   || (8192 <=? c) && (c <=? 8202) || (c =? 8232) || (c =? 8233)
   || (c =? 8239) || (c =? 8287) || (c =? 12288) || (c =? 65279))%N.

(** U+000A, the line feed that [\n] matches. *)
Definition is_newline (c : N) : bool := (c =? 10)%N.

Fixpoint trimStart (s : jstring) : jstring :=
  match s with
  | [] => []
  | c :: t => if is_space c then trimStart t else s
  end.

Definition trimEnd (s : jstring) : jstring :=
  reverse (trimStart (reverse s)).

Definition trim (s : jstring) : jstring := trimEnd (trimStart s).

(** [s.endsWith(suffix)] *)
Definition endsWith (s suffix : jstring) : bool :=
  bool_decide (drop (length s - length suffix) s = suffix).

(** ** The page separator [/\n\s*\n/]

    [star_newline t] matches [\s*\n] at the start of [t] the way a
    backtracking matcher does: the star is greedy, so it first consumes a
    white-space unit and tries the rest, and only when that fails does it
    stop and look for the closing line feed here. The result is what is
    left of [t] after the match. *)
Fixpoint star_newline (t : jstring) : option jstring :=
  match t with
  | [] => None
  | c :: t' =>
      if is_space c then
        match star_newline t' with
        | Some r => Some r
        | None => if is_newline c then Some t' else None
        end
      else None
  end.

(** A match of [/\n\s*\n/] anchored at the start of [s]. *)
Definition match_separator (s : jstring) : option jstring :=
  match s with
  | [] => None
  | c :: t => if is_newline c then star_newline t else None
  end.

(** The value of an expression together with the equation that recalls
    where it came from. *)
Definition inspect {A} (a : A) : {b : A | a = b} := exist _ a eq_refl.

(** [text.split(/\n\s*\n/)] on the part of the text that is still to be
    read: [cur] is the segment collected since the last separator. At every
    position the separator is tried first; where it matches, the segment is
    closed and reading resumes after the match, otherwise the code unit
    joins the segment. The end of the text closes the last segment. *)
Equations? split_from (s : jstring) (cur : jstring) : list jstring
  by wf (length s) lt :=
  split_from [] cur := [cur];
  split_from (c :: t) cur with inspect (match_separator (c :: t)) := {
    | exist _ (Some r) _ => cur :: split_from r [];
    | exist _ None _ => split_from t (cur ++ [c]) }.
Proof.
  assert (forall u v, star_newline u = Some v -> length v < length u) as Hstar.
  { induction u as [|d u IH]; intros v; simpl; [discriminate|].
    destruct (is_space d); [|discriminate].
    destruct (star_newline u) as [v'|].
    - intros [= <-]. specialize (IH v' eq_refl). lia.
    - destruct (is_newline d); [|discriminate]. intros [= <-]. lia. }
  change (match_separator (c :: t) = Some r) in e. simpl in e.
  destruct (is_newline c); [|discriminate].
  apply Hstar in e. simpl. lia.
Qed.

(** [text.split(/\n\s*\n/)]; the empty text gives one empty segment since
    the separator does not match the empty string. *)
Definition split_pages (text : jstring) : list jstring := split_from text [].

(** A string of white space only. *)
Definition blank (s : jstring) : Prop := Forall (fun c => is_space c = true) s.

(** ** Vocabulary for the page split *)

(** A blank-line boundary: a line feed, white space only, a line feed. *)
Definition is_separator (sep : jstring) : Prop :=
  exists ws, blank ws /\ sep = 10%N :: ws ++ [10%N].

(** Segments put back together with the separators between them. *)
Fixpoint weave (segments separators : list jstring) : jstring :=
  match segments, separators with
  | [], _ => []
  | seg :: _, [] => seg
  | seg :: segments', sep :: separators' =>
      seg ++ sep ++ weave segments' separators'
  end.

(** The matcher of the code finds no separator anywhere inside [seg]. *)
Definition separator_free (seg : jstring) : Prop :=
  forall k, match_separator (drop k seg) = None.

(** A blank-line boundary starts at the head of [s]: a line feed, white
    space only, a line feed. This is the reading of [/\n\s*\n/] written
    out on the text, without the matcher of the code. *)
Definition starts_boundary (s : jstring) : Prop :=
  exists ws rest, blank ws /\ s = 10%N :: ws ++ 10%N :: rest.

(** No blank-line boundary starts anywhere inside [seg]. *)
Definition boundary_free (seg : jstring) : Prop :=
  forall k, ~ starts_boundary (drop k seg).

(** [s] begins with white space up to a line feed: a boundary that ended
    just before [s] could have taken this line in as well. *)
Definition starts_blank_line (s : jstring) : Prop :=
  exists ws rest, blank ws /\ s = ws ++ 10%N :: rest.

(** ** JSON values

    What [JSON.parse] returns. A number carries the exact value of its
    literal; an object carries its members, one per key. *)
Inductive json : Type :=
| JNull
| JBool (b : bool)
| JNum (q : Q)
| JStr (s : jstring)
| JArr (items : list json)
| JObj (members : list (jstring * json)).

(** The smallest magnitude that does not round to zero as a double lies
    just above [2^-1075]. *)
Definition rounds_to_zero (q : Q) : bool :=
  Qle_bool (Qabs q) (1 # (2 ^ 1075)).

(** Truthiness of a value read from a property; [None] is [undefined]. *)
Definition truthy (v : option json) : bool :=
  match v with
  | None => false
  | Some JNull => false
  | Some (JBool b) => b
  | Some (JNum q) => negb (rounds_to_zero q)
  | Some (JStr s) => truthy_string s
  | Some (JArr _) => true
  | Some (JObj _) => true
  end.

(** [a || b] where [a] was read from a property. *)
Definition or_value (a : option json) (b : json) : json :=
  match a with
  | Some v => if truthy a then v else b
  | None => b
  end.

Fixpoint assoc (k : jstring) (members : list (jstring * json)) : option json :=
  match members with
  | [] => None
  | (k', v) :: rest => if decide (k' = k) then Some v else assoc k rest
  end.

(** ** The data model *)

(** [status] is only ever written as ['pending'] or ['completed']. *)
Inductive Status : Type := pending | completed.

#[global] Instance Status_eq_dec : EqDecision Status.
Proof. solve_decision. Defined.

(** A scene record; an absent field is [None]. *)
Record Scene : Type := {
  status : Status;
  text : option jstring;
  prompt : option json;
  videoUrl : option jstring
}.

(** [name] and [author] hold a string until a cover reply overwrites them
    with whatever value the reply carried. *)
Record Project : Type := {
  id : jstring;
  name : json;
  author : json;
  storyText : jstring;
  totalPages : nat;
  scenes : gmap jstring Scene;
  createdAt : jstring
}.

(** The object passed to [updateProject]: the fields it carries. *)
Record Patch : Type := {
  set_id : option jstring;
  set_name : option json;
  set_author : option json;
  set_storyText : option jstring;
  set_totalPages : option nat;
  set_scenes : option (gmap jstring Scene);
  set_createdAt : option jstring
}.

Definition no_change : Patch :=
  {| set_id := None; set_name := None; set_author := None;
     set_storyText := None; set_totalPages := None; set_scenes := None;
     set_createdAt := None |}.

(** The spread [{ ...p, ...updatedData }]. *)
Definition spread (p : Project) (updatedData : Patch) : Project :=
  {| id := default (id p) (set_id updatedData);
     name := default (name p) (set_name updatedData);
     author := default (author p) (set_author updatedData);
     storyText := default (storyText p) (set_storyText updatedData);
     totalPages := default (totalPages p) (set_totalPages updatedData);
     scenes := default (scenes p) (set_scenes updatedData);
     createdAt := default (createdAt p) (set_createdAt updatedData) |}.

(** The spread [{ ...p }] read as an update: every field of [p]. *)
Definition all_fields (p : Project) : Patch :=
  {| set_id := Some (id p); set_name := Some (name p);
     set_author := Some (author p); set_storyText := Some (storyText p);
     set_totalPages := Some (totalPages p); set_scenes := Some (scenes p);
     set_createdAt := Some (createdAt p) |}.

(** [updateProject] (lines 88-90 and 522-524), as the state updater it
    hands to [setProjects]. *)
Definition updateProject (projectId : jstring) (updatedData : Patch)
    (prev : list Project) : list Project :=
  map (fun p => if decide (id p = projectId) then spread p updatedData else p)
      prev.

(** [createNewProject] (lines 67-79 and 501-513); [now] is [Date.now()] and
    [iso] the ISO rendering of the same instant. *)
Definition createNewProject (now : nat) (iso : jstring)
    (prev : list Project) : list Project :=
  prev ++ [ {| id := str "proj_" ++ String_of_nat now;
               name := JStr (str "Untitled Project");
               author := JStr (str "Unknown Author");
               storyText := [];
               totalPages := 0;
               scenes := ∅;
               createdAt := iso |} ].

(** ** Ingestion: from text to scenes (lines 272-277 and 731-736) *)

Definition pending_scene (t : option jstring) : Scene :=
  {| status := pending; text := t; prompt := None; videoUrl := None |}.

(** [text.split(/\n\s*\n/).filter(p => p.trim() !== '')] *)
Definition pages_of (text : jstring) : list jstring :=
  filter (fun p => trim p <> []) (split_pages text).

(** [pages.length > 0 ? pages.length : 1] *)
Definition totalPages_of (text : jstring) : nat :=
  if 0 <? length (pages_of text) then length (pages_of text) else 1.

(** [pages[i-1] || ''] *)
Definition page_text (pages : list jstring) (i : nat) : jstring :=
  match pages !! (i - 1) with
  | Some p => or_string p []
  | None => []
  end.

(** The [for] loop that adds the numbered scenes; the key [i] of
    [scenes[i]] is the property name [String(i)]. *)
Definition add_pages (pages : list jstring) (numbers : list nat)
    (scenes0 : gmap jstring Scene) : gmap jstring Scene :=
  foldl (fun acc i =>
           <[String_of_nat i := pending_scene (Some (page_text pages i))]> acc)
        scenes0 numbers.

Definition scenes_of (text : jstring) : gmap jstring Scene :=
  add_pages (pages_of text) (seq 1 (totalPages_of text))
    (<[str "cover" := pending_scene None]>
       (<[str "end" := pending_scene None]> ∅)).

(** ** Navigation *)

(** [['cover', ...Array.from({ length: totalPages }, (_, i) => String(i + 1)), 'end']] *)
Definition navItems_of (totalPages : nat) : list jstring :=
  str "cover" :: map (fun i => String_of_nat (i + 1)) (seq 0 totalPages)
    ++ [str "end"].

(** The scene test of both [find] and [findIndex]:
    [!project.scenes[id] || project.scenes[id].status !== 'completed']. *)
Definition not_completed (p : Project) (sceneId : jstring) : bool :=
  match scenes p !! sceneId with
  | None => true
  | Some s => negb (bool_decide (status s = completed))
  end.

(** The scene [sceneId] is in the map and its status is ['completed']. *)
Definition scene_completed (p : Project) (sceneId : jstring) : Prop :=
  exists s, scenes p !! sceneId = Some s /\ status s = completed.

(** [Array.prototype.findIndex]: the first index that passes, or [-1]. *)
Fixpoint findIndex {A} (f : A -> bool) (l : list A) : Z :=
  match l with
  | [] => (-1)%Z
  | x :: l' => if f x then 0%Z else
      let r := findIndex f l' in
      if (r =? -1)%Z then (-1)%Z else (r + 1)%Z
  end.

(** [Array.prototype.find]. *)
Fixpoint find {A} (f : A -> bool) (l : list A) : option A :=
  match l with
  | [] => None
  | x :: l' => if f x then Some x else find f l'
  end.

(** [PageNavigation] (lines 191-203 and 627-639): the items of the
    sidebar, and for the item at [index] whether its button is disabled. *)
Definition navItems (p : Project) : list jstring :=
  if 0 <? totalPages p then navItems_of (totalPages p) else [].

Definition firstPendingSceneIndex (p : Project) : Z :=
  findIndex (not_completed p) (navItems p).

Definition isDisabled (p : Project) (index : nat) : bool :=
  negb (firstPendingSceneIndex p =? -1)%Z
  && (firstPendingSceneIndex p <? Z.of_nat index)%Z.

(** The click handler [() => !isDisabled && setCurrentSceneId(id)]: the
    scene pointer after a click on the item at [index]. *)
Definition navigate (p : Project) (index : nat) (currentSceneId : jstring)
    : jstring :=
  match navItems p !! index with
  | Some sceneId => if isDisabled p index then currentSceneId else sceneId
  | None => currentSceneId
  end.

(** [SceneGenerator] (lines 230-242 and 666-678): which component shows
    the current scene. *)
Inductive View : Type := LayoutUploader | CompletedSceneViewer | SceneGeneratorUI.

Definition SceneGenerator (p : Project) (currentSceneId : jstring) : View :=
  if negb (truthy_string (storyText p)) then LayoutUploader
  else match scenes p !! currentSceneId with
       | Some s => if bool_decide (status s = completed)
                   then CompletedSceneViewer else SceneGeneratorUI
       | None => SceneGeneratorUI
       end.

(** ** The generation service *)

Inductive PayloadPart : Type :=
| TextPart (t : jstring)
| InlineData (mimeType data : jstring).

(** The request body of [generateScene]: the one entry of [contents] and
    the [generationConfig]. *)
Record Payload : Type := {
  role : jstring;
  parts : list PayloadPart;
  responseMimeType : jstring;
  responseSchema : json
}.

(** The decoded response body, in the shape the service documents:
    [{ candidates: [{ content: { parts: [{ text }] } }] }]. A field that
    the service left out is [None]. *)
Record ResponsePart : Type := { part_text : option jstring }.
Record Content : Type := { content_parts : option (list ResponsePart) }.
Record Candidate : Type := { content : option Content }.
Record Body : Type := { candidates : option (list Candidate) }.

(** The outcome of an operation that may throw; an exception is known by
    its [message], the only thing the handlers read. *)
Inductive result (A : Type) : Type :=
| Ok (a : A)
| Throw (message : jstring).
Arguments Ok {A} a.
Arguments Throw {A} message.

(** A [fetch] response: status line, [response.text()] and
    [response.json()]. *)
Record Response : Type := {
  http_status : N;
  statusText : jstring;
  body_text : jstring;
  body_json : result Body
}.

(** [response.ok]: the status is in the range 200-299. *)
Definition ok (r : Response) : bool :=
  ((200 <=? http_status r) && (http_status r <=? 299))%N.

(** The service as the client sees it: a URL and a request body give a
    response, or the request fails. A request that never settles is not
    among its answers: the runs of the handlers modelled below are those
    in which every awaited operation settles. *)
Definition Service : Type := jstring -> Payload -> result Response.

(** ** Handlers: what they do, in order *)

Inductive Event : Type :=
| SetStoryFile (fileName : jstring)
| SetIsFileParsing (b : bool)
| SetIsLoading (b : bool)
| SetLoadingMessage (message : jstring)
| SetError (message : jstring)
| Fetch (url : jstring) (payload : Payload)
| UpdateProject (projectId : jstring) (updatedData : Patch)
| SetCurrentSceneId (sceneId : jstring).

(** A computation that logs the calls it makes and may stop with an
    exception. *)
Definition M (A : Type) : Type := (list Event * result A)%type.

#[global] Instance M_ret : MRet M := fun A a => ([], Ok a).

#[global] Instance M_bind : MBind M := fun A B k m =>
  match m with
  | (es, Ok a) => match k a with (es', r) => (es ++ es', r) end
  | (es, Throw msg) => (es, Throw msg)
  end.

Definition call (e : Event) : M unit := ([e], Ok tt).
Definition throw {A} (message : jstring) : M A := ([], Throw message).
Definition await {A} (r : result A) : M A := ([], r).

(** [try { body } catch (err) { handler } finally { final }] where neither
    the handler nor the final block throws. *)
Definition try_catch_finally (body : M unit) (handler : jstring -> list Event)
    (final : list Event) : list Event :=
  match body with
  | (es, Ok _) => es ++ final
  | (es, Throw message) => es ++ handler message ++ final
  end.

(** The part of the interface that the events touch. *)
Record State : Type := {
  projects : list Project;
  currentSceneId : jstring;
  error : jstring;
  requests : list Payload
}.

Definition apply_event (st : State) (e : Event) : State :=
  match e with
  | SetError message =>
      {| projects := projects st; currentSceneId := currentSceneId st;
         error := message; requests := requests st |}
  | Fetch _ payload =>
      {| projects := projects st; currentSceneId := currentSceneId st;
         error := error st; requests := requests st ++ [payload] |}
  | UpdateProject projectId updatedData =>
      {| projects := updateProject projectId updatedData (projects st);
         currentSceneId := currentSceneId st;
         error := error st; requests := requests st |}
  | SetCurrentSceneId sceneId =>
      {| projects := projects st; currentSceneId := sceneId;
         error := error st; requests := requests st |}
  | SetStoryFile _ | SetIsFileParsing _ | SetIsLoading _
  | SetLoadingMessage _ => st
  end.

Definition run (es : list Event) (st : State) : State :=
  foldl apply_event st es.

(** The updates to the project store among the events. *)
Definition updates (es : list Event) : list (jstring * Patch) :=
  omap (fun e => match e with
                 | UpdateProject projectId d => Some (projectId, d)
                 | _ => None
                 end) es.

(** The project store after the updates among the events. *)
Definition commit (es : list Event) (ps : list Project) : list Project :=
  foldl (fun acc u => updateProject (fst u) (snd u) acc) ps (updates es).

(** The requests sent to the service among the events. *)
Definition fetches (es : list Event) : list Payload :=
  omap (fun e => match e with Fetch _ payload => Some payload | _ => None end)
       es.

(** The messages passed to [setError], in order. *)
Definition errors (es : list Event) : list jstring :=
  omap (fun e => match e with SetError m => Some m | _ => None end) es.

(** ** The prompt builder and the generation client (lines 1012-1112) *)

Definition schema_type (t : string) : json := JObj [(str "type", JStr (str t))].

Definition schema_object (properties : list (string * json)) : json :=
  JObj [(str "type", JStr (str "OBJECT"));
        (str "properties",
         JObj (map (fun kv => (str (fst kv), snd kv)) properties))].

Definition schema_array (items : json) : json :=
  JObj [(str "type", JStr (str "ARRAY")); (str "items", items)].

Definition animationPromptSchema : json :=
  schema_object
    [("page_number", schema_type "NUMBER");
     ("scene_summary", schema_type "STRING");
     ("animation_style",
      schema_object [("style", schema_type "STRING");
                     ("color_palette", schema_type "STRING");
                     ("tone", schema_type "STRING")]);
     ("scene",
      schema_object [("location", schema_type "STRING");
                     ("time_of_day", schema_type "STRING");
                     ("environment_details", schema_type "STRING")]);
     ("characters",
      schema_array
        (schema_object [("name", schema_type "STRING");
                        ("description", schema_type "STRING");
                        ("initial_expression", schema_type "STRING")]));
     ("camera",
      schema_object [("shot_type", schema_type "STRING");
                     ("movement", schema_type "STRING")]);
     ("action",
      schema_object [("primary_action", schema_type "STRING");
                     ("subtle_motions", schema_type "STRING")]);
     ("audio",
      schema_object
        [("sound_effects", schema_array (schema_type "STRING"));
         ("dialogue",
          schema_object [("character", schema_type "STRING");
                         ("line", schema_type "STRING");
                         ("voice_actor", schema_type "STRING")])]);
     ("metadata",
      schema_object [("estimated_duration_seconds", schema_type "NUMBER");
                     ("notes", schema_type "STRING")]);
     ("extracted_title", schema_type "STRING");
     ("extracted_author", schema_type "STRING")]%string.

(** A line feed, and the eight spaces that indent the lines of the
    template literal. *)
Definition nl : jstring := [10%N].
Definition indent : jstring := str "        ".

Definition systemInstruction : jstring :=
  str "You are an expert animation director for children's content. Your task is to analyze a single children's book scene (text and illustration) within the context of an entire story. You will generate a structured JSON object that serves as a technical animation prompt. All descriptions must be child-friendly and safe.".

(** [project.scenes[sceneId]?.text || ''] *)
Definition sceneText_of (project : Project) (sceneId : jstring) : jstring :=
  match scenes project !! sceneId with
  | Some s => match text s with Some t => or_string t [] | None => [] end
  | None => []
  end.

Definition taskInstruction_of (sceneId feedback : jstring) : jstring :=
  (if decide (sceneId = str "cover") then
     str "Analyze the attached book cover image. Based on the visuals, generate a dynamic opening title sequence animation. IMPORTANT: Also, extract the book's title and author's name from the cover image text. Populate the 'extracted_title' and 'extracted_author' fields in the JSON. The animation should hint at the story's main themes and characters."
   else if decide (sceneId = str "end") then
     str "All pages are complete. Generate a concluding animation prompt. This should be a gentle, summary scene, perhaps a final shot of the main character or a pan across the main setting, evoking a feeling of happy resolution. Use the full story context for inspiration."
   else
     str "Analyze the attached illustration and its corresponding text for Page "
     ++ sceneId
     ++ str ". Generate a detailed animation prompt based on these assets, interpreted within the broader context of the full story provided below.")
  ++ (if truthy_string feedback then
        nl ++ nl
        ++ str "REGENERATION FEEDBACK: The previous attempt was not quite right. Please regenerate the JSON, taking this user feedback into account: "
        ++ dquote ++ feedback ++ dquote
      else []).

Definition buildApiPromptText (project : Project) (sceneId feedback : jstring)
    : jstring :=
  let sceneText := sceneText_of project sceneId in
  let fullStoryContext :=
    or_string (storyText project) (str "No story context provided yet.") in
  let taskInstruction := taskInstruction_of sceneId feedback in
  nl ++ indent ++ str "SYSTEM INSTRUCTION: " ++ systemInstruction
  ++ nl ++ indent ++ str "FULL STORY CONTEXT:"
  ++ nl ++ indent ++ fullStoryContext
  ++ nl ++ indent ++ str "---"
  ++ nl ++ indent ++ str "CURRENT SCENE ANALYSIS TASK:"
  ++ nl ++ indent ++ str "- Scene ID: " ++ sceneId
  ++ nl ++ indent ++ str "- Scene Text (if applicable): "
  ++ dquote ++ sceneText ++ dquote
  ++ nl ++ indent ++ str "- Task: " ++ taskInstruction
  ++ nl ++ indent ++ str "Now, populate the JSON schema based on this task."
  ++ nl ++ str "    ".

(** The request URL; [apiKey] is the empty string. *)
Definition apiUrl : jstring :=
  str "https://generativelanguage.googleapis.com/v1beta/models/gemini-2.0-flash:generateContent?key=".

Definition payload_of (textPrompt imageBase64 : jstring) : Payload :=
  {| role := str "user";
     parts := TextPart textPrompt
              :: (if truthy_string imageBase64
                  then [InlineData (str "image/jpeg") imageBase64] else []);
     responseMimeType := str "application/json";
     responseSchema := animationPromptSchema |}.

(** [generateVideoFromPrompt] (lines 1108-1112): the simulated synthesis
    waits and returns a fixed reference. *)
Definition sampleVideo : jstring :=
  str "https://storage.googleapis.com/gtv-videos-bucket/sample/ForBiggerFun.mp4".

Definition generateVideoFromPrompt (prompt : json) : M jstring :=
  mret sampleVideo.

Section Platform.

(** [JSON.parse], which throws on a text that is not JSON. *)
Variable JSON_parse : jstring -> result json.

(** The message of the [TypeError] that reading property [k] of
    [undefined] ([None]) or of [null] throws; engines word it
    differently. *)
Variable TypeError_message : option json -> jstring -> jstring.

(** [v.k] for a key [k] that is neither an index, nor ['length'], nor
    defined on a prototype: the member of an object, [undefined] on any
    other value, and a [TypeError] on [null]. *)
Definition get_member (v : json) (k : jstring) : result (option json) :=
  match v with
  | JNull => Throw (TypeError_message (Some JNull) k)
  | JObj members => Ok (assoc k members)
  | _ => Ok None
  end.

(** [o.k] where [o] may be [undefined]. *)
Definition get_field {A B} (o : option A) (k : string) (field : A -> B)
    : result B :=
  match o with
  | Some a => Ok (field a)
  | None => Throw (TypeError_message None (str k))
  end.

(** [result.candidates[0].content.parts[0].text] *)
Definition first_text (c : Candidate) : result (option jstring) :=
  match get_field (content c) "parts" content_parts with
  | Throw m => Throw m
  | Ok ps =>
      match get_field ps "0" (fun l => l !! 0) with
      | Throw m => Throw m
      | Ok p0 => get_field p0 "text" part_text
      end
  end.

(** [JSON.parse(jsonText)]: the argument is converted to a string
    first, and [undefined] converts to ["undefined"]. *)
Definition parse_text (jsonText : option jstring) : result json :=
  JSON_parse (default (str "undefined") jsonText).

(** [generateScene] (lines 1060-1105). Its [catch] rethrows what it
    caught, and its parameters [updateProject] and [setError] are never
    used. *)
Definition generateScene (fetch : Service) (project : Project)
    (sceneId imageBase64 feedback : jstring) : M json :=
  let textPrompt := buildApiPromptText project sceneId feedback in
  let payload := payload_of textPrompt imageBase64 in
  call (Fetch apiUrl payload);;
  response ← await (fetch apiUrl payload);
  if negb (ok response) then
    let errorBody := body_text response in
    throw (str "API Error: " ++ String_of_nat (N.to_nat (http_status response))
           ++ str " " ++ statusText response ++ str " - " ++ errorBody)
  else
    result ← await (body_json response);
    match candidates result with
    | Some (c :: _) =>
        jsonText ← await (first_text c);
        newPrompt ← await (parse_text jsonText);
        mret newPrompt
    | _ => throw (str "The model returned an empty or invalid response.")
    end.

End Platform.

(** ** Uploaded files *)

(** What pdf.js makes of a file: for each page the strings of its text
    items, and the first page rendered to a JPEG data URL, of which the
    part after the comma is kept. *)
Record PdfDocument : Type := {
  pageItems : list (list jstring);
  coverImage : jstring
}.

(** An uploaded file: its name, what [file.text()] resolves to, and what
    opening it with pdf.js gives. *)
Record File : Type := {
  file_name : jstring;
  file_text : jstring;
  file_pdf : result PdfDocument
}.

(** [items.join(' ')] *)
Fixpoint join (sep : jstring) (items : list jstring) : jstring :=
  match items with
  | [] => []
  | [x] => x
  | x :: rest => x ++ sep ++ join sep rest
  end.

(** The loop [fullText += items.map(item => item.str).join(' ') + '\n\n'] *)
Definition fullText_of (pdf : PdfDocument) : jstring :=
  foldl (fun fullText items => fullText ++ join (str " ") items ++ nl ++ nl)
        [] (pageItems pdf).

(** ** Vocabulary for the pages of a layout *)

(** A string without a line feed. *)
Definition newline_free (s : jstring) : Prop :=
  Forall (fun c => is_newline c = false) s.

(** The text of each page of a layout, as the loop of [handleFileChange]
    joins it from the items of the page. *)
Definition page_texts (pdf : PdfDocument) : list jstring :=
  map (join (str " ")) (pageItems pdf).

(** ** The rest of the sidebar and of the viewer *)

(** [getNextScene] of [CompletedSceneViewer] (lines 397-401 and 826-830):
    [navItems[currentIndex + 1]], which is [undefined] past the end and
    the first item when the scene is not among the items. *)
Definition getNextScene (project : Project) (sceneId : jstring)
    : option jstring :=
  let navItems := navItems_of (totalPages project) in
  let currentIndex :=
    findIndex (fun sid => bool_decide (sid = sceneId)) navItems in
  navItems !! Z.to_nat (currentIndex + 1).

(** The click on "Go to Next Scene", a button that is there when
    [nextSceneId] is truthy. *)
Definition goToNextScene (project : Project) (currentSceneId : jstring)
    : list Event :=
  match getNextScene project currentSceneId with
  | Some nextSceneId =>
      if truthy_string nextSceneId then [SetCurrentSceneId nextSceneId] else []
  | None => []
  end.

(** The click on a sidebar item, as events. *)
Definition clickNavItem (project : Project) (index : nat) : list Event :=
  match navItems project !! index with
  | Some sceneId =>
      if isDisabled project index then [] else [SetCurrentSceneId sceneId]
  | None => []
  end.

(** [s.split(' ')[0]]: what comes before the first space. *)
Fixpoint first_word (s : jstring) : jstring :=
  match s with
  | [] => []
  | c :: t => if (c =? 32)%N then [] else c :: first_word t
  end.

(** [s.split(',')[1]]: what lies between the first comma and the second,
    [undefined] when there is no comma. *)
Fixpoint after_first_comma (s : jstring) : option jstring :=
  match s with
  | [] => None
  | c :: t =>
      if (c =? 44)%N
      then Some ((fix upto (u : jstring) : jstring :=
                    match u with
                    | [] => []
                    | d :: u' => if (d =? 44)%N then [] else d :: upto u'
                    end) t)
      else after_first_comma t
  end.

(** [s.replace(/\s/g, '_')] *)
Definition replace_spaces (s : jstring) : jstring :=
  map (fun c => if is_space c then 95%N else c) s.

(** The [download] attribute of the link of [CompletedSceneViewer]
    (line 861), which is computed when the viewer renders. [None] is the
    [TypeError] of calling [replace] on a name that is not a string. *)
Definition download_name (project : Project) (sceneId : jstring)
    : option jstring :=
  match name project with
  | JStr n => Some (replace_spaces n ++ str "_Scene_" ++ sceneId ++ str ".mp4")
  | _ => None
  end.

(** A workspace: the project it shows and its scene pointer. The events of
    a handler act on it through [run]. *)
Definition Workspace : Type := (Project * jstring)%type.

Definition workspace_run (es : list Event) (w : Workspace) : Workspace :=
  let st := run es {| projects := [fst w]; currentSceneId := snd w;
                      error := []; requests := [] |} in
  (default (fst w) (head (projects st)), currentSceneId st).

(** The scene ids passed to [setCurrentSceneId], in order. *)
Definition pointers (es : list Event) : list jstring :=
  omap (fun e => match e with SetCurrentSceneId sid => Some sid | _ => None end)
       es.

(** The values passed to [setIsLoading] and to [setIsFileParsing], in
    order: the busy flag of the component that runs the handler. *)
Definition busy_flags (es : list Event) : list bool :=
  omap (fun e => match e with
                 | SetIsLoading b | SetIsFileParsing b => Some b
                 | _ => None
                 end) es.

(** What React accepts as a child: a string or a number is shown, a
    boolean or [null] shows nothing, an array shows its items, and an
    object that is no element makes the render throw. *)
Fixpoint react_child (v : json) : bool :=
  match v with
  | JObj _ => false
  | JArr items => forallb react_child items
  | _ => true
  end.

(** The render of the workspace of the JSX build goes through: the
    header shows the name and the author of the project as children
    (lines 611-612), and the viewer of a completed scene calls [replace]
    on the name (line 861). *)
Definition renders (w : Workspace) : Prop :=
  react_child (name (fst w)) = true
  /\ react_child (author (fst w)) = true
  /\ (SceneGenerator (fst w) (snd w) = CompletedSceneViewer ->
      is_Some (download_name (fst w) (snd w))).

(** The name of the project is a string and React can show its author:
    with these the workspace renders on every scene. *)
Definition presentable (p : Project) : Prop :=
  (exists n, name p = JStr n) /\ react_child (author p) = true.

(** Every exception that the platform raises while a handler reads
    [file] and calls the service [fetch] carries a message that is not
    empty: the exceptions of pdf.js, of [fetch], of [response.json()] and
    of [JSON.parse], and the [TypeError] of a property access. *)
Definition exceptions_carry_messages (JSON_parse : jstring -> result json)
    (TypeError_message : option json -> jstring -> jstring)
    (fetch : Service) (file : File) : Prop :=
  (forall m, file_pdf file = Throw m -> m <> [])
  /\ (forall url payload m, fetch url payload = Throw m -> m <> [])
  /\ (forall url payload response m,
        fetch url payload = Ok response ->
        body_json response = Throw m -> m <> [])
  /\ (forall s m, JSON_parse s = Throw m -> m <> [])
  /\ (forall base k, TypeError_message base k <> []).

(** The record that [createNewProject] appends. *)
Definition newProject (now : nat) (iso : jstring) : Project :=
  {| id := str "proj_" ++ String_of_nat now;
     name := JStr (str "Untitled Project");
     author := JStr (str "Unknown Author");
     storyText := [];
     totalPages := 0;
     scenes := ∅;
     createdAt := iso |}.

(** In sidebar order, no scene is completed before the scenes above it. *)
Definition completed_in_order (p : Project) : Prop :=
  forall i j sid_i sid_j,
    i < j ->
    navItems_of (totalPages p) !! i = Some sid_i ->
    navItems_of (totalPages p) !! j = Some sid_j ->
    scene_completed p sid_j -> scene_completed p sid_i.

(** Every scene above the pointer is completed. *)
Definition pointer_allowed (w : Workspace) : Prop :=
  forall k i sid,
    navItems_of (totalPages (fst w)) !! k = Some (snd w) ->
    i < k ->
    navItems_of (totalPages (fst w)) !! i = Some sid ->
    scene_completed (fst w) sid.

(** The records of a project follow its story text: nothing was ingested
    yet, or the story text is not blank, the page count is that of the
    story text, and the project has the records that ingestion makes of
    the story text, each with the text that ingestion gave it. *)
Definition records_match_story (p : Project) : Prop :=
  (storyText p = [] /\ totalPages p = 0 /\ scenes p = ∅)
  \/ (trim (storyText p) <> []
      /\ totalPages p = totalPages_of (storyText p)
      /\ forall sid,
           text <$> scenes p !! sid = text <$> scenes_of (storyText p) !! sid).

(** ** The application shell (lines 41-119 and 496-553) *)

(** [setValue] of [useLocalStorage] (lines 431-455), which is the
    [setProjects] of the JSX build: a function passed as [value] is
    applied to the [storedValue] of the render that made this [setValue],
    and the result replaces the state, whatever the state is by then. The
    plain build uses the setter of [useState], which applies the function
    to the state of the moment. *)
Definition setValue {A} (storedValue : A) (value : A -> A) (current : A) : A :=
  value storedValue.

(** The project store after the updates among the events of a handler of
    the JSX build, when the handler was started in a render whose store
    was [storedValue] and the store is [current] when it ends. *)
Definition commit_late (es : list Event) (storedValue current : list Project)
    : list Project :=
  foldl (fun state u => setValue storedValue (updateProject (fst u) (snd u))
                          state)
        current (updates es).

Module App.

Record State : Type := {
  projects : list Project;
  currentProjectId : option jstring;
  projectToDelete : option Project
}.

(** [createNewProject]: the store grows and the new project is selected. *)
Definition createNewProject (now : nat) (iso : jstring) (st : State) : State :=
  {| projects := createNewProject now iso (projects st);
     currentProjectId := Some (str "proj_" ++ String_of_nat now);
     projectToDelete := projectToDelete st |}.

(** [confirmDeleteProject] (lines 81-86 and 515-520). *)
Definition confirmDeleteProject (st : State) : State :=
  match projectToDelete st with
  | Some p =>
      {| projects := filter (fun q => id q <> id p) (projects st);
         currentProjectId := currentProjectId st;
         projectToDelete := None |}
  | None => st
  end.

(** [updateProject] on the state. *)
Definition updateProject (projectId : jstring) (updatedData : Patch)
    (st : State) : State :=
  {| projects := updateProject projectId updatedData (projects st);
     currentProjectId := currentProjectId st;
     projectToDelete := projectToDelete st |}.

(** [projects.find(p => p.id === currentProjectId)] *)
Definition currentProject (st : State) : option Project :=
  match currentProjectId st with
  | Some cid => find (fun p => bool_decide (id p = cid)) (projects st)
  | None => None
  end.

Inductive Screen : Type :=
| ProjectWorkspace (project : Project)
| ProjectsDashboard.

(** What [App] renders: [if (currentProjectId && currentProject)]. *)
Definition screen (st : State) : Screen :=
  match currentProjectId st, currentProject st with
  | Some cid, Some p =>
      if truthy_string cid then ProjectWorkspace p else ProjectsDashboard
  | _, _ => ProjectsDashboard
  end.

End App.

(** ** The JSX build (lines 428-1115) *)

Module Jsx.

(** The update that the upload sends (lines 744-756), with the fields of
    [initialProjectState] written out. *)
Definition finalProjectState (project : Project) (storyText : jstring)
    (newPrompt : json) (extracted_title extracted_author : option json)
    : Patch :=
  {| set_id := Some (id project);
     set_name := Some (or_value extracted_title (name project));
     set_author := Some (or_value extracted_author (author project));
     set_storyText := Some storyText;
     set_totalPages := Some (totalPages_of storyText);
     set_scenes :=
       Some (<[str "cover" := {| status := completed; text := None;
                                 prompt := Some newPrompt;
                                 videoUrl := Some sampleVideo |}]>
               (scenes_of storyText));
     set_createdAt := Some (createdAt project) |}.

Section Handlers.

Variable JSON_parse : jstring -> result json.
Variable TypeError_message : option json -> jstring -> jstring.

(** The scroll-to effect of [ProjectWorkspace] (lines 593-603): the
    call to [setCurrentSceneId] that it makes, if any. *)
Definition ProjectWorkspace_effect (project : Project)
    (currentSceneId : jstring) : list Event :=
  if truthy_string (storyText project) then
    match find (not_completed project) (navItems_of (totalPages project)) with
    | Some firstPendingScene =>
        if truthy_string firstPendingScene
           && negb (bool_decide (firstPendingScene = currentSceneId))
        then [SetCurrentSceneId firstPendingScene] else []
    | None => []
    end
  else [SetCurrentSceneId (str "cover")].

(** Reading the uploaded PDF (lines 700-727). *)
Definition read_layout (pdfjsLib : bool) (file : File)
    : M (jstring * jstring) :=
  if endsWith (file_name file) (str ".pdf") then
    if negb pdfjsLib then throw (str "PDF parsing library not loaded.")
    else
      pdf ← await (file_pdf file);
      let text := fullText_of pdf in
      call (SetLoadingMessage (str "Extracting cover image..."));;
      mret (text, coverImage pdf)
  else throw (str "Unsupported file type. Please upload a PDF layout file.").

(** [initialProjectState] (line 738). *)
Definition initialProjectState (project : Project) (storyText : jstring)
    : Project :=
  spread project
    {| set_id := None; set_name := None; set_author := None;
       set_storyText := Some storyText;
       set_totalPages := Some (totalPages_of storyText);
       set_scenes := Some (scenes_of storyText);
       set_createdAt := None |}.

(** The body of the [try] block of [handleFileChange] (lines 695-758). *)
Definition ingest (fetch : Service) (pdfjsLib : bool) (project : Project)
    (file : File) : M unit :=
  call (SetLoadingMessage (str "Parsing document text..."));;
  '(text, coverImageBase64) ← read_layout pdfjsLib file;
  if negb (truthy_string (trim text)) then
    throw (str "File is empty or text could not be extracted.")
  else
    let initial := initialProjectState project text in
    call (SetLoadingMessage (str "Generating opening scene..."));;
    newPrompt ← generateScene JSON_parse TypeError_message fetch initial
                  (str "cover") coverImageBase64 [];
    videoUrl ← generateVideoFromPrompt newPrompt;
    let finalScenes :=
      <[str "cover" := {| status := completed; text := None;
                          prompt := Some newPrompt;
                          videoUrl := Some videoUrl |}]> (scenes initial) in
    extracted_title ← await (get_member TypeError_message newPrompt
                               (str "extracted_title"));
    extracted_author ← await (get_member TypeError_message newPrompt
                                (str "extracted_author"));
    let finalProjectState :=
      {| set_id := Some (id initial);
         set_name := Some (or_value extracted_title (name project));
         set_author := Some (or_value extracted_author (author project));
         set_storyText := Some (storyText initial);
         set_totalPages := Some (totalPages initial);
         set_scenes := Some finalScenes;
         set_createdAt := Some (createdAt initial) |} in
    call (UpdateProject (id project) finalProjectState);;
    call (SetCurrentSceneId (str "cover")).

(** [handleFileChange] of [LayoutUploader] (lines 688-764); [file] is
    [e.target.files[0]]. *)
Definition handleFileChange (fetch : Service) (pdfjsLib : bool)
    (project : Project) (file : option File) : list Event :=
  match file with
  | None => []
  | Some file =>
      [SetStoryFile (file_name file); SetIsFileParsing true; SetError []]
      ++ try_catch_finally (ingest fetch pdfjsLib project file)
           (fun message => [SetError message])
           [SetIsFileParsing false]
  end.

(** The update that [handleGenerate] sends after a reply (lines 928-942). *)
Definition projectUpdates_of (project : Project) (sceneId : jstring)
    (newPrompt : json) (videoUrl : jstring) : result Patch :=
  let updatedScenes :=
    <[sceneId := {| status := completed;
                    text := scenes project !! sceneId ≫= text;
                    prompt := Some newPrompt;
                    videoUrl := Some videoUrl |}]> (scenes project) in
  let projectUpdates :=
    {| set_id := None; set_name := None; set_author := None;
       set_storyText := None; set_totalPages := None;
       set_scenes := Some updatedScenes; set_createdAt := None |} in
  if bool_decide (sceneId = str "cover") then
    match get_member TypeError_message newPrompt (str "extracted_title") with
    | Throw m => Throw m
    | Ok extracted_title =>
        match extracted_title with
        | Some title =>
            if truthy extracted_title then
              match get_member TypeError_message newPrompt
                      (str "extracted_author") with
              | Throw m => Throw m
              | Ok extracted_author =>
                  Ok {| set_id := None;
                        set_name := Some title;
                        set_author :=
                          Some (or_value extracted_author
                                  (JStr (str "Unknown Author")));
                        set_storyText := None; set_totalPages := None;
                        set_scenes := Some updatedScenes;
                        set_createdAt := None |}
              end
            else Ok projectUpdates
        | None => Ok projectUpdates
        end
    end
  else Ok projectUpdates.

(** The body of the [try] block of [handleGenerate] (lines 922-945). *)
Definition generate (fetch : Service) (project : Project)
    (sceneId imageBase64 feedback : jstring) : M unit :=
  newPrompt ← generateScene JSON_parse TypeError_message fetch project
                sceneId imageBase64 feedback;
  call (SetLoadingMessage (str "Generating video..."));;
  videoUrl ← generateVideoFromPrompt newPrompt;
  projectUpdates ← await (projectUpdates_of project sceneId newPrompt videoUrl);
  call (UpdateProject (id project) projectUpdates).

(** The guard of [handleGenerate] (line 914):
    [(sceneId !== 'end' && !imageBase64) && !isRegenerating]. *)
Definition missing_illustration (sceneId imageBase64 : jstring)
    (isRegenerating : bool) : bool :=
  (negb (bool_decide (sceneId = str "end"))
   && negb (truthy_string imageBase64))
  && negb isRegenerating.

(** [handleGenerate] of [SceneGeneratorUI] (lines 913-951). *)
Definition handleGenerate (fetch : Service) (project : Project)
    (sceneId : jstring) (isRegenerating : bool)
    (imageBase64 feedback : jstring) : list Event :=
  if missing_illustration sceneId imageBase64 isRegenerating
  then [SetError (str "Please upload an illustration for this page.")]
  else
    [SetIsLoading true;
     SetLoadingMessage (str "Generating JSON prompt...");
     SetError []]
    ++ try_catch_finally (generate fetch project sceneId imageBase64 feedback)
         (fun message =>
            [SetError (str "Operation failed: " ++ message ++ str ".")])
         [SetIsLoading false].

(** A click on "Generate Scene" while [sceneId] is the current scene.
    [SceneGenerator] mounts [SceneGeneratorUI] directly for a scene that
    is not completed, with [isRegenerating] at its default [false];
    [CompletedSceneViewer] mounts it with [isRegenerating={true}]
    (lines 877-887). The uploader has no such button. *)
Definition clickGenerate (fetch : Service) (project : Project)
    (sceneId imageBase64 feedback : jstring) : option (list Event) :=
  match SceneGenerator project sceneId with
  | LayoutUploader => None
  | SceneGeneratorUI =>
      Some (handleGenerate fetch project sceneId false imageBase64 feedback)
  | CompletedSceneViewer =>
      Some (handleGenerate fetch project sceneId true imageBase64 feedback)
  end.

(** [confirmDeleteProject] (lines 515-520), as a state updater. *)
Definition confirmDeleteProject (projectToDelete : Project)
    (prev : list Project) : list Project :=
  filter (fun p => id p <> id projectToDelete) prev.

(** The project stores that the operations of the build lead to. Every
    operation runs against the service as it answers at that moment. The
    uploader is shown for a project without story text, and the generate
    button for any other. *)
Inductive step : list Project -> list Project -> Prop :=
| step_create now iso ps :
    step ps (createNewProject now iso ps)
| step_delete p ps :
    p ∈ ps -> step ps (confirmDeleteProject p ps)
| step_ingest fetch pdfjsLib p sceneId file ps :
    p ∈ ps ->
    SceneGenerator p sceneId = LayoutUploader ->
    step ps (commit (handleFileChange fetch pdfjsLib p file) ps)
| step_generate fetch p sceneId imageBase64 feedback es ps :
    p ∈ ps ->
    clickGenerate fetch p sceneId imageBase64 feedback = Some es ->
    step ps (commit es ps).

Definition reachable (ps : list Project) : Prop := rtc step [] ps.

(** [headerText] of [SceneGeneratorUI] (lines 955-959). *)
Definition headerText (sceneId : jstring) (isRegenerating : bool) : jstring :=
  let headerText :=
    if bool_decide (sceneId = str "cover") then str "Generate Cover Animation"
    else if bool_decide (sceneId = str "end") then str "Generate End Scene"
    else str "Generate Animation for Page " ++ sceneId in
  if isRegenerating then str "Regenerate: " ++ first_word headerText
  else headerText.

(** [handleImageChange] (lines 901-911): the value of [imageBase64] once
    the reader has loaded the data URL of the chosen file; [undefined] is
    [None]. *)
Definition imageBase64_of (dataUrl : jstring) : option jstring :=
  after_first_comma dataUrl.

(** What a user can do in the workspace of the JSX build, one step at a
    time: the effect runs, a sidebar item or the next-scene button is
    clicked, a file is uploaded where the uploader is shown, the generate
    button is clicked where it is shown, with whatever image, feedback
    and answer of the service, or the workspace is opened anew. A handler
    that was started runs to its end within its step: runs that overlap
    are not steps of this relation. The render between two steps is not
    part of a step: a workspace whose render throws (see [renders]) still
    has steps here, which the application cannot take. The relation
    so reaches every workspace that the application reaches by such
    steps, and more: what holds of every workspace reached here holds of
    those, while a path found here is a path of the application only
    where each workspace on it renders. *)
Inductive ui_step : Workspace -> Workspace -> Prop :=
| ui_effect w :
    ui_step w (workspace_run (ProjectWorkspace_effect (fst w) (snd w)) w)
| ui_navigate w index :
    ui_step w (workspace_run (clickNavItem (fst w) index) w)
| ui_next w :
    SceneGenerator (fst w) (snd w) = CompletedSceneViewer ->
    ui_step w (workspace_run (goToNextScene (fst w) (snd w)) w)
| ui_upload w fetch pdfjsLib file :
    SceneGenerator (fst w) (snd w) = LayoutUploader ->
    ui_step w (workspace_run
                 (handleFileChange fetch pdfjsLib (fst w) file) w)
| ui_generate w fetch imageBase64 feedback es :
    clickGenerate fetch (fst w) (snd w) imageBase64 feedback = Some es ->
    ui_step w (workspace_run es w)
| ui_reopen w :
    ui_step w (fst w, str "cover").

Definition ui_reachable (w : Workspace) : Prop :=
  exists now iso, rtc ui_step (newProject now iso, str "cover") w.

End Handlers.
End Jsx.

(** ** The plain build (lines 1-428) *)

Module Plain.

(** The scroll-to effect of [ProjectWorkspace] (lines 159-167). *)
Definition ProjectWorkspace_effect (project : Project)
    (currentSceneId : jstring) : list Event :=
  if truthy_string (storyText project)
     && not_completed project currentSceneId
  then
    match find (not_completed project) (navItems_of (totalPages project)) with
    | Some firstPendingScene =>
        if truthy_string firstPendingScene
           && negb (bool_decide (firstPendingScene = currentSceneId))
        then [SetCurrentSceneId firstPendingScene] else []
    | None => []
    end
  else [].

(** The body of the [try] block of [handleFileChange] (lines 257-289).
    The PDF branch reports and returns from inside the block. *)
Definition ingest (project : Project) (file : File) : M unit :=
  call (SetLoadingMessage (str "Parsing document text..."));;
  if endsWith (file_name file) (str ".pdf") then
    call (SetError (str "PDF parsing requires additional setup. Please use a text file for now."))
  else
    text ← (if endsWith (file_name file) (str ".txt")
            then mret (file_text file)
            else throw (str "Unsupported file type. Please upload a text file."));
    if negb (truthy_string (trim text)) then
      throw (str "File is empty or text could not be extracted.")
    else
      let projectUpdates :=
        {| set_id := None;
           set_name := Some (JStr (str "My Animation Project"));
           set_author := Some (JStr (str "Author Name"));
           set_storyText := Some text;
           set_totalPages := Some (totalPages_of text);
           set_scenes := Some (scenes_of text);
           set_createdAt := None |} in
      call (UpdateProject (id project) projectUpdates);;
      call (SetCurrentSceneId (str "cover")).

(** [handleFileChange] of [LayoutUploader] (lines 250-295). *)
Definition handleFileChange (project : Project) (file : option File)
    : list Event :=
  match file with
  | None => []
  | Some file =>
      [SetStoryFile (file_name file); SetIsFileParsing true; SetError []]
      ++ try_catch_finally (ingest project file)
           (fun message => [SetError message])
           [SetIsFileParsing false]
  end.

Section Mock.

(** [parseInt] with one argument; [None] is [NaN]. *)
Variable parseInt : jstring -> option Q.

(** [parseInt(sceneId) || 999] *)
Definition page_number_or_999 (sceneId : jstring) : Q :=
  match parseInt sceneId with
  | Some q => if truthy (Some (JNum q)) then q else 999
  | None => 999
  end.

(** [mockPrompt] (lines 341-345). *)
Definition mockPrompt (sceneId : jstring) : json :=
  JObj [ (str "page_number",
          JNum (if bool_decide (sceneId = str "cover") then 0
                else page_number_or_999 sceneId));
         (str "scene_summary", JStr (str "Mock animation for " ++ sceneId));
         (str "animation_style",
          JObj [ (str "style", JStr (str "cartoon"));
                 (str "color_palette", JStr (str "vibrant"));
                 (str "tone", JStr (str "cheerful")) ]) ].

(** The body of the [try] block of [handleGenerate] (lines 338-357),
    after its wait. *)
Definition generate (project : Project) (sceneId : jstring) : M unit :=
  let updatedScenes :=
    <[sceneId := {| status := completed;
                    text := scenes project !! sceneId ≫= text;
                    prompt := Some (mockPrompt sceneId);
                    videoUrl := Some sampleVideo |}]> (scenes project) in
  call (UpdateProject (id project)
          {| set_id := None; set_name := None; set_author := None;
             set_storyText := None; set_totalPages := None;
             set_scenes := Some updatedScenes; set_createdAt := None |}).

(** [handleGenerate] of [SceneGeneratorUI] (lines 333-364). *)
Definition handleGenerate (project : Project) (sceneId : jstring)
    : list Event :=
  [SetIsLoading true; SetError []]
  ++ try_catch_finally (generate project sceneId)
       (fun message => [SetError (str "Generation failed: " ++ message)])
       [SetIsLoading false].

(** A click on "Generate Scene": the button is in [SceneGeneratorUI],
    and the viewer of this build has no way to regenerate. *)
Definition clickGenerate (project : Project) (sceneId : jstring)
    : option (list Event) :=
  match SceneGenerator project sceneId with
  | SceneGeneratorUI => Some (handleGenerate project sceneId)
  | _ => None
  end.

(** What a user can do in the workspace of the plain build, a handler
    that was started running to its end within its step. *)
Inductive ui_step : Workspace -> Workspace -> Prop :=
| ui_effect w :
    ui_step w (workspace_run (ProjectWorkspace_effect (fst w) (snd w)) w)
| ui_navigate w index :
    ui_step w (workspace_run (clickNavItem (fst w) index) w)
| ui_next w :
    SceneGenerator (fst w) (snd w) = CompletedSceneViewer ->
    ui_step w (workspace_run (goToNextScene (fst w) (snd w)) w)
| ui_upload w file :
    SceneGenerator (fst w) (snd w) = LayoutUploader ->
    ui_step w (workspace_run (handleFileChange (fst w) file) w)
| ui_generate w es :
    clickGenerate (fst w) (snd w) = Some es ->
    ui_step w (workspace_run es w)
| ui_reopen w :
    ui_step w (fst w, str "cover").

Definition ui_reachable (w : Workspace) : Prop :=
  exists now iso, rtc ui_step (newProject now iso, str "cover") w.

End Mock.

End Plain.

(** ** Scene fields and status *)

(** A pending scene has neither prompt nor video; a completed scene has
    both, the video being the sample reference, and the prompt of a
    completed cover is not [null]. *)
Definition scene_consistent (sceneId : jstring) (s : Scene) : Prop :=
  match status s with
  | pending => prompt s = None /\ videoUrl s = None
  | completed =>
      is_Some (prompt s) /\ videoUrl s = Some sampleVideo
      /\ (sceneId = str "cover" -> prompt s <> Some JNull)
  end.

Definition store_consistent (ps : list Project) : Prop :=
  forall p, p ∈ ps ->
  forall sceneId s, scenes p !! sceneId = Some s -> scene_consistent sceneId s.

(** A field counts as set when it is present and not [null]. *)
Definition prompt_set (s : Scene) : Prop :=
  exists v, prompt s = Some v /\ v <> JNull.

Definition videoUrl_set (s : Scene) : Prop := is_Some (videoUrl s).

(** The fields of every scene follow its status, the prompt of a
    completed scene being a value other than [null]. *)
Definition fields_follow_status (p : Project) : Prop :=
  forall sid s, scenes p !! sid = Some s ->
    match status s with
    | pending => prompt s = None /\ videoUrl s = None
    | completed => prompt_set s /\ videoUrl s = Some sampleVideo
    end.

(** ** A JSON reader

    A recursive-descent reader of JSON texts, after the grammar of
    ECMA-404. It stands for [JSON.parse] in the sample runs, where a
    statement needs a concrete reader; the general statements hold for
    any reader. It differs from [JSON.parse] in what it returns: a
    number is kept as the exact rational that the text denotes, where
    [JSON.parse] rounds to a double; the members of an object are kept in
    the order of the text, where JavaScript lists integer keys first; and
    the messages of its errors are its own. The sample runs use texts
    whose numbers and keys these differences leave alone. *)

Module Reader.

Fixpoint skip_ws (s : jstring) : jstring :=
  match s with
  | c :: t =>
      if ((c =? 32) || (c =? 9) || (c =? 10) || (c =? 13))%N
      then skip_ws t else s
  | [] => []
  end.

Definition is_digit_unit (c : N) : bool := ((48 <=? c) && (c <=? 57))%N.

Fixpoint take_digits (s : jstring) : list N * jstring :=
  match s with
  | c :: t =>
      if is_digit_unit c
      then match take_digits t with (ds, r) => ((c - 48)%N :: ds, r) end
      else ([], s)
  | [] => ([], [])
  end.

Definition digits_value (ds : list N) : Z :=
  foldl (fun acc d => (acc * 10 + Z.of_N d)%Z) 0%Z ds.

(** [-? int frac? exp?], read as the exact rational it denotes. *)
Definition read_number (s : jstring) : option (Q * jstring) :=
  let '(negative, s1) :=
    match s with 45%N :: t => (true, t) | _ => (false, s) end in
  '(int_digits, s2) ←
    match s1 with
    | 48%N :: t => Some ([0%N], t)
    | _ => match take_digits s1 with
           | ([], _) => None
           | (ds, r) => Some (ds, r)
           end
    end;
  '(frac_digits, s3) ←
    match s2 with
    | 46%N :: t => match take_digits t with
                   | ([], _) => None
                   | (ds, r) => Some (ds, r)
                   end
    | _ => Some ([], s2)
    end;
  '(exponent, s4) ←
    match s3 with
    | c :: t =>
        if ((c =? 101) || (c =? 69))%N then
          let '(minus, t1) :=
            match t with
            | 45%N :: t' => (true, t')
            | 43%N :: t' => (false, t')
            | _ => (false, t)
            end in
          match take_digits t1 with
          | ([], _) => None
          | (ds, r) =>
              Some (if minus then (- digits_value ds)%Z else digits_value ds, r)
          end
        else Some (0%Z, s3)
    | [] => Some (0%Z, s3)
    end;
  let mantissa := digits_value (int_digits ++ frac_digits) in
  let e := (exponent - Z.of_nat (length frac_digits))%Z in
  let magnitude : Q :=
    if (0 <=? e)%Z then Qmake (mantissa * 10 ^ e) 1
    else Qmake mantissa (Z.to_pos (10 ^ (- e))) in
  Some (if negative then Qopp magnitude else magnitude, s4).

Definition hex_value (c : N) : option N :=
  if is_digit_unit c then Some (c - 48)%N
  else if ((97 <=? c) && (c <=? 102))%N then Some (c - 87)%N
  else if ((65 <=? c) && (c <=? 70))%N then Some (c - 55)%N
  else None.

(** The code units of a string literal, after its opening quote. *)
Fixpoint read_string (s : jstring) : option (jstring * jstring) :=
  match s with
  | [] => None
  | 34%N :: t => Some ([], t)
  | 92%N :: 117%N :: h1 :: h2 :: h3 :: h4 :: t =>
      a ← hex_value h1; b ← hex_value h2;
      c ← hex_value h3; d ← hex_value h4;
      '(cs, r) ← read_string t;
      Some ((a * 4096 + b * 256 + c * 16 + d)%N :: cs, r)
  | 92%N :: e :: t =>
      u ← (if (e =? 34)%N then Some 34%N
           else if (e =? 92)%N then Some 92%N
           else if (e =? 47)%N then Some 47%N
           else if (e =? 98)%N then Some 8%N
           else if (e =? 102)%N then Some 12%N
           else if (e =? 110)%N then Some 10%N
           else if (e =? 114)%N then Some 13%N
           else if (e =? 116)%N then Some 9%N
           else None);
      '(cs, r) ← read_string t;
      Some (u :: cs, r)
  | c :: t =>
      if (c <? 32)%N then None
      else '(cs, r) ← read_string t; Some (c :: cs, r)
  end.

(** A later member replaces an earlier one of the same key. *)
Fixpoint set_member (k : jstring) (v : json)
    (members : list (jstring * json)) : list (jstring * json) :=
  match members with
  | [] => [(k, v)]
  | (k', v') :: rest =>
      if decide (k' = k) then (k, v) :: rest
      else (k', v') :: set_member k v rest
  end.

Fixpoint read_value (fuel : nat) (s : jstring) : option (json * jstring) :=
  match fuel with
  | O => None
  | S fuel' =>
      match skip_ws s with
      | 110%N :: 117%N :: 108%N :: 108%N :: t => Some (JNull, t)
      | 116%N :: 114%N :: 117%N :: 101%N :: t => Some (JBool true, t)
      | 102%N :: 97%N :: 108%N :: 115%N :: 101%N :: t => Some (JBool false, t)
      | 34%N :: t => '(cs, r) ← read_string t; Some (JStr cs, r)
      | 91%N :: t =>
          match skip_ws t with
          | 93%N :: r => Some (JArr [], r)
          | _ => read_elements fuel' t []
          end
      | 123%N :: t =>
          match skip_ws t with
          | 125%N :: r => Some (JObj [], r)
          | _ => read_members fuel' t []
          end
      | rest => '(q, r) ← read_number rest; Some (JNum q, r)
      end
  end
with read_elements (fuel : nat) (s : jstring) (acc : list json)
    : option (json * jstring) :=
  match fuel with
  | O => None
  | S fuel' =>
      '(v, r) ← read_value fuel' s;
      match skip_ws r with
      | 44%N :: t => read_elements fuel' t (acc ++ [v])
      | 93%N :: t => Some (JArr (acc ++ [v]), t)
      | _ => None
      end
  end
with read_members (fuel : nat) (s : jstring) (acc : list (jstring * json))
    : option (json * jstring) :=
  match fuel with
  | O => None
  | S fuel' =>
      match skip_ws s with
      | 34%N :: t =>
          '(k, r) ← read_string t;
          match skip_ws r with
          | 58%N :: t1 =>
              '(v, r1) ← read_value fuel' t1;
              match skip_ws r1 with
              | 44%N :: t2 => read_members fuel' t2 (set_member k v acc)
              | 125%N :: t2 => Some (JObj (set_member k v acc), t2)
              | _ => None
              end
          | _ => None
          end
      | _ => None
      end
  end.

(** The whole text must be one value, white space around it aside. *)
Definition JSON_parse (s : jstring) : result json :=
  match read_value (2 * length s + 2) s with
  | Some (v, r) =>
      match skip_ws r with
      | [] => Ok v
      | _ => Throw (str "Unexpected non-whitespace character after JSON")
      end
  | None => Throw (str "Unexpected token in JSON")
  end.

(** The wording of V8. *)
Definition TypeError_message (base : option json) (k : jstring) : jstring :=
  str "Cannot read properties of "
  ++ (match base with None => str "undefined" | Some _ => str "null" end)
  ++ str " (reading '" ++ k ++ str "')".

(** [parseInt] with one argument, for texts of at most twenty significant
    digits: leading white space, a sign, [0x] for base sixteen, then the
    longest run of digits. *)
Definition hex_digits_value (ds : list N) : Z :=
  foldl (fun acc d => (acc * 16 + Z.of_N d)%Z) 0%Z ds.

Fixpoint take_hex (s : jstring) : list N * jstring :=
  match s with
  | c :: t =>
      match hex_value c with
      | Some v => match take_hex t with (ds, r) => (v :: ds, r) end
      | None => ([], s)
      end
  | [] => ([], [])
  end.

Definition parseInt (s : jstring) : option Q :=
  let s0 := trimStart s in
  let '(negative, s1) :=
    match s0 with
    | 45%N :: t => (true, t)
    | 43%N :: t => (false, t)
    | _ => (false, s0)
    end in
  let magnitude : option Z :=
    match s1 with
    | 48%N :: x :: t =>
        if ((x =? 120) || (x =? 88))%N then
          match take_hex t with
          | ([], _) => None
          | (ds, _) => Some (hex_digits_value ds)
          end
        else match take_digits s1 with
             | ([], _) => None
             | (ds, _) => Some (digits_value ds)
             end
    | _ => match take_digits s1 with
           | ([], _) => None
           | (ds, _) => Some (digits_value ds)
           end
    end in
  match magnitude with
  | Some z => Some (inject_Z (if negative then (- z)%Z else z))
  | None => None
  end.

End Reader.

(** ** Sample files, services and projects *)

Module Samples.

(** A string literal of JSON for the text [t]. *)
Definition quoted (t : jstring) : jstring :=
  dquote
  ++ concat (map (fun c => if ((c =? 34) || (c =? 92))%N
                           then [92%N; c] else [c]) t)
  ++ dquote.

(** A response of the service with [t] as the text of its one candidate. *)
Definition reply_with (t : jstring) : Response :=
  {| http_status := 200;
     statusText := str "OK";
     body_text :=
       str "{" ++ quoted (str "candidates") ++ str ":[{"
       ++ quoted (str "content") ++ str ":{" ++ quoted (str "parts")
       ++ str ":[{" ++ quoted (str "text") ++ str ":" ++ quoted t
       ++ str "}]}}]}";
     body_json :=
       Ok {| candidates :=
               Some [ {| content :=
                           Some {| content_parts :=
                                     Some [ {| part_text := Some t |} ] |} |} ] |} |}.

Definition service_replying (t : jstring) : Service :=
  fun _ _ => Ok (reply_with t).

(** A service that answers with a success and no candidate, as it does for
    a blocked prompt. *)
Definition service_silent : Service :=
  fun _ _ =>
    Ok {| http_status := 200;
          statusText := str "OK";
          body_text := str "{}";
          body_json := Ok {| candidates := None |} |}.

(** A service whose one candidate has no content. *)
Definition service_hollow : Service :=
  fun _ _ =>
    Ok {| http_status := 200;
          statusText := str "OK";
          body_text := str "{" ++ quoted (str "candidates") ++ str ":[{}]}";
          body_json := Ok {| candidates := Some [ {| content := None |} ] |} |}.

(** A service that answers every request with HTTP 500. *)
Definition service_failing : Service :=
  fun _ _ =>
    Ok {| http_status := 500;
          statusText := str "Internal Server Error";
          body_text := str "boom";
          body_json := Throw (str "Unexpected token in JSON") |}.

(** The reply [{"extracted_title":"Foo"}]. *)
Definition title_only : jstring :=
  str "{" ++ quoted (str "extracted_title") ++ str ":"
  ++ quoted (str "Foo") ++ str "}".

(** The reply [{"extracted_title":"Foo","extracted_author":"Ann"}]. *)
Definition title_and_author : jstring :=
  str "{" ++ quoted (str "extracted_title") ++ str ":"
  ++ quoted (str "Foo") ++ str "," ++ quoted (str "extracted_author")
  ++ str ":" ++ quoted (str "Ann") ++ str "}".

(** The reply [{"extracted_title":7}]. *)
Definition title_seven : jstring :=
  str "{" ++ quoted (str "extracted_title") ++ str ":7}".

(** A layout of two pages. *)
Definition layout : File :=
  {| file_name := str "book.pdf";
     file_text := [];
     file_pdf := Ok {| pageItems := [[str "Once"; str "upon"]; [str "The end"]];
                       coverImage := str "AAAA" |} |}.

(** A text file of two pages. *)
Definition story : File :=
  {| file_name := str "story.txt";
     file_text := str "Page1" ++ nl ++ nl ++ str "Page2";
     file_pdf := Throw (str "Invalid PDF structure.") |}.

(** A store with one new project. *)
Definition store0 : list Project :=
  createNewProject 1 (str "2024-01-01T00:00:00.000Z") [].

Definition untitled : Project :=
  {| id := str "proj_1";
     name := JStr (str "Untitled Project");
     author := JStr (str "Unknown Author");
     storyText := [];
     totalPages := 0;
     scenes := ∅;
     createdAt := str "2024-01-01T00:00:00.000Z" |}.

(** The store after the layout was uploaded and the service answered
    the cover request with title and author. *)
Definition store1 : list Project :=
  commit (Jsx.handleFileChange Reader.JSON_parse Reader.TypeError_message
            (service_replying title_and_author) true untitled (Some layout))
         store0.

(** The one project of [store1], written out. *)
Definition book : Project :=
  {| id := str "proj_1";
     name := JStr (str "Foo");
     author := JStr (str "Ann");
     storyText := str "Once upon" ++ nl ++ nl ++ str "The end" ++ nl ++ nl;
     totalPages := 2;
     scenes :=
       <[str "cover" :=
           {| status := completed; text := None;
              prompt := Some (JObj [(str "extracted_title", JStr (str "Foo"));
                                    (str "extracted_author", JStr (str "Ann"))]);
              videoUrl := Some sampleVideo |}]>
         (scenes_of (str "Once upon" ++ nl ++ nl ++ str "The end" ++ nl ++ nl));
     createdAt := str "2024-01-01T00:00:00.000Z" |}.

(** [book] with every scene completed. *)
Definition finished : Project :=
  let done t := {| status := completed; text := t; prompt := Some (JObj []);
                   videoUrl := Some sampleVideo |} in
  {| id := id book; name := name book; author := author book;
     storyText := storyText book; totalPages := totalPages book;
     scenes := <[str "1" := done (Some (str "Once upon"))]>
                 (<[str "2" := done (Some (str "The end"))]>
                    (<[str "end" := done None]> (scenes book)));
     createdAt := createdAt book |}.

(** The events of a click on "Generate Scene" for page 1 of [book], with
    an illustration, when the service replies [null]; and the store
    after them. *)
Definition null_reply_events : list Event :=
  Jsx.handleGenerate Reader.JSON_parse Reader.TypeError_message
    (service_replying (str "null")) book (str "1") false (str "BBBB") [].

Definition store2 : list Project := commit null_reply_events store1.

(** The one project of [store2], written out. *)
Definition book_after_null : Project :=
  {| id := id book; name := name book; author := author book;
     storyText := storyText book; totalPages := totalPages book;
     scenes :=
       <[str "1" := {| status := completed; text := Some (str "Once upon");
                       prompt := Some JNull;
                       videoUrl := Some sampleVideo |}]> (scenes book);
     createdAt := createdAt book |}.

(** The plain build: the workspace after [story] was uploaded to a new
    project, and after the cover was then generated. *)
Definition told : Workspace :=
  workspace_run (Plain.handleFileChange untitled (Some story))
    (untitled, str "cover").

Definition told_cover : Workspace :=
  workspace_run (Plain.handleGenerate Reader.parseInt (fst told) (str "cover"))
    told.

End Samples.
(** ** Facts about white space and trimming *)

Lemma trimStart_blank s : blank s -> trimStart s = [].
Proof.
  induction 1 as [|c s Hc _ IH]; simpl; [reflexivity|]. rewrite Hc. exact IH.
Qed.

Lemma trimStart_keeps s c :
  c ∈ s -> is_space c = false -> c ∈ trimStart s.
Proof.
  induction s as [|d s IH]; intros Hin Hc; simpl.
  - inversion Hin.
  - destruct (is_space d) eqn:Hd.
    + apply elem_of_cons in Hin as [->|Hin]; [congruence|]. auto.
    + exact Hin.
Qed.

Lemma trim_blank s : blank s -> trim s = [].
Proof.
  intros H. unfold trim, trimEnd. rewrite (trimStart_blank s H). reflexivity.
Qed.

Lemma trim_keeps s c : c ∈ s -> is_space c = false -> c ∈ trim s.
Proof.
  intros Hin Hc. unfold trim, trimEnd.
  apply elem_of_reverse, trimStart_keeps; [|exact Hc].
  apply elem_of_reverse, trimStart_keeps; assumption.
Qed.

Lemma blank_dec s : blank s \/ exists c, c ∈ s /\ is_space c = false.
Proof.
  induction s as [|d s [IH|(c & Hin & Hc)]].
  - left. constructor.
  - destruct (is_space d) eqn:Hd.
    + left. constructor; assumption.
    + right. exists d. split; [left|exact Hd].
  - right. exists c. split; [right; exact Hin|exact Hc].
Qed.

(** A string trims to the empty string exactly when it is blank. *)
Lemma trim_nil_iff s : trim s = [] <-> blank s.
Proof.
  split; [|apply trim_blank].
  intros H. destruct (blank_dec s) as [Hb|(c & Hin & Hc)]; [exact Hb|].
  pose proof (trim_keeps s c Hin Hc) as Hk. rewrite H in Hk. inversion Hk.
Qed.

(** ** What the page split computes *)

Lemma is_newline_eq c : is_newline c = true -> c = 10%N.
Proof. unfold is_newline. intros H. apply N.eqb_eq in H. exact H. Qed.

Lemma star_newline_sound t r :
  star_newline t = Some r ->
  exists ws, blank ws /\ t = ws ++ 10%N :: r.
Proof.
  revert r. induction t as [|c t IH]; intros r; simpl; [discriminate|].
  destruct (is_space c) eqn:Hc; [|discriminate].
  destruct (star_newline t) as [r'|] eqn:E.
  - intros [= <-]. destruct (IH r' eq_refl) as (ws & Hws & ->).
    exists (c :: ws). split; [constructor; assumption|reflexivity].
  - destruct (is_newline c) eqn:Hn; [|discriminate]. intros [= <-].
    apply is_newline_eq in Hn as ->. exists []. split; [constructor|reflexivity].
Qed.

Lemma match_separator_sound s r :
  match_separator s = Some r ->
  exists sep, is_separator sep /\ s = sep ++ r.
Proof.
  destruct s as [|c t]; simpl; [discriminate|].
  destruct (is_newline c) eqn:Hn; [|discriminate].
  apply is_newline_eq in Hn as ->. intros H.
  destruct (star_newline_sound t r H) as (ws & Hws & ->).
  exists (10%N :: ws ++ [10%N]). split; [exists ws; auto|].
  simpl. rewrite <- app_assoc. reflexivity.
Qed.

(** A match found in a prefix is still found when text follows. *)
Lemma star_newline_extend a b :
  is_Some (star_newline a) -> is_Some (star_newline (a ++ b)).
Proof.
  induction a as [|c a IH]; simpl; intros [r H]; [discriminate|].
  destruct (is_space c); [|discriminate].
  destruct (star_newline a) as [r'|] eqn:E.
  - destruct IH as [r'' ->]; eauto.
  - destruct (is_newline c); [|discriminate].
    destruct (star_newline (a ++ b)); eauto.
Qed.

Lemma match_separator_extend a b :
  match_separator (a ++ b) = None -> match_separator a = None.
Proof.
  intros H. destruct (match_separator a) as [r|] eqn:E; [|reflexivity].
  exfalso. destruct a as [|c a]; simpl in *; [discriminate|].
  destruct (is_newline c); [|discriminate].
  destruct (star_newline_extend a b (ex_intro _ r E)) as [r' Hr'].
  congruence.
Qed.

(** The segments and the separators between them make up the text. *)
Lemma split_from_weave s cur :
  exists seps,
    Forall is_separator seps
    /\ length (split_from s cur) = S (length seps)
    /\ cur ++ s = weave (split_from s cur) seps.
Proof.
  funelim (split_from s cur); simp split_from.
  - exists []. rewrite app_nil_r. repeat split; constructor.
  - destruct H as (seps & Hseps & Hlen & Hweave).
    destruct (match_separator_sound _ _ e) as (sep & Hsep & Hst).
    exists (sep :: seps). split; [constructor; assumption|].
    split; [simpl; rewrite Hlen; reflexivity|].
    simpl in Hweave. simpl. rewrite <- Hweave, Hst. reflexivity.
  - destruct H as (seps & Hseps & Hlen & Hweave).
    exists seps. repeat split; try assumption.
    rewrite <- Hweave, <- app_assoc. reflexivity.
Qed.

(** No segment has a blank-line boundary inside it. *)
Lemma split_from_free s cur :
  (forall k, k < length cur -> match_separator (drop k (cur ++ s)) = None) ->
  Forall separator_free (split_from s cur).
Proof.
  funelim (split_from s cur); simp split_from; intros Hcur.
  - constructor; [|constructor]. intros k.
    destruct (Nat.lt_ge_cases k (length cur)) as [Hk|Hk].
    + specialize (Hcur k Hk). rewrite app_nil_r in Hcur. exact Hcur.
    + rewrite drop_ge by exact Hk. reflexivity.
  - constructor.
    + intros k. destruct (Nat.lt_ge_cases k (length cur)) as [Hk|Hk].
      * specialize (Hcur k Hk). rewrite drop_app_le in Hcur by lia.
        exact (match_separator_extend _ _ Hcur).
      * rewrite drop_ge by exact Hk. reflexivity.
    + apply H. intros k Hk. simpl in Hk. lia.
  - apply H. intros k Hk. rewrite length_app in Hk. simpl in Hk.
    rewrite <- app_assoc. simpl.
    destruct (Nat.eq_dec k (length cur)) as [->|Hne].
    + rewrite drop_app_length. exact e.
    + apply Hcur. lia.
Qed.



Lemma split_from_cons_None c t cur :
  match_separator (c :: t) = None ->
  split_from (c :: t) cur = split_from t (cur ++ [c]).
Proof.
  intros H. simp split_from.
  generalize (inspect (match_separator (c :: t))). intros [o e].
  destruct o; [congruence|]. simp split_from. reflexivity.
Qed.

Lemma split_from_cons_Some c t cur r :
  match_separator (c :: t) = Some r ->
  split_from (c :: t) cur = cur :: split_from r [].
Proof.
  intros H. simp split_from.
  generalize (inspect (match_separator (c :: t))). intros [o e].
  destruct o as [r'|]; [|congruence]. simp split_from.
  assert (r' = r) by congruence. subst. reflexivity.
Qed.

(** A stretch without line feed joins the current segment whole. *)
Lemma split_from_newline_free t s cur :
  newline_free t -> split_from (t ++ s) cur = split_from s (cur ++ t).
Proof.
  intros Ht. revert cur. induction Ht as [|c t Hc _ IH]; intros cur.
  - rewrite app_nil_r. reflexivity.
  - simpl. rewrite split_from_cons_None by (simpl; rewrite Hc; reflexivity).
    rewrite IH, <- app_assoc. reflexivity.
Qed.

Lemma star_newline_nonblank t u :
  newline_free t -> ~ blank t -> star_newline (t ++ u) = None.
Proof.
  intros Ht. induction Ht as [|c t Hc _ IH]; intros Hnb.
  - exfalso. apply Hnb. constructor.
  - simpl. destruct (is_space c) eqn:Hs; [|reflexivity].
    rewrite IH, Hc; [reflexivity|].
    intros Hb. apply Hnb. constructor; assumption.
Qed.

Lemma star_newline_last ws u :
  blank ws -> star_newline u = None ->
  star_newline (ws ++ 10%N :: u) = Some u.
Proof.
  intros Hws Hu. induction Hws as [|c ws Hc _ IH]; simpl.
  - rewrite Hu. reflexivity.
  - rewrite Hc, IH. reflexivity.
Qed.

(** The matcher finds every blank-line boundary. *)
Lemma star_newline_complete ws rest :
  blank ws -> is_Some (star_newline (ws ++ 10%N :: rest)).
Proof.
  induction 1 as [|c ws Hc _ IH].
  - change ([] ++ 10%N :: rest) with (10%N :: rest).
    cbn [star_newline]. change (is_space 10) with true.
    change (is_newline 10) with true. cbv iota.
    destruct (star_newline rest); eauto.
  - change ((c :: ws) ++ 10%N :: rest) with (c :: (ws ++ 10%N :: rest)).
    cbn [star_newline]. rewrite Hc. destruct IH as [r ->]. eauto.
Qed.

Lemma match_separator_complete s :
  starts_boundary s -> is_Some (match_separator s).
Proof.
  intros (ws & rest & Hws & ->). unfold match_separator.
  change (is_newline 10) with true. cbv iota.
  apply star_newline_complete, Hws.
Qed.

Lemma separator_free_boundary_free seg :
  separator_free seg -> boundary_free seg.
Proof.
  intros Hfree k Hb. apply match_separator_complete in Hb as [r Hr].
  rewrite (Hfree k) in Hr. discriminate.
Qed.

(** The matcher takes in every blank line that follows: what is left does
    not begin with one. *)
Lemma star_newline_greedy t r :
  star_newline t = Some r -> ~ starts_blank_line r.
Proof.
  revert r. induction t as [|c t IH]; intros r; cbn [star_newline];
    [discriminate|].
  destruct (is_space c); [|discriminate].
  destruct (star_newline t) as [r'|] eqn:E.
  - intros [= <-]. apply IH. reflexivity.
  - destruct (is_newline c); [|discriminate]. intros [= <-].
    intros (ws & rest & Hws & ->).
    destruct (star_newline_complete ws rest Hws) as [r Hr]. congruence.
Qed.

Lemma match_separator_greedy s r :
  match_separator s = Some r -> ~ starts_blank_line r.
Proof.
  destruct s as [|c t]; cbn [match_separator]; [discriminate|].
  destruct (is_newline c); [|discriminate]. apply star_newline_greedy.
Qed.

(** The first segment is the current one with a prefix of the text, and
    no later segment begins with a blank line. *)
Lemma split_from_heads s cur :
  exists p q segs,
    s = p ++ q
    /\ split_from s cur = (cur ++ p) :: segs
    /\ Forall (fun seg => ~ starts_blank_line seg) segs.
Proof.
  funelim (split_from s cur); simp split_from.
  - exists [], [], []. split; [reflexivity|]. rewrite app_nil_r.
    split; [reflexivity|constructor].
  - destruct H as (p' & q' & segs' & Hr & Hsplit & Hsegs).
    exists [], (c :: t), (p' :: segs'). split; [reflexivity|].
    rewrite app_nil_r. split; [rewrite Hsplit; reflexivity|].
    constructor; [|exact Hsegs].
    intros (ws & rest & Hws & Hp').
    apply (match_separator_greedy _ _ e).
    exists ws, (rest ++ q'). split; [exact Hws|].
    rewrite Hr, Hp', <- app_assoc. reflexivity.
  - destruct H as (p' & q' & segs' & Ht & Hsplit & Hsegs).
    exists (c :: p'), q', segs'. split; [rewrite Ht; reflexivity|].
    split; [rewrite Hsplit, <- app_assoc; reflexivity|exact Hsegs].
Qed.

Lemma newline_free_literal t :
  Forall (fun c => c <> 10%N) t -> newline_free t.
Proof.
  unfold newline_free. intros H. eapply Forall_impl; [exact H|].
  intros c Hc. unfold is_newline. apply N.eqb_neq. exact Hc.
Qed.

Lemma weave_head t ts seps : exists rest, weave (t :: ts) seps = t ++ rest.
Proof.
  destruct seps as [|sep seps]; cbn [weave];
    [exists []; rewrite app_nil_r; reflexivity|eauto].
Qed.

(** Pages without line feed that are not blank, put together with
    blank-line boundaries between them, are split into just these
    pages. *)
Lemma split_weave_pages ts : forall seps,
  Forall (Forall (fun c => c <> 10%N)) ts ->
  Forall (fun t => trim t <> []) ts ->
  Forall is_separator seps ->
  length ts = S (length seps) ->
  split_pages (weave ts seps) = ts.
Proof.
  unfold split_pages.
  induction ts as [|t ts IH]; intros seps Hnl Hnb Hseps Hlen;
    [discriminate Hlen|].
  apply Forall_cons in Hnl as [Ht Hnl]. apply Forall_cons in Hnb as [_ Hnb].
  apply newline_free_literal in Ht.
  destruct ts as [|t' ts].
  - destruct seps; [|discriminate Hlen]. cbn [weave].
    rewrite <- (app_nil_r t) at 1.
    rewrite split_from_newline_free by exact Ht. simp split_from.
    reflexivity.
  - destruct seps as [|sep seps]; [discriminate Hlen|].
    apply Forall_cons in Hseps as [(ws & Hws & ->) Hseps].
    cbn [weave].
    rewrite split_from_newline_free by exact Ht.
    destruct (weave_head t' ts seps) as [rest Hrest].
    assert (star_newline (weave (t' :: ts) seps) = None) as Hnone.
    { rewrite Hrest. apply star_newline_nonblank.
      - apply newline_free_literal.
        apply Forall_cons in Hnl as [Ht' _]. exact Ht'.
      - apply Forall_cons in Hnb as [Ht' _]. intros Hb.
        apply Ht', trim_nil_iff, Hb. }
    assert (match_separator
              ((10%N :: ws ++ [10%N]) ++ weave (t' :: ts) seps)
            = Some (weave (t' :: ts) seps)) as Hsep.
    { change ((10%N :: ws ++ [10%N]) ++ weave (t' :: ts) seps)
        with (10%N :: ((ws ++ [10%N]) ++ weave (t' :: ts) seps)).
      rewrite <- app_assoc.
      change ([10%N] ++ weave (t' :: ts) seps)
        with (10%N :: weave (t' :: ts) seps).
      unfold match_separator. change (is_newline 10) with true. cbv iota.
      apply star_newline_last; assumption. }
    change ((10%N :: ws ++ [10%N]) ++ weave (t' :: ts) seps)
      with (10%N :: ((ws ++ [10%N]) ++ weave (t' :: ts) seps)) in Hsep |- *.
    rewrite (split_from_cons_Some _ _ _ _ Hsep). f_equal.
    apply IH; [exact Hnl|exact Hnb|exact Hseps|].
    simpl in Hlen. simpl. lia.
Qed.

Lemma filter_all_true {A} (P : A -> Prop) `{forall x, Decision (P x)}
    (l : list A) :
  Forall P l -> filter P l = l.
Proof.
  induction 1 as [|x l Hx _ IH]; [reflexivity|].
  rewrite filter_cons_True by exact Hx. f_equal. exact IH.
Qed.

Example split_scenario_A :
  split_pages (str "Page1" ++ [10; 10]%N ++ str "Page2")
  = [str "Page1"; str "Page2"].
Proof. vm_compute. reflexivity. Qed.

(** ** Scene ids *)

Lemma str_inj s1 s2 : str s1 = str s2 -> s1 = s2.
Proof.
  unfold str. revert s2.
  induction s1 as [|a s1 IH]; intros [|b s2]; simpl; try discriminate.
  - reflexivity.
  - intros [= Hab Hrest]. f_equal; [|apply IH, Hrest].
    rewrite <- (ascii_N_embedding a), <- (ascii_N_embedding b), Hab.
    reflexivity.
Qed.

Lemma String_of_nat_inj i j : String_of_nat i = String_of_nat j -> i = j.
Proof.
  unfold String_of_nat. intros H. apply str_inj in H.
  exact (pretty_nat_inj _ _ H).
Qed.

Lemma pretty_N_char_digit x : is_digit (pretty_N_char x) = true.
Proof.
  unfold pretty_N_char.
  destruct x as [|p]; [reflexivity|].
  repeat (destruct p as [p|p|]; try reflexivity).
Qed.

Lemma pretty_N_go_digits x s :
  digits_only s = true -> digits_only (pretty_N_go x s) = true.
Proof.
  revert s. induction (N.lt_wf_0 x) as [x _ IH]; intros s Hs.
  destruct (N.eq_dec x 0%N) as [->|Hx]; [exact Hs|].
  rewrite pretty_N_go_step by lia.
  apply IH; [apply N.div_lt; lia|].
  simpl. rewrite pretty_N_char_digit, Hs. reflexivity.
Qed.

Lemma pretty_nat_digits (n : nat) : digits_only (pretty n) = true.
Proof.
  unfold pretty, pretty_nat, pretty, pretty_N.
  destruct (decide (N.of_nat n = 0%N)); [reflexivity|].
  apply pretty_N_go_digits. reflexivity.
Qed.

Lemma String_of_nat_not_cover i : String_of_nat i <> str "cover".
Proof.
  unfold String_of_nat. intros H. apply str_inj in H.
  pose proof (pretty_nat_digits i) as Hd. rewrite H in Hd. discriminate.
Qed.

Lemma String_of_nat_not_end i : String_of_nat i <> str "end".
Proof.
  unfold String_of_nat. intros H. apply str_inj in H.
  pose proof (pretty_nat_digits i) as Hd. rewrite H in Hd. discriminate.
Qed.

(** ** The scene map built at ingestion *)

Lemma add_pages_other pages numbers m k :
  (forall i, i ∈ numbers -> String_of_nat i <> k) ->
  add_pages pages numbers m !! k = m !! k.
Proof.
  revert m. induction numbers as [|x l IH]; intros m Hk; [reflexivity|].
  unfold add_pages in *. simpl. rewrite IH.
  - apply lookup_insert_ne, Hk. left.
  - intros i Hi. apply Hk. right. exact Hi.
Qed.

Lemma add_pages_at pages numbers m i :
  i ∈ numbers ->
  add_pages pages numbers m !! String_of_nat i
  = Some (pending_scene (Some (page_text pages i))).
Proof.
  revert m. induction numbers as [|x l IH]; intros m Hi; [inversion Hi|].
  destruct (decide (i ∈ l)) as [Hl|Hl].
  - unfold add_pages in *. simpl. apply IH, Hl.
  - apply elem_of_cons in Hi as [->|Hi]; [|contradiction].
    change (add_pages pages (x :: l) m)
      with (add_pages pages l
              (<[String_of_nat x := pending_scene (Some (page_text pages x))]> m)).
    rewrite add_pages_other.
    + apply lookup_insert_eq.
    + intros j Hj Heq. apply String_of_nat_inj in Heq. subst j. contradiction.
Qed.

Lemma add_pages_size pages numbers m :
  NoDup numbers ->
  (forall i, i ∈ numbers -> m !! String_of_nat i = None) ->
  size (add_pages pages numbers m) = length numbers + size m.
Proof.
  revert m. induction numbers as [|x l IH]; intros m Hnd Hfresh; [reflexivity|].
  apply NoDup_cons in Hnd as [Hx Hnd].
  change (add_pages pages (x :: l) m)
    with (add_pages pages l
            (<[String_of_nat x := pending_scene (Some (page_text pages x))]> m)).
  rewrite IH; [|exact Hnd|].
  - rewrite map_size_insert_None by (apply Hfresh; left). simpl. lia.
  - intros i Hi. rewrite lookup_insert_ne.
    + apply Hfresh. right. exact Hi.
    + intros Heq. apply String_of_nat_inj in Heq. subst. contradiction.
Qed.

Lemma blank_separator sep : is_separator sep -> blank sep.
Proof.
  intros (ws & Hws & ->). constructor; [reflexivity|].
  apply Forall_app. split; [exact Hws|]. constructor; [reflexivity|constructor].
Qed.

Lemma elem_of_weave c segments seps :
  c ∈ weave segments seps ->
  (exists seg, seg ∈ segments /\ c ∈ seg) \/ (exists sep, sep ∈ seps /\ c ∈ sep).
Proof.
  revert seps. induction segments as [|seg segments IH]; intros seps; simpl.
  - intros H. inversion H.
  - destruct seps as [|sep seps].
    + intros H. left. exists seg. split; [left|exact H].
    + rewrite !elem_of_app. intros [H|[H|H]].
      * left. exists seg. split; [left|exact H].
      * right. exists sep. split; [left|exact H].
      * destruct (IH seps H) as [(s & Hs & Hc)|(s & Hs & Hc)].
        -- left. exists s. split; [right; exact Hs|exact Hc].
        -- right. exists s. split; [right; exact Hs|exact Hc].
Qed.

(** A text that is not blank has a page that is not blank. *)
Lemma pages_of_nonempty text : trim text <> [] -> pages_of text <> [].
Proof.
  intros Htrim.
  destruct (blank_dec text) as [Hb|(c & Hin & Hc)].
  { apply trim_nil_iff in Hb. contradiction. }
  destruct (split_from_weave text []) as (seps & Hseps & _ & Hweave).
  simpl in Hweave. rewrite Hweave in Hin.
  apply elem_of_weave in Hin as [(seg & Hseg & Hcs)|(sep & Hsep & Hcs)].
  - assert (seg ∈ pages_of text) as Hp.
    { unfold pages_of. apply list_elem_of_filter. split; [|exact Hseg].
      intros Hnil. pose proof (trim_keeps seg c Hcs Hc) as Hk.
      rewrite Hnil in Hk. inversion Hk. }
    intros Hnil. rewrite Hnil in Hp. inversion Hp.
  - rewrite Forall_forall in Hseps. apply Hseps, blank_separator in Hsep.
    unfold blank in Hsep. rewrite Forall_forall in Hsep.
    rewrite (Hsep c Hcs) in Hc. discriminate.
Qed.

Lemma totalPages_of_pages text :
  pages_of text <> [] -> totalPages_of text = length (pages_of text).
Proof.
  unfold totalPages_of. destruct (pages_of text); [contradiction|reflexivity].
Qed.

Lemma page_text_in_range pages i seg :
  Forall (fun p => trim p <> []) pages ->
  pages !! (i - 1) = Some seg -> page_text pages i = seg.
Proof.
  intros Hall Hseg. unfold page_text. rewrite Hseg.
  rewrite Forall_forall in Hall.
  assert (trim seg <> []) as Hne.
  { apply Hall. eapply list_elem_of_lookup_2. exact Hseg. }
  destruct seg; [contradiction Hne; reflexivity|reflexivity].
Qed.

Lemma scenes_of_cover text :
  scenes_of text !! str "cover" = Some (pending_scene None).
Proof.
  unfold scenes_of. rewrite add_pages_other.
  - apply lookup_insert_eq.
  - intros i _. apply String_of_nat_not_cover.
Qed.

Lemma scenes_of_end text :
  scenes_of text !! str "end" = Some (pending_scene None).
Proof.
  unfold scenes_of. rewrite add_pages_other.
  - rewrite lookup_insert_ne by (intros H; apply str_inj in H; discriminate).
    apply lookup_insert_eq.
  - intros i _. apply String_of_nat_not_end.
Qed.

Lemma scenes_of_page text i :
  1 <= i <= totalPages_of text ->
  scenes_of text !! String_of_nat i
  = Some (pending_scene (Some (page_text (pages_of text) i))).
Proof.
  intros Hi. unfold scenes_of. apply add_pages_at.
  apply elem_of_seq. lia.
Qed.

Lemma scenes_of_size text : size (scenes_of text) = totalPages_of text + 2.
Proof.
  unfold scenes_of. rewrite add_pages_size.
  - rewrite length_seq.
    rewrite map_size_insert_None.
    + rewrite map_size_insert_None by apply lookup_empty.
      rewrite map_size_empty. lia.
    + rewrite lookup_insert_ne by (intros H; apply str_inj in H; discriminate).
      apply lookup_empty.
  - apply NoDup_seq.
  - intros i _.
    rewrite lookup_insert_ne by (apply not_eq_sym, String_of_nat_not_cover).
    rewrite lookup_insert_ne by (apply not_eq_sym, String_of_nat_not_end).
    apply lookup_empty.
Qed.

Lemma scenes_of_keys text k :
  is_Some (scenes_of text !! k) ->
  k = str "cover" \/ k = str "end"
  \/ exists i, 1 <= i <= totalPages_of text /\ k = String_of_nat i.
Proof.
  intros Hk.
  destruct (decide (k = str "cover")) as [|Hc]; [auto|].
  destruct (decide (k = str "end")) as [|He]; [auto|].
  right. right.
  destruct (decide (Exists (fun i => String_of_nat i = k)
                      (seq 1 (totalPages_of text)))) as [Hex|Hno].
  - apply Exists_exists in Hex as (i & Hi & <-).
    apply elem_of_seq in Hi. exists i. split; [lia|reflexivity].
  - exfalso. unfold scenes_of in Hk. rewrite add_pages_other in Hk.
    + rewrite lookup_insert_ne in Hk by auto.
      rewrite lookup_insert_ne in Hk by auto.
      rewrite lookup_empty in Hk. destruct Hk as [? Hk]. discriminate.
    + intros i Hi Heq. apply Hno, Exists_exists. eauto.
Qed.

(** ** The JSON reader on sample texts *)

Example read_null : Reader.JSON_parse (str "null") = Ok JNull.
Proof. vm_compute. reflexivity. Qed.

Example read_title :
  Reader.JSON_parse (str "{" ++ dquote ++ str "extracted_title" ++ dquote
                     ++ str ": " ++ dquote ++ str "Foo" ++ dquote ++ str "}")
  = Ok (JObj [(str "extracted_title", JStr (str "Foo"))]).
Proof. vm_compute. reflexivity. Qed.

Example read_nested :
  Reader.JSON_parse (str "[1, [true, {}], -2.5e1 ]")
  = Ok (JArr [JNum 1; JArr [JBool true; JObj []]; JNum (Qopp (Qmake 25 1))]).
Proof. vm_compute. reflexivity. Qed.

Example read_garbage :
  Reader.JSON_parse (str "undefined") = Throw (str "Unexpected token in JSON").
Proof. vm_compute. reflexivity. Qed.

(** ** Ingestion *)

(** C4: for a text that is not blank after trimming, the split cuts the
    text at blank-line boundaries and nowhere else: the segments and the
    boundaries between them make up the text, no segment has a boundary
    inside it, and no segment after a boundary begins with a blank line,
    so that several blank lines are one boundary. Pages without line feed
    that are not blank, with boundaries between them, come out as just
    these pages. The pages are the segments that are not blank,
    [totalPages] is their number and at least one (and is one for a text
    that has no page), and the scene map has exactly [totalPages + 2]
    entries: ['cover'] and ['end'] pending without text, and ["1"] to
    ["N"] pending, each with its own segment. The project that the JSX
    build sends on to generation carries this page count and this map. *)
Theorem ingestion_splits_pages (story : jstring) :
  trim story <> [] ->
  (exists seps,
      Forall is_separator seps
      /\ length (split_pages story) = S (length seps)
      /\ story = weave (split_pages story) seps)
  /\ Forall boundary_free (split_pages story)
  /\ Forall (fun seg => ~ starts_blank_line seg) (tail (split_pages story))
  /\ (forall ts seps,
        Forall (Forall (fun c => c <> 10%N)) ts ->
        Forall (fun t => trim t <> []) ts ->
        Forall is_separator seps ->
        length ts = S (length seps) ->
        story = weave ts seps ->
        split_pages story = ts /\ pages_of story = ts)
  /\ pages_of story = filter (fun seg => trim seg <> []) (split_pages story)
  /\ totalPages_of story = length (pages_of story)
  /\ (forall other, pages_of other = [] -> totalPages_of other = 1)
  /\ 1 <= totalPages_of story
  /\ size (scenes_of story) = totalPages_of story + 2
  /\ scenes_of story !! str "cover"
     = Some {| status := pending; text := None; prompt := None;
               videoUrl := None |}
  /\ scenes_of story !! str "end"
     = Some {| status := pending; text := None; prompt := None;
               videoUrl := None |}
  /\ (forall i, 1 <= i <= totalPages_of story ->
        exists seg, pages_of story !! (i - 1) = Some seg
                    /\ scenes_of story !! String_of_nat i
                       = Some {| status := pending; text := Some seg;
                                 prompt := None; videoUrl := None |})
  /\ (forall k, is_Some (scenes_of story !! k) ->
        k = str "cover" \/ k = str "end"
        \/ exists i, 1 <= i <= totalPages_of story /\ k = String_of_nat i)
  /\ (forall p, storyText (Jsx.initialProjectState p story) = story
                /\ totalPages (Jsx.initialProjectState p story)
                   = totalPages_of story
                /\ scenes (Jsx.initialProjectState p story) = scenes_of story).
Proof.
  intros Htrim.
  pose proof (pages_of_nonempty story Htrim) as Hne.
  pose proof (totalPages_of_pages story Hne) as Htotal.
  split; [exact (split_from_weave story [])|].
  split.
  { eapply Forall_impl; [|exact separator_free_boundary_free].
    apply split_from_free. intros k Hk. simpl in Hk. lia. }
  split.
  { unfold split_pages.
    destruct (split_from_heads story []) as (p & q & segs & _ & -> & Hsegs).
    exact Hsegs. }
  split.
  { intros ts seps Hnl Hnb Hseps Hlen ->.
    pose proof (split_weave_pages ts seps Hnl Hnb Hseps Hlen) as Hsplit.
    split; [exact Hsplit|].
    unfold pages_of. rewrite Hsplit. apply filter_all_true, Hnb. }
  split; [reflexivity|].
  split; [exact Htotal|].
  split; [intros other Hnil; unfold totalPages_of; rewrite Hnil; reflexivity|].
  split; [rewrite Htotal; destruct (pages_of story); [contradiction|simpl; lia]|].
  split; [apply scenes_of_size|].
  split; [apply scenes_of_cover|].
  split; [apply scenes_of_end|].
  split; [|split; [apply scenes_of_keys|intros p; repeat split]].
  intros i Hi.
  destruct (lookup_lt_is_Some_2 (pages_of story) (i - 1)) as [seg Hseg]; [lia|].
  exists seg. split; [exact Hseg|].
  rewrite scenes_of_page by exact Hi.
  rewrite (page_text_in_range (pages_of story) i seg); [reflexivity| |exact Hseg].
  unfold pages_of. apply Forall_forall. intros x Hx.
  apply list_elem_of_filter in Hx as [Hx _]. exact Hx.
Qed.

(** Scenario A of the specification: two pages. *)
Lemma ingestion_splits_pages_witness :
  let story := str "Page1" ++ nl ++ nl ++ str "Page2" in
  trim story <> []
  /\ pages_of story = [str "Page1"; str "Page2"]
  /\ totalPages_of story = 2
  /\ size (scenes_of story) = 4
  /\ scenes_of story !! str "1"
     = Some {| status := pending; text := Some (str "Page1");
               prompt := None; videoUrl := None |}
  /\ scenes_of story !! str "2"
     = Some {| status := pending; text := Some (str "Page2");
               prompt := None; videoUrl := None |}.
Proof.
  intros story.
  assert (trim story <> []) as H by (vm_compute; discriminate).
  split; [exact H|].
  destruct (ingestion_splits_pages story H)
    as (_ & _ & _ & Hpages & _ & Hn & _ & _ & Hsize & _ & _ & Hscene & _).
  destruct (Hpages [str "Page1"; str "Page2"] [[10%N; 10%N]]) as [_ Hp].
  { repeat constructor; discriminate. }
  { repeat constructor; vm_compute; discriminate. }
  { constructor; [|constructor]. exists []. split; [constructor|reflexivity]. }
  { reflexivity. }
  { reflexivity. }
  rewrite Hp in Hn, Hscene. cbn [length] in Hn.
  rewrite Hn in Hsize, Hscene.
  split; [exact Hp|]. split; [exact Hn|]. split; [exact Hsize|]. split.
  - destruct (Hscene 1) as (seg & Hseg & Hs); [lia|].
    injection Hseg as <-. exact Hs.
  - destruct (Hscene 2) as (seg & Hseg & Hs); [lia|].
    injection Hseg as <-. exact Hs.
Defined.

Example scenario_A_pages :
  pages_of (str "Page1" ++ nl ++ nl ++ str "Page2") = [str "Page1"; str "Page2"].
Proof. vm_compute. reflexivity. Qed.

(** ** The navigation gate *)

Lemma not_completed_false p sceneId :
  not_completed p sceneId = false <-> scene_completed p sceneId.
Proof.
  unfold not_completed, scene_completed. split.
  - destruct (scenes p !! sceneId) as [s|]; [|discriminate].
    intros H. exists s. split; [reflexivity|].
    apply negb_false_iff, bool_decide_eq_true in H. exact H.
  - intros (s & -> & Hs). apply negb_false_iff, bool_decide_eq_true. exact Hs.
Qed.

(** [findIndex] returns [-1] when nothing passes, and otherwise the index
    of the first element that passes. *)
Lemma findIndex_spec {A} (f : A -> bool) (l : list A) :
  (findIndex f l = (-1)%Z /\ forall j x, l !! j = Some x -> f x = false)
  \/ (exists k, findIndex f l = Z.of_nat k
                /\ (exists x, l !! k = Some x /\ f x = true)
                /\ forall j x, j < k -> l !! j = Some x -> f x = false).
Proof.
  induction l as [|a l IH]; simpl.
  - left. split; [reflexivity|]. intros j x H. destruct j; discriminate.
  - destruct (f a) eqn:Ha.
    + right. exists 0. split; [reflexivity|]. split; [exists a; auto|].
      intros j x Hj. lia.
    + destruct IH as [[Hm Hall]|(k & Hk & (x & Hx & Hfx) & Hbefore)].
      * left. rewrite Hm. split; [reflexivity|].
        intros [|j] y Hy; simpl in Hy; [congruence|eauto].
      * right. exists (S k). rewrite Hk.
        destruct (Z.of_nat k =? -1)%Z eqn:E; [lia|].
        split; [lia|]. split; [exists x; auto|].
        intros [|j] y Hj Hy; simpl in Hy; [congruence|].
        apply (Hbefore j y); [lia|exact Hy].
Qed.

Lemma navItems_ingested p :
  0 < totalPages p ->
  navItems p
  = str "cover" :: map String_of_nat (seq 1 (totalPages p)) ++ [str "end"]
  /\ length (navItems p) = totalPages p + 2.
Proof.
  intros Hn. unfold navItems, navItems_of.
  destruct (0 <? totalPages p) eqn:E; [|apply Nat.ltb_ge in E; lia].
  split.
  - f_equal. f_equal. rewrite <- (fmap_add_seq 1 0). rewrite <- list_fmap_compose.
    apply list_fmap_ext. intros _ x _. simpl. f_equal. lia.
  - simpl. rewrite length_app, length_map, length_seq. simpl. lia.
Qed.

(** C2: the item at index [i] of the sidebar is enabled exactly when every
    scene at a smaller index is completed. With [firstPendingSceneIndex]
    the index of the first scene that is not completed, the enabled items
    are those at indices [0] to [firstPendingSceneIndex], none beyond it is
    enabled, and all are enabled when every scene is completed. *)
Theorem navigation_gate (p : Project) (i : nat) :
  (isDisabled p i = false
   <-> forall j sceneId, j < i -> navItems p !! j = Some sceneId ->
                         scene_completed p sceneId)
  /\ (firstPendingSceneIndex p = (-1)%Z ->
        (forall j sceneId, navItems p !! j = Some sceneId ->
                           scene_completed p sceneId)
        /\ isDisabled p i = false)
  /\ (forall k, firstPendingSceneIndex p = Z.of_nat k ->
        (exists sceneId, navItems p !! k = Some sceneId
                         /\ ~ scene_completed p sceneId)
        /\ (forall j sceneId, j < k -> navItems p !! j = Some sceneId ->
                              scene_completed p sceneId)
        /\ (isDisabled p i = false <-> i <= k))
  /\ (firstPendingSceneIndex p = (-1)%Z
      \/ exists k, firstPendingSceneIndex p = Z.of_nat k
                   /\ k < length (navItems p))
  /\ (0 < totalPages p ->
        navItems p
        = str "cover" :: map String_of_nat (seq 1 (totalPages p))
            ++ [str "end"]).
Proof.
  unfold isDisabled, firstPendingSceneIndex.
  destruct (findIndex_spec (not_completed p) (navItems p))
    as [[Hm Hall]|(k & Hk & (x & Hx & Hfx) & Hbefore)].
  - rewrite Hm. simpl.
    assert (forall j sceneId, navItems p !! j = Some sceneId ->
                              scene_completed p sceneId) as Hdone.
    { intros j sid Hj. apply not_completed_false. eauto. }
    split; [split; [intros _ j sid _; apply Hdone|reflexivity]|].
    split; [intros _; split; [exact Hdone|reflexivity]|].
    split; [intros k Hk; lia|].
    split; [left; reflexivity|intros Hn; apply navItems_ingested, Hn].
  - rewrite Hk.
    assert ((Z.of_nat k =? -1)%Z = false) as -> by lia. simpl.
    assert (~ scene_completed p x) as Hnot.
    { intros Hc. apply not_completed_false in Hc. congruence. }
    assert (forall j sid, j < k -> navItems p !! j = Some sid ->
                          scene_completed p sid) as Hdone.
    { intros j sid Hj Hsid. apply not_completed_false. eauto. }
    assert ((Z.of_nat k <? Z.of_nat i)%Z = false <-> i <= k) as Hle.
    { rewrite Z.ltb_ge. lia. }
    split.
    { rewrite Hle. split.
      - intros Hik j sid Hj. apply Hdone. lia.
      - intros Hprev. destruct (Nat.le_gt_cases i k) as [|Hgt]; [assumption|].
        exfalso. apply Hnot. exact (Hprev k x Hgt Hx). }
    split; [intros Hneg; lia|].
    split.
    { intros k' Hk'. assert (k' = k) as -> by lia.
      split; [exists x; auto|]. split; [exact Hdone|exact Hle]. }
    split; [|intros Hn; apply navItems_ingested, Hn].
    right. exists k. split; [reflexivity|].
    apply lookup_lt_is_Some. eauto.
Qed.

Example gate_after_cover :
  let p := {| id := str "proj_1"; name := JStr (str "n");
              author := JStr (str "a"); storyText := str "A";
              totalPages := 2;
              scenes := <[str "cover" :=
                            {| status := completed; text := None;
                               prompt := Some (JObj []);
                               videoUrl := Some (str "v") |}]>
                          (scenes_of (str "A" ++ nl ++ nl ++ str "B"));
              createdAt := str "t" |} in
  navItems p = [str "cover"; str "1"; str "2"; str "end"]
  /\ firstPendingSceneIndex p = 1%Z
  /\ map (isDisabled p) [0; 1; 2; 3] = [false; false; true; true].
Proof. vm_compute. repeat split; reflexivity. Qed.

(** ** Running events *)

Lemma updates_app es1 es2 : updates (es1 ++ es2) = updates es1 ++ updates es2.
Proof. apply omap_app. Qed.

Lemma fetches_app es1 es2 : fetches (es1 ++ es2) = fetches es1 ++ fetches es2.
Proof. apply omap_app. Qed.

Lemma errors_app es1 es2 : errors (es1 ++ es2) = errors es1 ++ errors es2.
Proof. apply omap_app. Qed.

Lemma run_app es1 es2 st : run (es1 ++ es2) st = run es2 (run es1 st).
Proof. apply foldl_app. Qed.

(** Only the updates among the events change the project store. *)
Lemma projects_run es st : projects (run es st) = commit es (projects st).
Proof.
  revert st. induction es as [|e es IH]; intros st; [reflexivity|].
  change (run (e :: es) st) with (run es (apply_event st e)).
  rewrite IH. destruct e; reflexivity.
Qed.

Lemma projects_run_no_update es st :
  updates es = [] -> projects (run es st) = projects st.
Proof. intros H. rewrite projects_run. unfold commit. rewrite H. reflexivity. Qed.

(** The requests on record grow by the requests among the events. *)
Lemma requests_run es st : requests (run es st) = requests st ++ fetches es.
Proof.
  revert st. induction es as [|e es IH]; intros st.
  - simpl. rewrite app_nil_r. reflexivity.
  - change (run (e :: es) st) with (run es (apply_event st e)).
    rewrite IH. destruct e; simpl; try reflexivity.
    rewrite <- app_assoc. reflexivity.
Qed.

(** The error shown is the last one set, if any was. *)
Lemma error_run es st :
  error (run es st) = default (error st) (last (errors es)).
Proof.
  revert st. induction es as [|e es IH]; intros st; [reflexivity|].
  change (run (e :: es) st) with (run es (apply_event st e)).
  rewrite IH. destruct e; try reflexivity.
  change (errors (SetError message :: es)) with (message :: errors es).
  rewrite last_cons. simpl. destruct (last (errors es)); reflexivity.
Qed.

(** ** The generation client *)

Ltac unfold_M :=
  unfold mbind, M_bind, mret, M_ret, call, await, throw in *.

Section Client.

Variable JSON_parse : jstring -> result json.
Variable TypeError_message : option json -> jstring -> jstring.
Variable fetch : Service.

Local Abbreviation client :=
  (generateScene JSON_parse TypeError_message fetch).
Local Abbreviation request_of project sceneId imageBase64 feedback :=
  (payload_of (buildApiPromptText project sceneId feedback) imageBase64).

(** The client makes one request and nothing else. *)
Lemma generateScene_events project sceneId imageBase64 feedback :
  fst (client project sceneId imageBase64 feedback)
  = [Fetch apiUrl (request_of project sceneId imageBase64 feedback)].
Proof.
  unfold generateScene. unfold_M.
  destruct (fetch _ _) as [response|m]; [|reflexivity].
  destruct (ok response); simpl; [|reflexivity].
  destruct (body_json response) as [body|m]; [|reflexivity].
  destruct (candidates body) as [[|c rest]|]; try reflexivity.
  destruct (first_text TypeError_message c) as [t|m]; [|reflexivity].
  destruct (parse_text JSON_parse t); reflexivity.
Qed.

(** What the client returns, by the answer of the service. *)
Lemma generateScene_result project sceneId imageBase64 feedback :
  snd (client project sceneId imageBase64 feedback)
  = match fetch apiUrl (request_of project sceneId imageBase64 feedback) with
    | Throw m => Throw m
    | Ok response =>
        if ok response then
          match body_json response with
          | Throw m => Throw m
          | Ok body =>
              match candidates body with
              | Some (c :: _) =>
                  match first_text TypeError_message c with
                  | Throw m => Throw m
                  | Ok jsonText => parse_text JSON_parse jsonText
                  end
              | _ => Throw (str "The model returned an empty or invalid response.")
              end
          end
        else Throw (str "API Error: "
                    ++ String_of_nat (N.to_nat (http_status response))
                    ++ str " " ++ statusText response
                    ++ str " - " ++ body_text response)
    end.
Proof.
  unfold generateScene. unfold_M.
  destruct (fetch _ _) as [response|m]; [|reflexivity].
  destruct (ok response); simpl; [|reflexivity].
  destruct (body_json response) as [body|m]; [|reflexivity].
  destruct (candidates body) as [[|c rest]|]; try reflexivity.
  destruct (first_text TypeError_message c) as [t|m]; [|reflexivity].
  destruct (parse_text JSON_parse t); reflexivity.
Qed.


End Client.

(** ** The orchestrator: [handleGenerate] *)

Section Orchestrator.

Variable JSON_parse : jstring -> result json.
Variable TypeError_message : option json -> jstring -> jstring.
Variable fetch : Service.

Local Abbreviation client :=
  (generateScene JSON_parse TypeError_message fetch).
Local Abbreviation generate :=
  (Jsx.generate JSON_parse TypeError_message fetch).
Local Abbreviation handleGenerate :=
  (Jsx.handleGenerate JSON_parse TypeError_message fetch).
Local Abbreviation clickGenerate :=
  (Jsx.clickGenerate JSON_parse TypeError_message fetch).
Local Abbreviation projectUpdates_of :=
  (Jsx.projectUpdates_of TypeError_message).
Local Abbreviation request_of project sceneId imageBase64 feedback :=
  (payload_of (buildApiPromptText project sceneId feedback) imageBase64).

(** The scene record that a completion writes. *)
Local Abbreviation completed_scene project sceneId newPrompt :=
  {| status := completed;
     text := scenes project !! sceneId ≫= text;
     prompt := Some newPrompt;
     videoUrl := Some sampleVideo |}.

(** The [try] block, by how far it gets. *)
Lemma generate_unfold project sceneId imageBase64 feedback :
  generate project sceneId imageBase64 feedback
  = let request := Fetch apiUrl (request_of project sceneId imageBase64 feedback) in
    match snd (client project sceneId imageBase64 feedback) with
    | Throw m => ([request], Throw m)
    | Ok newPrompt =>
        match projectUpdates_of project sceneId newPrompt sampleVideo with
        | Throw m =>
            ([request; SetLoadingMessage (str "Generating video...")], Throw m)
        | Ok d =>
            ([request; SetLoadingMessage (str "Generating video...");
              UpdateProject (id project) d], Ok tt)
        end
    end.
Proof.
  unfold Jsx.generate.
  pose proof (generateScene_events JSON_parse TypeError_message fetch
                project sceneId imageBase64 feedback) as Hev.
  destruct (client project sceneId imageBase64 feedback) as [es r].
  simpl in Hev. subst es. unfold generateVideoFromPrompt. unfold_M. simpl.
  destruct r as [newPrompt|m]; [|reflexivity].
  destruct (projectUpdates_of project sceneId newPrompt sampleVideo);
    reflexivity.
Qed.

(** What an update sent by [handleGenerate] carries. *)
Lemma projectUpdates_of_shape project sceneId newPrompt d :
  projectUpdates_of project sceneId newPrompt sampleVideo = Ok d ->
  set_scenes d
  = Some (<[sceneId := completed_scene project sceneId newPrompt]>
            (scenes project))
  /\ set_id d = None /\ set_storyText d = None /\ set_totalPages d = None
  /\ set_createdAt d = None
  /\ (sceneId = str "cover" -> newPrompt <> JNull).
Proof.
  unfold Jsx.projectUpdates_of. case_bool_decide as Hc.
  - destruct (get_member TypeError_message newPrompt (str "extracted_title"))
      as [[title|]|m] eqn:Et; [| |discriminate].
    + destruct (truthy (Some title)).
      * destruct (get_member TypeError_message newPrompt
                    (str "extracted_author")) as [ea|m]; [|discriminate].
        intros [= <-]. simpl. repeat split.
        intros _ ->. discriminate.
      * intros [= <-]. simpl. repeat split. intros _ ->. discriminate.
    + intros [= <-]. simpl. repeat split. intros _ ->. discriminate.
  - intros [= <-]. simpl. repeat split. intros Hcover. contradiction.
Qed.

(** The events of [handleGenerate] when the guard lets it run. *)
Lemma handleGenerate_unfold project sceneId isRegenerating imageBase64
    feedback :
  Jsx.missing_illustration sceneId imageBase64 isRegenerating = false ->
  handleGenerate project sceneId isRegenerating imageBase64 feedback
  = [SetIsLoading true; SetLoadingMessage (str "Generating JSON prompt...");
     SetError []]
    ++ match generate project sceneId imageBase64 feedback with
       | (es, Ok _) => es ++ [SetIsLoading false]
       | (es, Throw m) =>
           es ++ [SetError (str "Operation failed: " ++ m ++ str ".");
                  SetIsLoading false]
       end.
Proof.
  intros Hguard. unfold Jsx.handleGenerate. rewrite Hguard.
  unfold try_catch_finally.
  destruct (generate project sceneId imageBase64 feedback) as [es [[]|m]];
    reflexivity.
Qed.

(** C3: when the generation chain of [handleGenerate] throws, whatever
    the step, no update is sent, the project store is exactly as before
    and the error is shown with the message of the exception. An
    exception of the client, such as the one for a response that is not
    a success, is an exception of the chain. When the chain succeeds,
    exactly one update is sent, which writes the status, the prompt and
    the video reference of the scene at once. *)
Theorem failed_generation_keeps_project (project : Project)
    (sceneId : jstring) (isRegenerating : bool)
    (imageBase64 feedback : jstring) (st : State) :
  Jsx.missing_illustration sceneId imageBase64 isRegenerating = false ->
  let es := handleGenerate project sceneId isRegenerating imageBase64 feedback in
  let attempt := generate project sceneId imageBase64 feedback in
  (forall m, snd attempt = Throw m ->
     updates es = []
     /\ projects (run es st) = projects st
     /\ error (run es st) = str "Operation failed: " ++ m ++ str ".")
  /\ (forall m, snd (client project sceneId imageBase64 feedback) = Throw m ->
        snd attempt = Throw m)
  /\ (forall response,
        fetch apiUrl (request_of project sceneId imageBase64 feedback)
        = Ok response ->
        ok response = false ->
        snd attempt
        = Throw (str "API Error: "
                 ++ String_of_nat (N.to_nat (http_status response))
                 ++ str " " ++ statusText response
                 ++ str " - " ++ body_text response))
  /\ (snd attempt = Ok tt ->
        exists newPrompt d,
          snd (client project sceneId imageBase64 feedback) = Ok newPrompt
          /\ updates es = [(id project, d)]
          /\ set_scenes d
             = Some (<[sceneId := completed_scene project sceneId newPrompt]>
                       (scenes project))
          /\ projects (run es st)
             = updateProject (id project) d (projects st)
          /\ error (run es st) = [])
  /\ (snd attempt = Ok tt \/ exists m, snd attempt = Throw m).
Proof.
  intros Hguard es attempt. subst es attempt.
  rewrite (handleGenerate_unfold _ _ _ _ _ Hguard).
  pose proof (generate_unfold project sceneId imageBase64 feedback) as Hg.
  cbv zeta in Hg.
  pose proof (generateScene_result JSON_parse TypeError_message fetch
                project sceneId imageBase64 feedback) as Hres.
  destruct (snd (client project sceneId imageBase64 feedback))
    as [newPrompt|m0] eqn:Hc.
  - destruct (projectUpdates_of project sceneId newPrompt sampleVideo)
      as [d|m0] eqn:Hd; rewrite Hg; simpl.
    + split; [intros m Hm; discriminate|].
      split; [intros m Hm; discriminate|].
      split; [intros response Hf Hok; rewrite Hf, Hok in Hres; discriminate|].
      split; [|left; reflexivity].
      intros _. exists newPrompt, d.
      destruct (projectUpdates_of_shape _ _ _ _ Hd) as (Hs & _).
      repeat split; try reflexivity. exact Hs.
    + split; [intros m [= <-]; repeat split; reflexivity|].
      split; [intros m Hm; discriminate|].
      split; [intros response Hf Hok; rewrite Hf, Hok in Hres; discriminate|].
      split; [intros Hm; discriminate|right; eauto].
  - rewrite Hg. simpl.
    split; [intros m [= <-]; repeat split; reflexivity|].
    split; [intros m [= <-]; reflexivity|].
    split; [intros response Hf Hok; rewrite Hf, Hok in Hres;
            injection Hres as ->; reflexivity|].
    split; [intros Hm; discriminate|right; eauto].
Qed.

Lemma not_missing_when_regenerating sceneId imageBase64 :
  Jsx.missing_illustration sceneId imageBase64 true = false.
Proof. unfold Jsx.missing_illustration. apply andb_false_r. Qed.

(** Whatever happens, [handleGenerate] never shows the message of the
    guard once the guard has let it run. *)
Lemma handleGenerate_not_rejected project sceneId isRegenerating
    imageBase64 feedback :
  Jsx.missing_illustration sceneId imageBase64 isRegenerating = false ->
  let es := handleGenerate project sceneId isRegenerating imageBase64 feedback in
  fetches es = [request_of project sceneId imageBase64 feedback]
  /\ ~ In (str "Please upload an illustration for this page.") (errors es).
Proof.
  intros Hguard es. subst es.
  rewrite (handleGenerate_unfold _ _ _ _ _ Hguard).
  rewrite generate_unfold. cbv zeta.
  assert (forall m, str "Please upload an illustration for this page."
                    <> str "Operation failed: " ++ m ++ str ".") as Hne.
  { intros m H. discriminate H. }
  destruct (snd (client project sceneId imageBase64 feedback))
    as [newPrompt|m0].
  - destruct (projectUpdates_of project sceneId newPrompt sampleVideo)
      as [d|m0]; simpl; (split; [reflexivity|]).
    + intros [H|[]]. discriminate H.
    + intros [H|[H|[]]]; [discriminate H|]. symmetry in H. exact (Hne _ H).
  - simpl. split; [reflexivity|].
    intros [H|[H|[]]]; [discriminate H|]. symmetry in H. exact (Hne _ H).
Qed.

(** C5: on an ingested project, a click on "Generate Scene" for a scene
    other than ['end'] that is not completed, with no illustration
    chosen, is turned down before any request: the only thing it does is
    to show the message that asks for an illustration, and the store,
    the scene with it, is as it was. The same click on a completed scene,
    which regenerates it, is not turned down: it sends its request
    without an image and never shows that message. *)
Theorem first_generation_needs_illustration (project : Project)
    (sceneId feedback : jstring) (st : State) :
  storyText project <> [] ->
  sceneId <> str "end" ->
  (~ scene_completed project sceneId ->
     let es := [SetError (str "Please upload an illustration for this page.")] in
     clickGenerate project sceneId [] feedback = Some es
     /\ fetches es = [] /\ updates es = []
     /\ projects (run es st) = projects st
     /\ requests (run es st) = requests st
     /\ error (run es st) = str "Please upload an illustration for this page.")
  /\ (scene_completed project sceneId ->
        exists es,
          clickGenerate project sceneId [] feedback = Some es
          /\ es = handleGenerate project sceneId true [] feedback
          /\ fetches es = [request_of project sceneId [] feedback]
          /\ ~ In (str "Please upload an illustration for this page.")
                  (errors es)).
Proof.
  intros Hstory Hend.
  assert (truthy_string (storyText project) = true) as Hts.
  { destruct (storyText project); [contradiction|reflexivity]. }
  unfold Jsx.clickGenerate, SceneGenerator. rewrite Hts. simpl negb. cbv iota.
  split.
  - intros Hnot.
    assert (match scenes project !! sceneId with
            | Some s => if bool_decide (status s = completed)
                        then CompletedSceneViewer else SceneGeneratorUI
            | None => SceneGeneratorUI
            end = SceneGeneratorUI) as ->.
    { destruct (scenes project !! sceneId) as [s|] eqn:Hs; [|reflexivity].
      case_bool_decide as Hc; [|reflexivity].
      exfalso. apply Hnot. exists s. auto. }
    unfold Jsx.handleGenerate, Jsx.missing_illustration.
    rewrite bool_decide_eq_false_2 by exact Hend. simpl.
    repeat split; reflexivity.
  - intros (s & Hs & Hc). rewrite Hs.
    rewrite bool_decide_eq_true_2 by exact Hc.
    eexists. split; [reflexivity|]. split; [reflexivity|].
    apply handleGenerate_not_rejected, not_missing_when_regenerating.
Qed.

(** What [handleGenerate] writes for the cover. A reply that is not
    [null] completes the scene in one update, whether or not it carries a
    title. With a title, the name becomes that title and the author
    becomes the extracted author, or ['Unknown Author'] when the reply
    has none; without a title, name and author stay as they were, even
    when the reply carries an author. A reply that is [null] has no
    properties to read: the attempt fails and nothing is updated. *)
Lemma handleGenerate_cover_update (project : Project) (isRegenerating : bool)
    (imageBase64 feedback : jstring) (newPrompt : json) (st : State) :
  Jsx.missing_illustration (str "cover") imageBase64 isRegenerating = false ->
  snd (client project (str "cover") imageBase64 feedback) = Ok newPrompt ->
  let es := handleGenerate project (str "cover") isRegenerating
              imageBase64 feedback in
  (newPrompt = JNull ->
     updates es = []
     /\ error (run es st)
        = str "Operation failed: "
          ++ TypeError_message (Some JNull) (str "extracted_title")
          ++ str ".")
  /\ (newPrompt <> JNull ->
        exists extracted_title extracted_author d,
          get_member TypeError_message newPrompt (str "extracted_title")
          = Ok extracted_title
          /\ get_member TypeError_message newPrompt (str "extracted_author")
             = Ok extracted_author
          /\ updates es = [(id project, d)]
          /\ error (run es st) = []
          /\ scenes (spread project d)
             = <[str "cover" := completed_scene project (str "cover") newPrompt]>
                 (scenes project)
          /\ name (spread project d) = or_value extracted_title (name project)
          /\ author (spread project d)
             = if truthy extracted_title
               then or_value extracted_author (JStr (str "Unknown Author"))
               else author project).
Proof.
  intros Hguard Hclient es. subst es.
  rewrite (handleGenerate_unfold _ _ _ _ _ Hguard).
  rewrite generate_unfold, Hclient. cbv zeta.
  unfold Jsx.projectUpdates_of.
  rewrite bool_decide_eq_true_2 by reflexivity.
  split.
  - intros ->. simpl. split; reflexivity.
  - intros Hnn.
    assert (exists et ea,
               get_member TypeError_message newPrompt (str "extracted_title")
               = Ok et
               /\ get_member TypeError_message newPrompt
                    (str "extracted_author") = Ok ea) as (et & ea & Het & Hea).
    { destruct newPrompt; try contradiction; simpl; eauto. }
    rewrite Het, Hea.
    destruct et as [title|].
    + destruct (truthy (Some title)) eqn:Ht.
      * eexists (Some title), ea, _. split; [reflexivity|].
        split; [reflexivity|]. split; [reflexivity|].
        split; [reflexivity|]. split; [reflexivity|].
        change (or_value (Some title) (name project))
          with (if truthy (Some title) then title else name project).
        rewrite Ht. split; reflexivity.
      * eexists (Some title), ea, _. split; [reflexivity|].
        split; [reflexivity|]. split; [reflexivity|].
        split; [reflexivity|]. split; [reflexivity|].
        change (or_value (Some title) (name project))
          with (if truthy (Some title) then title else name project).
        rewrite Ht. split; reflexivity.
    + eexists None, ea, _. repeat split; reflexivity.
Qed.

Lemma generateScene_same_prompt project project' sceneId imageBase64
    feedback :
  buildApiPromptText project' sceneId feedback
  = buildApiPromptText project sceneId feedback ->
  client project' sceneId imageBase64 feedback
  = client project sceneId imageBase64 feedback.
Proof. intros H. unfold generateScene. rewrite H. reflexivity. Qed.

Lemma buildApiPromptText_depends project other sceneId feedback :
  storyText other = storyText project ->
  scenes other !! sceneId ≫= text = scenes project !! sceneId ≫= text ->
  buildApiPromptText other sceneId feedback
  = buildApiPromptText project sceneId feedback.
Proof.
  intros Hs Ht. unfold buildApiPromptText, sceneText_of. rewrite Hs.
  assert (match scenes other !! sceneId with
          | Some s => match text s with Some t => or_string t [] | None => [] end
          | None => []
          end
          = match scenes project !! sceneId with
            | Some s => match text s with Some t => or_string t [] | None => [] end
            | None => []
            end) as ->; [|reflexivity].
  destruct (scenes other !! sceneId) as [s1|];
    destruct (scenes project !! sceneId) as [s2|]; simpl in Ht.
  - rewrite Ht. reflexivity.
  - rewrite Ht. reflexivity.
  - rewrite <- Ht. reflexivity.
  - reflexivity.
Qed.

(** C9: the instruction string is a function of the story text, the
    text of the target scene, the scene id and the feedback, and of
    nothing else in the project. The update that a generation sends
    leaves these as they were, so a second generation on the project as
    the first one left it, with the same image and feedback, builds the
    same instruction, sends the same request and, the service being a
    function of the request, returns the same structured prompt. *)
Theorem prompt_builder_deterministic (project : Project)
    (sceneId : jstring) (isRegenerating : bool)
    (imageBase64 feedback : jstring) :
  (forall other,
      storyText other = storyText project ->
      scenes other !! sceneId ≫= text = scenes project !! sceneId ≫= text ->
      buildApiPromptText other sceneId feedback
      = buildApiPromptText project sceneId feedback)
  /\ (forall project',
        project' ∈ commit (handleGenerate project sceneId isRegenerating
                             imageBase64 feedback) [project] ->
        buildApiPromptText project' sceneId feedback
        = buildApiPromptText project sceneId feedback
        /\ client project' sceneId imageBase64 feedback
           = client project sceneId imageBase64 feedback).
Proof.
  split; [intros other; apply buildApiPromptText_depends|].
  intros project' Hin.
  assert (buildApiPromptText project' sceneId feedback
          = buildApiPromptText project sceneId feedback) as Hsame.
  { destruct (Jsx.missing_illustration sceneId imageBase64 isRegenerating)
      eqn:Hguard.
    - unfold Jsx.handleGenerate in Hin. rewrite Hguard in Hin.
      apply list_elem_of_singleton in Hin as ->. reflexivity.
    - rewrite (handleGenerate_unfold _ _ _ _ _ Hguard) in Hin.
      rewrite generate_unfold in Hin. cbv zeta in Hin.
      destruct (snd (client project sceneId imageBase64 feedback))
        as [newPrompt|m0].
      + destruct (projectUpdates_of project sceneId newPrompt sampleVideo)
          as [d|m0] eqn:Hd.
        * destruct (projectUpdates_of_shape _ _ _ _ Hd)
            as (Hsc & _ & Hst & _).
          unfold commit in Hin. simpl in Hin.
          rewrite decide_True in Hin by reflexivity.
          apply list_elem_of_singleton in Hin as ->.
          apply buildApiPromptText_depends.
          -- unfold spread. simpl. rewrite Hst. reflexivity.
          -- unfold spread. simpl. rewrite Hsc. simpl.
             rewrite lookup_insert_eq. reflexivity.
        * apply list_elem_of_singleton in Hin as ->. reflexivity.
      + apply list_elem_of_singleton in Hin as ->. reflexivity. }
  split; [exact Hsame|apply generateScene_same_prompt, Hsame].
Qed.

End Orchestrator.

(** ** The sample runs *)

Example store0_untitled : Samples.store0 = [Samples.untitled].
Proof. vm_compute. reflexivity. Qed.

Example store1_book : Samples.store1 = [Samples.book].
Proof. vm_compute. reflexivity. Qed.

Example reply_body_agrees :
  Reader.JSON_parse (body_text (Samples.reply_with Samples.title_only))
  = Ok (JObj [(str "candidates",
               JArr [JObj [(str "content",
                            JObj [(str "parts",
                                   JArr [JObj [(str "text",
                                                JStr Samples.title_only)]])])]])]).
Proof. vm_compute. reflexivity. Qed.

(** ** The orchestrator: [handleFileChange] *)

Lemma scenes_of_pending text k s :
  scenes_of text !! k = Some s ->
  status s = pending /\ prompt s = None /\ videoUrl s = None.
Proof.
  intros Hs.
  destruct (scenes_of_keys text k (ex_intro _ s Hs))
    as [->|[->|(i & Hi & ->)]].
  - rewrite scenes_of_cover in Hs. injection Hs as <-. auto.
  - rewrite scenes_of_end in Hs. injection Hs as <-. auto.
  - rewrite scenes_of_page in Hs by exact Hi. injection Hs as <-. auto.
Qed.

Section Ingestion.

Variable JSON_parse : jstring -> result json.
Variable TypeError_message : option json -> jstring -> jstring.
Variable fetch : Service.

Local Abbreviation client :=
  (generateScene JSON_parse TypeError_message fetch).
Local Abbreviation ingest :=
  (Jsx.ingest JSON_parse TypeError_message fetch).
Local Abbreviation handleFileChange :=
  (Jsx.handleFileChange JSON_parse TypeError_message fetch).

(** The scene record that the upload writes for the cover. *)
Local Abbreviation cover_scene newPrompt :=
  {| status := completed; text := None; prompt := Some newPrompt;
     videoUrl := Some sampleVideo |}.

(** The [try] block of the upload once the layout was read. *)
Lemma ingest_unfold project file pdf :
  endsWith (file_name file) (str ".pdf") = true ->
  file_pdf file = Ok pdf ->
  truthy_string (trim (fullText_of pdf)) = true ->
  let storyText := fullText_of pdf in
  let initial := Jsx.initialProjectState project storyText in
  let before :=
    [SetLoadingMessage (str "Parsing document text...");
     SetLoadingMessage (str "Extracting cover image...");
     SetLoadingMessage (str "Generating opening scene...");
     Fetch apiUrl (payload_of (buildApiPromptText initial (str "cover") [])
                     (coverImage pdf))] in
  ingest true project file
  = match snd (client initial (str "cover") (coverImage pdf) []) with
    | Throw m => (before, Throw m)
    | Ok newPrompt =>
        match get_member TypeError_message newPrompt (str "extracted_title"),
              get_member TypeError_message newPrompt (str "extracted_author")
        with
        | Ok extracted_title, Ok extracted_author =>
            (before
             ++ [UpdateProject (id project)
                   (Jsx.finalProjectState project storyText newPrompt
                      extracted_title extracted_author);
                 SetCurrentSceneId (str "cover")], Ok tt)
        | Throw m, _ => (before, Throw m)
        | Ok _, Throw m => (before, Throw m)
        end
    end.
Proof.
  intros Hpdf Hfile Htrim storyText initial before.
  subst before initial storyText.
  unfold Jsx.ingest, Jsx.read_layout. rewrite Hpdf, Hfile. simpl negb.
  cbv iota.
  pose proof (generateScene_events JSON_parse TypeError_message fetch
                (Jsx.initialProjectState project (fullText_of pdf))
                (str "cover") (coverImage pdf) []) as Hev.
  destruct (client (Jsx.initialProjectState project (fullText_of pdf))
              (str "cover") (coverImage pdf) []) as [es r] eqn:Hc.
  simpl in Hev. subst es.
  unfold generateVideoFromPrompt. unfold_M. simpl.
  rewrite Htrim. simpl. rewrite Hc.
  destruct r as [newPrompt|m]; [|reflexivity]. simpl.
  destruct (get_member TypeError_message newPrompt (str "extracted_title"))
    as [et|m]; [|reflexivity].
  destruct (get_member TypeError_message newPrompt (str "extracted_author"))
    as [ea|m]; reflexivity.
Qed.

End Ingestion.

Lemma truthy_string_ne s : s <> [] -> truthy_string s = true.
Proof. destruct s; [contradiction|reflexivity]. Qed.

(** ** The two ways to the cover *)

(** C7: the author that a cover generation falls back on. The cover is
    generated by [handleGenerate] and by the upload. For a reply that
    carries a truthy title and no truthy author, both complete the cover
    and set the name to the title; [handleGenerate] then sets the author
    to the constant ['Unknown Author'], whatever author the project had,
    where the upload keeps the author of the project. So a project whose
    author is not ['Unknown Author'] loses its author when its cover is
    generated again with such a reply. *)
Theorem cover_author_fallbacks_differ (JSON_parse : jstring -> result json)
    (TypeError_message : option json -> jstring -> jstring)
    (fetch : Service) (members : list (jstring * json)) (title : json)
    (project : Project) (isRegenerating : bool)
    (imageBase64 feedback : jstring)
    (uploaded : Project) (file : File) (pdf : PdfDocument) :
  assoc (str "extracted_title") members = Some title ->
  truthy (Some title) = true ->
  truthy (assoc (str "extracted_author") members) = false ->
  (Jsx.missing_illustration (str "cover") imageBase64 isRegenerating = false ->
   snd (generateScene JSON_parse TypeError_message fetch project (str "cover")
          imageBase64 feedback) = Ok (JObj members) ->
   exists p',
     commit (Jsx.handleGenerate JSON_parse TypeError_message fetch project
               (str "cover") isRegenerating imageBase64 feedback) [project]
     = [p']
     /\ scene_completed p' (str "cover")
     /\ name p' = title
     /\ author p' = JStr (str "Unknown Author")
     /\ (author project <> JStr (str "Unknown Author") ->
           author p' <> author project))
  /\ (endsWith (file_name file) (str ".pdf") = true ->
      file_pdf file = Ok pdf ->
      trim (fullText_of pdf) <> [] ->
      snd (generateScene JSON_parse TypeError_message fetch
             (Jsx.initialProjectState uploaded (fullText_of pdf))
             (str "cover") (coverImage pdf) []) = Ok (JObj members) ->
      exists p',
        commit (Jsx.handleFileChange JSON_parse TypeError_message fetch true
                  uploaded (Some file)) [uploaded] = [p']
        /\ scene_completed p' (str "cover")
        /\ name p' = title
        /\ author p' = author uploaded).
Proof.
  intros Htitle Htruthy Hauthor.
  assert (or_value (assoc (str "extracted_author") members)
            (JStr (str "Unknown Author")) = JStr (str "Unknown Author"))
    as Hconstant.
  { unfold or_value. rewrite Hauthor.
    destruct (assoc (str "extracted_author") members); reflexivity. }
  assert (or_value (assoc (str "extracted_author") members) (author uploaded)
          = author uploaded) as Hkept.
  { unfold or_value. rewrite Hauthor.
    destruct (assoc (str "extracted_author") members); reflexivity. }
  split.
  - intros Hguard Hreply.
    rewrite (handleGenerate_unfold JSON_parse TypeError_message fetch project
               (str "cover") isRegenerating imageBase64 feedback Hguard).
    rewrite generate_unfold, Hreply. cbv zeta.
    unfold Jsx.projectUpdates_of.
    rewrite bool_decide_eq_true_2 by reflexivity.
    unfold get_member. rewrite Htitle, Htruthy, Hconstant.
    eexists. split.
    { unfold commit. cbn [updates omap app]. simpl.
      rewrite decide_True by reflexivity. reflexivity. }
    split; [eexists; split; [apply lookup_insert_eq|reflexivity]|].
    split; [reflexivity|]. split; [reflexivity|].
    intros Hne Heq. apply Hne. symmetry. exact Heq.
  - intros Hpdf Hfile Hne Hreply.
    pose proof (truthy_string_ne _ Hne) as Htrim.
    unfold Jsx.handleFileChange, try_catch_finally.
    rewrite (ingest_unfold JSON_parse TypeError_message fetch uploaded file
               pdf Hpdf Hfile Htrim). cbv zeta. rewrite Hreply.
    unfold get_member. rewrite Htitle.
    exists (spread uploaded
              (Jsx.finalProjectState uploaded (fullText_of pdf)
                 (JObj members) (Some title)
                 (assoc (str "extracted_author") members))).
    split.
    { unfold commit. rewrite !updates_app. simpl.
      rewrite decide_True by reflexivity. reflexivity. }
    split; [eexists; split; [apply lookup_insert_eq|reflexivity]|].
    split.
    + change (or_value (Some title) (name uploaded) = title).
      unfold or_value. rewrite Htruthy. reflexivity.
    + exact Hkept.
Qed.

(** C6: what an upload commits. In the plain build a text file that is
    not blank is committed at once, in one update: story text, page count,
    all scenes pending, and the fixed name and author; no request is
    sent. In the JSX build a layout that was read and is not blank is not
    committed on its own: the handler first sends the request for the
    cover, built from the project as ingested, and sends its one update
    only when that generation succeeds; the update then carries the story
    text, the page count, the numbered scenes and ['end'] pending, the
    cover completed, and as name and author the extracted ones or else
    those the project had. When the generation fails nothing is updated
    and the error is shown. *)
Theorem ingestion_commit :
  (forall project file,
      endsWith (file_name file) (str ".pdf") = false ->
      endsWith (file_name file) (str ".txt") = true ->
      trim (file_text file) <> [] ->
      let storyText := file_text file in
      let es := Plain.handleFileChange project (Some file) in
      updates es
      = [(id project,
          {| set_id := None;
             set_name := Some (JStr (str "My Animation Project"));
             set_author := Some (JStr (str "Author Name"));
             set_storyText := Some storyText;
             set_totalPages := Some (totalPages_of storyText);
             set_scenes := Some (scenes_of storyText);
             set_createdAt := None |})]
      /\ fetches es = []
      /\ errors es = [[]]
      /\ (forall k s, scenes_of storyText !! k = Some s -> status s = pending))
  /\ (forall JSON_parse TypeError_message fetch project file pdf,
        endsWith (file_name file) (str ".pdf") = true ->
        file_pdf file = Ok pdf ->
        trim (fullText_of pdf) <> [] ->
        let storyText := fullText_of pdf in
        let initial := Jsx.initialProjectState project storyText in
        let es := Jsx.handleFileChange JSON_parse TypeError_message fetch true
                    project (Some file) in
        let reply := snd (generateScene JSON_parse TypeError_message fetch
                            initial (str "cover") (coverImage pdf) []) in
        fetches es
        = [payload_of (buildApiPromptText initial (str "cover") [])
             (coverImage pdf)]
        /\ (forall m, reply = Throw m -> updates es = [] /\ errors es = [[]; m])
        /\ (reply = Ok JNull -> updates es = [])
        /\ (forall newPrompt,
              reply = Ok newPrompt -> newPrompt <> JNull ->
              exists extracted_title extracted_author,
                get_member TypeError_message newPrompt (str "extracted_title")
                = Ok extracted_title
                /\ get_member TypeError_message newPrompt
                     (str "extracted_author") = Ok extracted_author
                /\ updates es
                   = [(id project,
                       Jsx.finalProjectState project storyText newPrompt
                         extracted_title extracted_author)]
                /\ errors es = [[]])
        /\ (forall k s, scenes_of storyText !! k = Some s -> status s = pending)).
Proof.
  split.
  - intros project file Hpdf Htxt Htrim storyText es. subst es storyText.
    unfold Plain.handleFileChange, Plain.ingest, try_catch_finally.
    rewrite Hpdf, Htxt. unfold_M. simpl.
    rewrite (truthy_string_ne _ Htrim). simpl.
    repeat split; try reflexivity.
    intros k s Hs. apply scenes_of_pending in Hs as [Hs _]. exact Hs.
  - intros JSON_parse TypeError_message fetch project file pdf Hpdf Hfile Htrim
           storyText initial es reply.
    subst es reply initial storyText.
    unfold Jsx.handleFileChange, try_catch_finally.
    rewrite (ingest_unfold JSON_parse TypeError_message fetch project file pdf
               Hpdf Hfile (truthy_string_ne _ Htrim)).
    cbv zeta.
    destruct (snd (generateScene JSON_parse TypeError_message fetch
                     (Jsx.initialProjectState project (fullText_of pdf))
                     (str "cover") (coverImage pdf) [])) as [newPrompt|m0].
    + destruct newPrompt; simpl;
        (split; [reflexivity|]);
        (split; [intros m Hm; discriminate|]);
        (split; [try reflexivity; intros Hn; discriminate|]);
        (split; [|intros k sc Hs; apply scenes_of_pending in Hs as [Hs _];
                  exact Hs]);
        intros newPrompt [= <-] Hnn; try contradiction;
        eexists _, _; repeat split; reflexivity.
    + simpl. split; [reflexivity|].
      split; [intros m [= <-]; split; reflexivity|].
      split; [intros Hn; discriminate|].
      split; [intros newPrompt Hn; discriminate|].
      intros k s Hs. apply scenes_of_pending in Hs as [Hs _]. exact Hs.
Qed.

(** ** The scene pointer *)

Lemma find_Some {A} (f : A -> bool) (l : list A) x :
  find f l = Some x -> x ∈ l /\ f x = true.
Proof.
  induction l as [|a l IH]; simpl; [discriminate|].
  destruct (f a) eqn:Ha.
  - intros [= <-]. split; [left|exact Ha].
  - intros H. destruct (IH H) as [Hin Hx]. split; [right; exact Hin|exact Hx].
Qed.

Lemma find_first {A} (f : A -> bool) (l : list A) x :
  find f l = Some x ->
  exists k, l !! k = Some x
            /\ forall j y, j < k -> l !! j = Some y -> f y = false.
Proof.
  induction l as [|a l IH]; simpl; [discriminate|].
  destruct (f a) eqn:Ha.
  - intros [= <-]. exists 0. split; [reflexivity|]. intros j y Hj. lia.
  - intros H. destruct (IH H) as (k & Hk & Hbefore). exists (S k).
    split; [exact Hk|]. intros [|j] y Hj Hy; simpl in Hy; [congruence|].
    apply (Hbefore j y); [lia|exact Hy].
Qed.

Lemma pretty_N_go_nonempty x s : s <> EmptyString -> pretty_N_go x s <> EmptyString.
Proof.
  revert s. induction (N.lt_wf_0 x) as [x _ IH]; intros s Hs.
  destruct (N.eq_dec x 0%N) as [->|Hx]; [exact Hs|].
  rewrite pretty_N_go_step by lia.
  apply IH; [apply N.div_lt; lia|discriminate].
Qed.

Lemma String_of_nat_nonempty i : truthy_string (String_of_nat i) = true.
Proof.
  unfold String_of_nat.
  assert (pretty i <> EmptyString) as Hne.
  { unfold pretty, pretty_nat, pretty, pretty_N.
    destruct (decide (N.of_nat i = 0%N)); [discriminate|].
    rewrite pretty_N_go_step by lia. apply pretty_N_go_nonempty. discriminate. }
  destruct (pretty i); [contradiction|reflexivity].
Qed.

Lemma navItems_of_nonempty n sceneId :
  sceneId ∈ navItems_of n -> truthy_string sceneId = true.
Proof.
  unfold navItems_of. intros H.
  apply elem_of_cons in H as [->|H]; [reflexivity|].
  apply elem_of_app in H as [H|H].
  - apply list_elem_of_fmap in H as (i & -> & _). apply String_of_nat_nonempty.
  - apply list_elem_of_singleton in H as ->. reflexivity.
Qed.

(** The plain build moves the pointer to the first scene that is not
    completed when the current scene is not completed, and leaves it alone
    when the current scene is completed. *)
Lemma plain_effect_auto_advance project currentSceneId :
  storyText project <> [] ->
  (scene_completed project currentSceneId ->
     Plain.ProjectWorkspace_effect project currentSceneId = [])
  /\ (~ scene_completed project currentSceneId ->
        forall firstPending,
          find (not_completed project) (navItems_of (totalPages project))
          = Some firstPending ->
          Plain.ProjectWorkspace_effect project currentSceneId
          = if bool_decide (firstPending = currentSceneId) then []
            else [SetCurrentSceneId firstPending]).
Proof.
  intros Hstory. unfold Plain.ProjectWorkspace_effect.
  rewrite (truthy_string_ne _ Hstory), andb_true_l. split.
  - intros Hc. apply not_completed_false in Hc. rewrite Hc. reflexivity.
  - intros Hnc firstPending Hfind.
    destruct (not_completed project currentSceneId) eqn:E.
    + rewrite Hfind. apply find_Some in Hfind as [Hin _].
      rewrite (navItems_of_nonempty _ _ Hin), andb_true_l.
      case_bool_decide; reflexivity.
    + apply not_completed_false in E. contradiction.
Qed.

(** C8: in the JSX build the effect of [ProjectWorkspace] has no guard for
    a completed current scene. On an ingested project that still has a
    scene to generate, the pointer is moved to the first such scene even
    while the current scene is a completed one, where the plain build
    leaves the pointer alone. *)
Theorem jsx_effect_leaves_completed_scene (project : Project)
    (currentSceneId firstPending : jstring) :
  storyText project <> [] ->
  scene_completed project currentSceneId ->
  find (not_completed project) (navItems_of (totalPages project))
  = Some firstPending ->
  Jsx.ProjectWorkspace_effect project currentSceneId
  = [SetCurrentSceneId firstPending]
  /\ firstPending <> currentSceneId
  /\ Plain.ProjectWorkspace_effect project currentSceneId = [].
Proof.
  intros Hstory Hc Hfind.
  destruct (plain_effect_auto_advance project currentSceneId Hstory)
    as [Hplain _].
  assert (firstPending <> currentSceneId) as Hne.
  { intros ->. apply find_Some in Hfind as [_ Hf].
    apply not_completed_false in Hc. congruence. }
  split; [|split; [exact Hne|exact (Hplain Hc)]].
  unfold Jsx.ProjectWorkspace_effect.
  rewrite (truthy_string_ne _ Hstory), Hfind.
  apply find_Some in Hfind as [Hin _].
  rewrite (navItems_of_nonempty _ _ Hin).
  rewrite bool_decide_eq_false_2 by exact Hne. reflexivity.
Qed.

(** The user looks at the completed cover of [Samples.book]; page 1 is
    still to be generated. *)
Lemma jsx_effect_leaves_completed_scene_witness :
  Jsx.ProjectWorkspace_effect Samples.book (str "cover")
  = [SetCurrentSceneId (str "1")]
  /\ str "1" <> str "cover"
  /\ Plain.ProjectWorkspace_effect Samples.book (str "cover") = [].
Proof.
  apply (jsx_effect_leaves_completed_scene Samples.book (str "cover") (str "1")).
  - vm_compute. discriminate.
  - eexists. split; [vm_compute; reflexivity|reflexivity].
  - vm_compute. reflexivity.
Defined.

(** ** Status and fields of a scene *)

Section Invariant.

Variable JSON_parse : jstring -> result json.
Variable TypeError_message : option json -> jstring -> jstring.

Local Abbreviation handleFileChange :=
  (Jsx.handleFileChange JSON_parse TypeError_message).
Local Abbreviation handleGenerate :=
  (Jsx.handleGenerate JSON_parse TypeError_message).
Local Abbreviation step := (Jsx.step JSON_parse TypeError_message).
Local Abbreviation reachable := (Jsx.reachable JSON_parse TypeError_message).

(** An upload sends no update, or the one update of a cover generation
    that returned a value other than [null]. *)
Lemma handleFileChange_updates fetch pdfjsLib project file :
  updates (handleFileChange fetch pdfjsLib project file) = []
  \/ exists storyText newPrompt extracted_title extracted_author,
       newPrompt <> JNull
       /\ updates (handleFileChange fetch pdfjsLib project file)
          = [(id project,
              Jsx.finalProjectState project storyText newPrompt
                extracted_title extracted_author)].
Proof.
  destruct file as [file|]; [|left; reflexivity].
  destruct (endsWith (file_name file) (str ".pdf")) eqn:Hpdf;
    [|left; unfold Jsx.handleFileChange, Jsx.ingest, Jsx.read_layout;
      rewrite Hpdf; reflexivity].
  destruct pdfjsLib;
    [|left; unfold Jsx.handleFileChange, Jsx.ingest, Jsx.read_layout;
      rewrite Hpdf; reflexivity].
  destruct (file_pdf file) as [pdf|m] eqn:Hfile;
    [|left; unfold Jsx.handleFileChange, Jsx.ingest, Jsx.read_layout;
      rewrite Hpdf, Hfile; reflexivity].
  destruct (truthy_string (trim (fullText_of pdf))) eqn:Htrim;
    [|left; unfold Jsx.handleFileChange, Jsx.ingest, Jsx.read_layout;
      rewrite Hpdf, Hfile; unfold_M; simpl; rewrite Htrim; reflexivity].
  unfold Jsx.handleFileChange, try_catch_finally.
  rewrite (ingest_unfold JSON_parse TypeError_message fetch project file pdf
             Hpdf Hfile Htrim). cbv zeta.
  destruct (snd (generateScene JSON_parse TypeError_message fetch
                   (Jsx.initialProjectState project (fullText_of pdf))
                   (str "cover") (coverImage pdf) [])) as [newPrompt|m0];
    [|left; reflexivity].
  destruct newPrompt; simpl; try (left; reflexivity);
    right; eexists _, _, _, _; (split; [|reflexivity]); discriminate.
Qed.

(** A click on "Generate Scene" sends no update, or the one update that
    completes the scene. *)
Lemma handleGenerate_updates fetch project sceneId isRegenerating
    imageBase64 feedback :
  updates (handleGenerate fetch project sceneId isRegenerating
             imageBase64 feedback) = []
  \/ exists newPrompt d,
       Jsx.projectUpdates_of TypeError_message project sceneId newPrompt
         sampleVideo = Ok d
       /\ updates (handleGenerate fetch project sceneId isRegenerating
                     imageBase64 feedback) = [(id project, d)].
Proof.
  destruct (Jsx.missing_illustration sceneId imageBase64 isRegenerating)
    eqn:Hguard.
  - left. unfold Jsx.handleGenerate. rewrite Hguard. reflexivity.
  - rewrite (handleGenerate_unfold _ _ _ _ _ _ _ _ Hguard).
    rewrite generate_unfold. cbv zeta.
    destruct (snd (generateScene JSON_parse TypeError_message fetch project
                     sceneId imageBase64 feedback)) as [newPrompt|m0];
      [|left; reflexivity].
    destruct (Jsx.projectUpdates_of TypeError_message project sceneId
                newPrompt sampleVideo) as [d|m0] eqn:Hd;
      [|left; reflexivity].
    right. exists newPrompt, d. split; [exact Hd|reflexivity].
Qed.

Lemma store_consistent_update ps projectId d new_scenes :
  store_consistent ps ->
  set_scenes d = Some new_scenes ->
  (forall sceneId s, new_scenes !! sceneId = Some s ->
                     scene_consistent sceneId s) ->
  store_consistent (updateProject projectId d ps).
Proof.
  intros Hps Hd Hnew q Hq sceneId s Hs.
  unfold updateProject in Hq.
  apply list_elem_of_fmap in Hq as (q0 & -> & Hq0).
  destruct (decide (id q0 = projectId)).
  - unfold spread in Hs. simpl in Hs. rewrite Hd in Hs. simpl in Hs.
    exact (Hnew _ _ Hs).
  - exact (Hps q0 Hq0 _ _ Hs).
Qed.

Lemma step_consistent ps ps' :
  step ps ps' -> store_consistent ps -> store_consistent ps'.
Proof.
  intros Hstep Hps. destruct Hstep as
    [now iso ps|p ps Hp|fetch pdfjsLib p sceneId file ps Hp Hview
    |fetch p sceneId imageBase64 feedback es ps Hp Hclick].
  - intros q Hq k s Hs. unfold createNewProject in Hq.
    apply elem_of_app in Hq as [Hq|Hq]; [exact (Hps q Hq _ _ Hs)|].
    apply list_elem_of_singleton in Hq as ->. simpl in Hs.
    rewrite lookup_empty in Hs. discriminate.
  - intros q Hq k s Hs. unfold Jsx.confirmDeleteProject in Hq.
    apply list_elem_of_filter in Hq as [_ Hq]. exact (Hps q Hq _ _ Hs).
  - unfold commit.
    destruct (handleFileChange_updates fetch pdfjsLib p file)
      as [->|(storyText & v & et & ea & Hv & ->)]; [exact Hps|].
    simpl. eapply store_consistent_update; [exact Hps|reflexivity|].
    intros k s Hs. destruct (decide (k = str "cover")) as [->|Hk].
    + rewrite lookup_insert_eq in Hs. injection Hs as <-.
      unfold scene_consistent. simpl.
      split; [eauto|]. split; [reflexivity|]. intros _ [= ->]. contradiction.
    + rewrite lookup_insert_ne in Hs by auto.
      apply scenes_of_pending in Hs as (Hst & Hp1 & Hp2).
      unfold scene_consistent. rewrite Hst. auto.
  - assert (exists regen, es = handleGenerate fetch p sceneId regen
                                 imageBase64 feedback) as [regen ->].
    { unfold Jsx.clickGenerate in Hclick.
      destruct (SceneGenerator p sceneId); [discriminate| |];
        injection Hclick as <-; eauto. }
    unfold commit.
    destruct (handleGenerate_updates fetch p sceneId regen imageBase64
                feedback) as [->|(v & d & Hd & ->)]; [exact Hps|].
    simpl.
    destruct (projectUpdates_of_shape _ _ _ _ _ Hd) as (Hsc & _ & _ & _ & _ & Hcov).
    eapply store_consistent_update; [exact Hps|exact Hsc|].
    intros k s Hs. destruct (decide (k = sceneId)) as [->|Hk].
    + rewrite lookup_insert_eq in Hs. injection Hs as <-.
      unfold scene_consistent. simpl.
      split; [eauto|]. split; [reflexivity|].
      intros Hc [= ->]. exact (Hcov Hc eq_refl).
    + rewrite lookup_insert_ne in Hs by auto. exact (Hps p Hp _ _ Hs).
Qed.

Lemma reachable_consistent ps : reachable ps -> store_consistent ps.
Proof.
  unfold Jsx.reachable. revert ps.
  apply (rtc_ind_r (fun ps => store_consistent ps)).
  - intros p Hp. inversion Hp.
  - intros ps ps' _ Hstep IH. exact (step_consistent ps ps' Hstep IH).
Qed.

(** C1: in every store that the operations of the JSX build lead to,
    a scene is ['completed'] exactly when its [prompt] and [videoUrl]
    fields are both present, and a pending scene has neither. The
    prompt is the value parsed from the reply of the service: it is
    never [null] on the cover. *)
Theorem scene_fields_follow_status (ps : list Project) :
  reachable ps ->
  forall p, p ∈ ps ->
  forall sceneId s, scenes p !! sceneId = Some s ->
    (status s = completed <-> is_Some (prompt s) /\ is_Some (videoUrl s))
    /\ (status s = pending -> prompt s = None /\ videoUrl s = None)
    /\ (status s = completed -> videoUrl s = Some sampleVideo)
    /\ (sceneId = str "cover" -> prompt s <> Some JNull).
Proof.
  intros Hreach p Hp sceneId s Hs.
  pose proof (reachable_consistent ps Hreach p Hp sceneId s Hs) as Hc.
  unfold scene_consistent in Hc.
  destruct (status s) eqn:Hst.
  - destruct Hc as [Hp1 Hp2]. rewrite Hp1, Hp2.
    split; [split; [discriminate|intros [[? H] _]; discriminate]|].
    split; [auto|]. split; [discriminate|]. intros _ H. discriminate.
  - destruct Hc as (Hp1 & Hp2 & Hp3). rewrite Hp2.
    split; [split; [intros _; split; [exact Hp1|eauto]|reflexivity]|].
    split; [discriminate|]. split; [reflexivity|exact Hp3].
Qed.

End Invariant.

(** ** The statements at the sample runs *)

Example store2_book : Samples.store2 = [Samples.book_after_null].
Proof. vm_compute. reflexivity. Qed.

Lemma store1_reachable :
  Jsx.reachable Reader.JSON_parse Reader.TypeError_message Samples.store1.
Proof.
  unfold Jsx.reachable.
  eapply rtc_l; [apply (Jsx.step_create _ _ 1 (str "2024-01-01T00:00:00.000Z") [])|].
  apply rtc_once.
  apply (Jsx.step_ingest _ _ (Samples.service_replying Samples.title_and_author)
           true Samples.untitled (str "cover") (Some Samples.layout)).
  - rewrite store0_untitled. left.
  - reflexivity.
Qed.

Lemma store2_reachable :
  Jsx.reachable Reader.JSON_parse Reader.TypeError_message Samples.store2.
Proof.
  eapply rtc_r; [exact store1_reachable|].
  apply (Jsx.step_generate _ _ (Samples.service_replying (str "null"))
           Samples.book (str "1") (str "BBBB") []).
  - rewrite store1_book. left.
  - vm_compute. reflexivity.
Qed.

(** After the upload the effect of the JSX build has moved the pointer to
    page 1, where the next generation takes place. *)
Example pointer_after_upload :
  Jsx.ProjectWorkspace_effect Samples.book (str "cover")
  = [SetCurrentSceneId (str "1")].
Proof. vm_compute. reflexivity. Qed.

(** The statement of C1 with "set" read as present and not [null] fails:
    the service answers the request for page 1 with the JSON text [null],
    [JSON.parse] returns [null], no property of it is read since the scene
    is not the cover, and the scene is completed with [prompt: null]. *)
Lemma null_prompt_completed :
  ~ (forall ps,
        Jsx.reachable Reader.JSON_parse Reader.TypeError_message ps ->
        forall p, p ∈ ps ->
        forall sceneId s, scenes p !! sceneId = Some s ->
          (status s = completed <-> prompt_set s /\ videoUrl_set s)).
Proof.
  intros H.
  assert (Samples.book_after_null ∈ Samples.store2) as Hin.
  { rewrite store2_book. left. }
  pose proof (H Samples.store2 store2_reachable Samples.book_after_null Hin
                (str "1")
                {| status := completed; text := Some (str "Once upon");
                   prompt := Some JNull; videoUrl := Some sampleVideo |}) as Hs.
  destruct Hs as [Hs _]; [vm_compute; reflexivity|].
  destruct (Hs eq_refl) as [(v & Hv & Hnn) _].
  simpl in Hv. injection Hv as <-. contradiction.
Qed.

Lemma scene_fields_follow_status_witness :
  Jsx.reachable Reader.JSON_parse Reader.TypeError_message Samples.store2
  /\ Samples.book_after_null ∈ Samples.store2
  /\ forall sceneId s,
       scenes Samples.book_after_null !! sceneId = Some s ->
       (status s = completed <-> is_Some (prompt s) /\ is_Some (videoUrl s))
       /\ (status s = pending -> prompt s = None /\ videoUrl s = None)
       /\ (status s = completed -> videoUrl s = Some sampleVideo)
       /\ (sceneId = str "cover" -> prompt s <> Some JNull).
Proof.
  assert (Samples.book_after_null ∈ Samples.store2) as Hin.
  { rewrite store2_book. left. }
  split; [exact store2_reachable|]. split; [exact Hin|].
  exact (scene_fields_follow_status Reader.JSON_parse Reader.TypeError_message
           Samples.store2 store2_reachable Samples.book_after_null Hin).
Defined.

(** The statement of C6 fails in the JSX build: the layout is read, its
    text is not blank, the service answers the cover request with
    HTTP 500, and nothing at all is committed. *)
Lemma failed_cover_discards_ingestion :
  ~ (forall fetch project file storyText0 coverImageBase64,
        snd (Jsx.read_layout true file) = Ok (storyText0, coverImageBase64) ->
        trim storyText0 <> [] ->
        forall p',
          p' ∈ commit (Jsx.handleFileChange Reader.JSON_parse
                         Reader.TypeError_message fetch true project
                         (Some file)) [project] ->
          storyText p' = storyText0
          /\ totalPages p' = totalPages_of storyText0
          /\ forall k s, scenes p' !! k = Some s -> status s = pending).
Proof.
  intros H.
  destruct (H Samples.service_failing Samples.untitled Samples.layout
              (str "Once upon" ++ nl ++ nl ++ str "The end" ++ nl ++ nl)
              (str "AAAA")) with (p' := Samples.untitled) as (Hs & _).
  - vm_compute. reflexivity.
  - vm_compute. discriminate.
  - vm_compute. left.
  - vm_compute in Hs. discriminate.
Qed.

Lemma ingestion_commit_witness :
  updates (Plain.handleFileChange Samples.untitled (Some Samples.story))
  = [(str "proj_1",
      {| set_id := None;
         set_name := Some (JStr (str "My Animation Project"));
         set_author := Some (JStr (str "Author Name"));
         set_storyText := Some (str "Page1" ++ nl ++ nl ++ str "Page2");
         set_totalPages := Some 2;
         set_scenes := Some (scenes_of (str "Page1" ++ nl ++ nl ++ str "Page2"));
         set_createdAt := None |})]
  /\ updates (Jsx.handleFileChange Reader.JSON_parse Reader.TypeError_message
                Samples.service_failing true Samples.untitled
                (Some Samples.layout)) = [].
Proof.
  destruct ingestion_commit as [Hplain Hjsx]. split.
  - destruct (Hplain Samples.untitled Samples.story) as (Hup & _).
    + vm_compute. reflexivity.
    + vm_compute. reflexivity.
    + vm_compute. discriminate.
    + exact Hup.
  - destruct (Hjsx Reader.JSON_parse Reader.TypeError_message
                Samples.service_failing Samples.untitled Samples.layout
                {| pageItems := [[str "Once"; str "upon"]; [str "The end"]];
                   coverImage := str "AAAA" |}) as (_ & Hfail & _).
    + vm_compute. reflexivity.
    + reflexivity.
    + vm_compute. discriminate.
    + destruct (Hfail (str "API Error: 500 Internal Server Error - boom"))
        as [Hup _]; [vm_compute; reflexivity|exact Hup].
Defined.

(** With every scene completed the pointer stays where the user put it,
    so the cover can be regenerated. *)
Example finished_cover_viewer :
  Jsx.ProjectWorkspace_effect Samples.finished (str "cover") = []
  /\ SceneGenerator Samples.finished (str "cover") = CompletedSceneViewer.
Proof. vm_compute. split; reflexivity. Qed.

(** Where the reply has a title and no author, the author is not left as
    it was: regenerating the cover of [Samples.finished], whose author is
    ["Ann"], with the reply [{"extracted_title":"Foo"}] sets the author
    to ['Unknown Author']; it is neither taken from the reply nor left as
    it was. *)
Lemma missing_author_overwrites :
  ~ (forall fetch project isRegenerating imageBase64 feedback newPrompt
            title extracted_author,
        Jsx.missing_illustration (str "cover") imageBase64 isRegenerating
        = false ->
        snd (generateScene Reader.JSON_parse Reader.TypeError_message fetch
               project (str "cover") imageBase64 feedback) = Ok newPrompt ->
        get_member Reader.TypeError_message newPrompt (str "extracted_title")
        = Ok (Some title) ->
        truthy (Some title) = true ->
        get_member Reader.TypeError_message newPrompt (str "extracted_author")
        = Ok extracted_author ->
        forall p',
          p' ∈ commit (Jsx.handleGenerate Reader.JSON_parse
                         Reader.TypeError_message fetch project (str "cover")
                         isRegenerating imageBase64 feedback) [project] ->
          name p' = title
          /\ author p' = or_value extracted_author (author project)).
Proof.
  intros H.
  destruct (H (Samples.service_replying Samples.title_only) Samples.finished
              true [] []
              (JObj [(str "extracted_title", JStr (str "Foo"))])
              (JStr (str "Foo")) None)
    with (p' := {| id := id Samples.finished;
                   name := JStr (str "Foo");
                   author := JStr (str "Unknown Author");
                   storyText := storyText Samples.finished;
                   totalPages := totalPages Samples.finished;
                   scenes :=
                     <[str "cover" :=
                         {| status := completed; text := None;
                            prompt := Some (JObj [(str "extracted_title",
                                                   JStr (str "Foo"))]);
                            videoUrl := Some sampleVideo |}]>
                       (scenes Samples.finished);
                   createdAt := createdAt Samples.finished |})
    as (_ & Hauthor).
  - reflexivity.
  - vm_compute. reflexivity.
  - vm_compute. reflexivity.
  - reflexivity.
  - vm_compute. reflexivity.
  - vm_compute. left.
  - vm_compute in Hauthor. discriminate.
Qed.

(** The reply [{"extracted_title":"Foo"}], a title without an author, on
    both ways to the cover. Generating the cover of [Samples.finished]
    again loses its author ["Ann"]; the upload of [Samples.layout] to a
    new project keeps the author that the project had. *)
Lemma cover_author_fallbacks_differ_witness :
  let regenerated :=
    commit (Jsx.handleGenerate Reader.JSON_parse Reader.TypeError_message
              (Samples.service_replying Samples.title_only) Samples.finished
              (str "cover") true [] []) [Samples.finished] in
  let uploaded :=
    commit (Jsx.handleFileChange Reader.JSON_parse Reader.TypeError_message
              (Samples.service_replying Samples.title_only) true
              Samples.untitled (Some Samples.layout)) [Samples.untitled] in
  author Samples.finished = JStr (str "Ann")
  /\ (exists p', regenerated = [p']
                 /\ name p' = JStr (str "Foo")
                 /\ author p' = JStr (str "Unknown Author")
                 /\ author p' <> author Samples.finished)
  /\ (exists p', uploaded = [p']
                 /\ name p' = JStr (str "Foo")
                 /\ author p' = author Samples.untitled).
Proof.
  intros regenerated uploaded. subst regenerated uploaded.
  split; [reflexivity|].
  destruct (cover_author_fallbacks_differ Reader.JSON_parse
              Reader.TypeError_message
              (Samples.service_replying Samples.title_only)
              [(str "extracted_title", JStr (str "Foo"))] (JStr (str "Foo"))
              Samples.finished true [] []
              Samples.untitled Samples.layout
              {| pageItems := [[str "Once"; str "upon"]; [str "The end"]];
                 coverImage := str "AAAA" |})
    as [Hgenerate Hupload]; [reflexivity|reflexivity|reflexivity|].
  split.
  - destruct Hgenerate as (p' & Hc & _ & Hname & Hauthor & Hlost);
      [reflexivity|vm_compute; reflexivity|].
    exists p'. split; [exact Hc|]. split; [exact Hname|].
    split; [exact Hauthor|]. apply Hlost.
    intros H. apply (f_equal (fun v => match v with
                                       | JStr s => length s
                                       | _ => 0
                                       end)) in H.
    vm_compute in H. discriminate H.
  - destruct Hupload as (p' & Hc & _ & Hname & Hauthor);
      [reflexivity|reflexivity|vm_compute; discriminate
      |vm_compute; reflexivity|].
    exists p'. split; [exact Hc|]. split; [exact Hname|exact Hauthor].
Defined.

(** Scenario E of the specification: the name becomes ["Foo"]. *)
Lemma scenario_E_name :
  let es := Jsx.handleGenerate Reader.JSON_parse Reader.TypeError_message
              (Samples.service_replying Samples.title_and_author)
              Samples.finished (str "cover") true [] [] in
  exists d,
    updates es = [(str "proj_1", d)]
    /\ name (spread Samples.finished d) = JStr (str "Foo")
    /\ author (spread Samples.finished d) = JStr (str "Ann").
Proof.
  intros es.
  destruct (handleGenerate_cover_update Reader.JSON_parse Reader.TypeError_message
              (Samples.service_replying Samples.title_and_author)
              Samples.finished true [] []
              (JObj [(str "extracted_title", JStr (str "Foo"));
                     (str "extracted_author", JStr (str "Ann"))])
              {| projects := [Samples.finished]; currentSceneId := str "cover";
                 error := []; requests := [] |})
    as [_ Hok].
  - reflexivity.
  - vm_compute. reflexivity.
  - destruct Hok as (et & ea & d & Het & Hea & Hup & _ & _ & Hname & Hauthor);
      [discriminate|].
    exists d. split; [exact Hup|].
    vm_compute in Het. injection Het as <-.
    vm_compute in Hea. injection Hea as <-.
    split; [exact Hname|exact Hauthor].
Defined.

(** Scenario D of the specification: the service answers with HTTP 500. *)
Lemma failed_generation_keeps_project_witness :
  let st := {| projects := [Samples.book]; currentSceneId := str "1";
               error := []; requests := [] |} in
  let es := Jsx.handleGenerate Reader.JSON_parse Reader.TypeError_message
              Samples.service_failing Samples.book (str "1") false
              (str "BBBB") [] in
  projects (run es st) = [Samples.book]
  /\ error (run es st)
     = str "Operation failed: API Error: 500 Internal Server Error - boom.".
Proof.
  intros st es.
  destruct (failed_generation_keeps_project Reader.JSON_parse
              Reader.TypeError_message Samples.service_failing Samples.book
              (str "1") false (str "BBBB") [] st)
    as (Hfail & _ & H500 & _).
  - reflexivity.
  - specialize (H500 _ eq_refl eq_refl).
    destruct (Hfail _ H500) as (_ & Hp & He).
    split; [exact Hp|exact He].
Defined.

(** Scenario C of the specification: page 1 without an illustration. *)
Lemma first_generation_needs_illustration_witness :
  let st := {| projects := [Samples.book]; currentSceneId := str "1";
               error := []; requests := [] |} in
  let es := [SetError (str "Please upload an illustration for this page.")] in
  Jsx.clickGenerate Reader.JSON_parse Reader.TypeError_message
    Samples.service_failing Samples.book (str "1") [] [] = Some es
  /\ projects (run es st) = [Samples.book]
  /\ requests (run es st) = [].
Proof.
  intros st es.
  destruct (first_generation_needs_illustration Reader.JSON_parse
              Reader.TypeError_message Samples.service_failing Samples.book
              (str "1") [] st) as [Hpending _].
  - vm_compute. discriminate.
  - vm_compute. discriminate.
  - destruct Hpending as (Hclick & _ & _ & Hp & Hr & _).
    + intros (s & Hs & Hc). vm_compute in Hs. injection Hs as <-.
      discriminate.
    + split; [exact Hclick|]. split; [exact Hp|exact Hr].
Defined.

(** Generating page 1 of [Samples.book] and then generating it again. *)
Lemma prompt_builder_deterministic_witness :
  let fetch := Samples.service_replying Samples.title_only in
  Forall
    (fun project' =>
       generateScene Reader.JSON_parse Reader.TypeError_message fetch project'
         (str "1") (str "BBBB") []
       = generateScene Reader.JSON_parse Reader.TypeError_message fetch
           Samples.book (str "1") (str "BBBB") [])
    (commit (Jsx.handleGenerate Reader.JSON_parse Reader.TypeError_message
               fetch Samples.book (str "1") false (str "BBBB") [])
            [Samples.book]).
Proof.
  intros fetch. apply Forall_forall. intros project' Hin.
  destruct (prompt_builder_deterministic Reader.JSON_parse
              Reader.TypeError_message fetch Samples.book (str "1") false
              (str "BBBB") []) as [_ Hsecond].
  exact (proj2 (Hsecond project' Hin)).
Defined.



(** The sidebar of [Samples.book]: the cover is completed, page 1 is the
    first pending scene, page 2 and the end scene are disabled. *)
Lemma navigation_gate_witness :
  firstPendingSceneIndex Samples.book = 1%Z
  /\ isDisabled Samples.book 1 = false
  /\ isDisabled Samples.book 2 = true.
Proof.
  assert (firstPendingSceneIndex Samples.book = Z.of_nat 1) as Hk
    by (vm_compute; reflexivity).
  split; [exact Hk|].
  destruct (navigation_gate Samples.book 1) as (_ & _ & H1 & _).
  destruct (navigation_gate Samples.book 2) as (_ & _ & H2 & _).
  destruct (H1 1 Hk) as (_ & _ & Hle1).
  destruct (H2 1 Hk) as (_ & _ & Hle2).
  split; [apply Hle1; lia|].
  apply not_false_iff_true. intros E. apply Hle2 in E. lia.
Defined.

(** ** More sample runs *)

(** A click on the sidebar moves the pointer to an enabled item and leaves
    it alone on a disabled one. *)
Lemma navigate_gate p index currentSceneId sceneId :
  navItems p !! index = Some sceneId ->
  navigate p index currentSceneId
  = if isDisabled p index then currentSceneId else sceneId.
Proof. intros H. unfold navigate. rewrite H. reflexivity. Qed.

Example navigate_book :
  navigate Samples.book 0 (str "1") = str "cover"
  /\ navigate Samples.book 2 (str "1") = str "1".
Proof. vm_compute. split; reflexivity. Qed.

(** A generation of page 1 that succeeds: one request, one update, and
    the scene is completed with the parsed reply. *)
Example generation_success :
  let es := Jsx.handleGenerate Reader.JSON_parse Reader.TypeError_message
              (Samples.service_replying Samples.title_only) Samples.book
              (str "1") false (str "BBBB") [] in
  length (fetches es) = 1
  /\ length (updates es) = 1
  /\ errors es = [[]]
  /\ (scenes <$> commit es [Samples.book])
     = [<[str "1" := {| status := completed; text := Some (str "Once upon");
                        prompt := Some (JObj [(str "extracted_title",
                                               JStr (str "Foo"))]);
                        videoUrl := Some sampleVideo |}]>
          (scenes Samples.book)]
  /\ (name <$> commit es [Samples.book]) = [JStr (str "Foo")].
Proof. vm_compute. repeat split; reflexivity. Qed.

(** A regeneration of the cover without a new illustration is sent to the
    service. *)
Example regeneration_without_illustration :
  exists es,
    Jsx.clickGenerate Reader.JSON_parse Reader.TypeError_message
      (Samples.service_replying Samples.title_and_author) Samples.finished
      (str "cover") [] (str "slower zoom") = Some es
    /\ fetches es
       = [payload_of (buildApiPromptText Samples.finished (str "cover")
                        (str "slower zoom")) []]
    /\ errors es = [[]]
    /\ length (updates es) = 1.
Proof. eexists. vm_compute. repeat split; reflexivity. Qed.

(** The client on a success without candidates, and on a candidate without
    content. *)
Example client_empty_response :
  snd (generateScene Reader.JSON_parse Reader.TypeError_message
         Samples.service_silent Samples.book (str "1") (str "BBBB") [])
  = Throw (str "The model returned an empty or invalid response.").
Proof. vm_compute. reflexivity. Qed.

Example client_hollow_candidate :
  snd (generateScene Reader.JSON_parse Reader.TypeError_message
         Samples.service_hollow Samples.book (str "1") (str "BBBB") [])
  = Throw (str "Cannot read properties of undefined (reading 'parts')").
Proof. vm_compute. reflexivity. Qed.

Example client_service_error :
  snd (generateScene Reader.JSON_parse Reader.TypeError_message
         Samples.service_failing Samples.book (str "1") (str "BBBB") [])
  = Throw (str "API Error: 500 Internal Server Error - boom").
Proof. vm_compute. reflexivity. Qed.

(** A reply of [null] to the cover request of an upload: nothing is
    committed. *)
Example upload_null_cover :
  let es := Jsx.handleFileChange Reader.JSON_parse Reader.TypeError_message
              (Samples.service_replying (str "null")) true Samples.untitled
              (Some Samples.layout) in
  updates es = []
  /\ errors es
     = [[]; str "Cannot read properties of null (reading 'extracted_title')"].
Proof. vm_compute. split; reflexivity. Qed.

(** * Further properties of the code *)

(** ** The sidebar items *)

Lemma navItems_of_length n : length (navItems_of n) = n + 2.
Proof.
  unfold navItems_of. simpl. rewrite length_app, length_map, length_seq.
  simpl. lia.
Qed.

Lemma navItems_of_lookup n k :
  navItems_of n !! k
  = if decide (k = 0) then Some (str "cover")
    else if decide (k <= n) then Some (String_of_nat k)
    else if decide (k = n + 1) then Some (str "end")
    else None.
Proof.
  unfold navItems_of. destruct k as [|k]; [reflexivity|].
  rewrite decide_False by lia.
  change ((str "cover" :: map (fun i => String_of_nat (i + 1)) (seq 0 n)
             ++ [str "end"]) !! S k)
    with ((((fun i => String_of_nat (i + 1)) <$> seq 0 n) ++ [str "end"]) !! k).
  destruct (decide (S k <= n)) as [Hle|Hgt].
  - rewrite lookup_app_l by (rewrite length_map, length_seq; lia).
    rewrite list_lookup_fmap, lookup_seq_lt by lia. simpl.
    f_equal. f_equal. lia.
  - rewrite lookup_app_r by (rewrite length_map, length_seq; lia).
    rewrite length_map, length_seq.
    destruct (decide (S k = n + 1)) as [Heq|Hne].
    + replace (k - n) with 0 by lia. reflexivity.
    + destruct (k - n) as [|m] eqn:E; [lia|reflexivity].
Qed.

Lemma navItems_of_NoDup n : NoDup (navItems_of n).
Proof.
  unfold navItems_of. apply NoDup_cons. split.
  - intros H. apply elem_of_app in H as [H|H].
    + apply list_elem_of_fmap in H as (i & Hi & _).
      symmetry in Hi. exact (String_of_nat_not_cover _ Hi).
    + apply list_elem_of_singleton in H. apply str_inj in H. discriminate.
  - apply NoDup_app. split; [|split].
    + apply NoDup_fmap_2_strong; [|apply NoDup_seq].
      intros x y _ _ H. apply String_of_nat_inj in H. lia.
    + intros x Hx Hend. apply list_elem_of_singleton in Hend as ->.
      apply list_elem_of_fmap in Hx as (i & Hi & _).
      symmetry in Hi. exact (String_of_nat_not_end _ Hi).
    + apply NoDup_singleton.
Qed.

(** Two positions of the sidebar that hold the same scene id are the same
    position. *)
Lemma navItems_of_index_unique n i j sid :
  navItems_of n !! i = Some sid -> navItems_of n !! j = Some sid -> i = j.
Proof.
  intros Hi Hj. exact (NoDup_lookup _ _ _ _ (navItems_of_NoDup n) Hi Hj).
Qed.

(** X1. The sidebar of a project without pages is empty. With [N > 0]
    pages it has [N + 2] items and no item twice: ['cover'] first, then
    ["1"] to ["N"] in order, then ['end']. *)
Theorem sidebar_items (p : Project) :
  (totalPages p = 0 -> navItems p = [])
  /\ (0 < totalPages p ->
        length (navItems p) = totalPages p + 2
        /\ NoDup (navItems p)
        /\ navItems p !! 0 = Some (str "cover")
        /\ navItems p !! (totalPages p + 1) = Some (str "end")
        /\ (forall i, 1 <= i <= totalPages p ->
                      navItems p !! i = Some (String_of_nat i))
        /\ (forall i, totalPages p + 2 <= i -> navItems p !! i = None)).
Proof.
  unfold navItems. split.
  - intros ->. reflexivity.
  - intros Hn. destruct (0 <? totalPages p) eqn:E;
      [|apply Nat.ltb_ge in E; lia].
    split; [apply navItems_of_length|].
    split; [apply navItems_of_NoDup|].
    split; [reflexivity|].
    split.
    { rewrite navItems_of_lookup. repeat case_decide; try lia; reflexivity. }
    split.
    { intros i Hi. rewrite navItems_of_lookup.
      repeat case_decide; try lia; reflexivity. }
    intros i Hi. rewrite navItems_of_lookup.
    repeat case_decide; try lia; reflexivity.
Qed.

Lemma sidebar_items_witness :
  navItems Samples.book = [str "cover"; str "1"; str "2"; str "end"]
  /\ NoDup (navItems Samples.book).
Proof.
  destruct (sidebar_items Samples.book) as [_ H].
  destruct H as (_ & Hnd & _); [vm_compute; lia|].
  split; [vm_compute; reflexivity|exact Hnd].
Defined.

(** [find] and [findIndex] stop at the same element. *)
Lemma find_findIndex {A} (f : A -> bool) (l : list A) :
  match find f l with
  | Some x => exists k, findIndex f l = Z.of_nat k /\ l !! k = Some x
  | None => findIndex f l = (-1)%Z
  end.
Proof.
  induction l as [|a l IH]; simpl; [reflexivity|].
  destruct (f a); [exists 0; auto|].
  destruct (find f l) as [x|].
  - destruct IH as (k & -> & Hk). exists (S k).
    destruct (Z.of_nat k =? -1)%Z eqn:E; [lia|]. split; [lia|exact Hk].
  - rewrite IH. reflexivity.
Qed.

(** Index zero is never disabled. *)
Lemma first_item_enabled p : isDisabled p 0 = false.
Proof.
  unfold isDisabled, firstPendingSceneIndex.
  destruct (findIndex_spec (not_completed p) (navItems p))
    as [[-> _]|(k & -> & _)]; [reflexivity|].
  apply andb_false_iff. right. apply Z.ltb_ge. lia.
Qed.

Lemma navItems_when_pages p :
  0 < totalPages p -> navItems p = navItems_of (totalPages p).
Proof.
  intros H. unfold navItems. destruct (0 <? totalPages p) eqn:E;
    [reflexivity|apply Nat.ltb_ge in E; lia].
Qed.

(** ** The effect and the sidebar *)

Lemma effect_cases p f :
  find (not_completed p) (navItems_of (totalPages p)) = Some f ->
  0 < totalPages p ->
  exists k, navItems p !! k = Some f
            /\ firstPendingSceneIndex p = Z.of_nat k
            /\ isDisabled p k = false
            /\ ~ scene_completed p f.
Proof.
  intros Hfind Hn.
  pose proof (find_findIndex (not_completed p) (navItems_of (totalPages p)))
    as Hfi.
  rewrite Hfind in Hfi. destruct Hfi as (k & Hk & Hat).
  exists k. unfold isDisabled, firstPendingSceneIndex.
  rewrite (navItems_when_pages p Hn), Hk.
  split; [exact Hat|]. split; [reflexivity|]. split.
  - apply andb_false_iff. right. apply Z.ltb_ge. lia.
  - intros Hc. apply not_completed_false in Hc.
    apply find_Some in Hfind as [_ Hf]. congruence.
Qed.

(** X2. Whenever the effect of [ProjectWorkspace], in either build, moves
    the pointer of a project with pages, it moves it to an item that the
    sidebar shows enabled; on an ingested project that item is the first
    scene that is not completed, the one at [firstPendingSceneIndex], and
    it differs from the current scene. *)
Theorem effect_points_at_enabled_item (p : Project)
    (currentSceneId target : jstring) :
  0 < totalPages p ->
  Jsx.ProjectWorkspace_effect p currentSceneId = [SetCurrentSceneId target]
  \/ Plain.ProjectWorkspace_effect p currentSceneId
     = [SetCurrentSceneId target] ->
  exists k,
    navItems p !! k = Some target
    /\ isDisabled p k = false
    /\ (storyText p <> [] ->
          firstPendingSceneIndex p = Z.of_nat k
          /\ ~ scene_completed p target
          /\ target <> currentSceneId).
Proof.
  intros Hn Heff.
  assert (forall f,
             find (not_completed p) (navItems_of (totalPages p)) = Some f ->
             (if truthy_string f && negb (bool_decide (f = currentSceneId))
              then [SetCurrentSceneId f] else [])
             = [SetCurrentSceneId target] ->
             exists k,
               navItems p !! k = Some target
               /\ isDisabled p k = false
               /\ (storyText p <> [] ->
                     firstPendingSceneIndex p = Z.of_nat k
                     /\ ~ scene_completed p target
                     /\ target <> currentSceneId)) as Hcore.
  { intros f Hfind Hset.
    destruct (truthy_string f); [|discriminate].
    case_bool_decide as Hne; [discriminate|]. simpl in Hset.
    injection Hset as <-.
    destruct (effect_cases p f Hfind Hn) as (k & Hk & Hfpi & Hen & Hnc).
    exists k. auto. }
  destruct Heff as [Heff|Heff].
  - unfold Jsx.ProjectWorkspace_effect in Heff.
    destruct (truthy_string (storyText p)) eqn:Hs.
    + destruct (find (not_completed p) (navItems_of (totalPages p)))
        as [f|] eqn:Hfind; [|discriminate].
      exact (Hcore f eq_refl Heff).
    + injection Heff as <-. exists 0.
      rewrite (navItems_when_pages p Hn).
      split; [reflexivity|]. split; [apply first_item_enabled|].
      intros Hne. destruct (storyText p); [contradiction|discriminate].
  - unfold Plain.ProjectWorkspace_effect in Heff.
    destruct (truthy_string (storyText p) && not_completed p currentSceneId);
      [|discriminate].
    destruct (find (not_completed p) (navItems_of (totalPages p)))
      as [f|] eqn:Hfind; [|discriminate].
    exact (Hcore f eq_refl Heff).
Qed.

Lemma effect_points_at_enabled_item_witness :
  exists k,
    navItems Samples.book !! k = Some (str "1")
    /\ isDisabled Samples.book k = false.
Proof.
  destruct (effect_points_at_enabled_item Samples.book (str "cover") (str "1"))
    as (k & Hk & Hen & _).
  - vm_compute. lia.
  - left. vm_compute. reflexivity.
  - exists k. split; [exact Hk|exact Hen].
Defined.

Lemma workspace_run_nil w : workspace_run [] w = w.
Proof. destruct w. reflexivity. Qed.

Lemma workspace_run_pointer sid w :
  workspace_run [SetCurrentSceneId sid] w = (fst w, sid).
Proof. destruct w. reflexivity. Qed.

(** X3. The effect of [ProjectWorkspace] settles after one run, in either
    build: on the workspace that a run of the effect leaves, a second run
    changes nothing. *)
Theorem effect_settles (p : Project) (currentSceneId : jstring) :
  (let w := workspace_run (Jsx.ProjectWorkspace_effect p currentSceneId)
              (p, currentSceneId) in
   workspace_run (Jsx.ProjectWorkspace_effect (fst w) (snd w)) w = w)
  /\ (let w := workspace_run (Plain.ProjectWorkspace_effect p currentSceneId)
                 (p, currentSceneId) in
      workspace_run (Plain.ProjectWorkspace_effect (fst w) (snd w)) w = w).
Proof.
  split.
  - unfold Jsx.ProjectWorkspace_effect.
    destruct (truthy_string (storyText p)) eqn:Hs.
    + destruct (find (not_completed p) (navItems_of (totalPages p)))
        as [f|] eqn:Hfind.
      * destruct (truthy_string f && negb (bool_decide (f = currentSceneId)))
          eqn:Hmove.
        -- cbv zeta. rewrite workspace_run_pointer. simpl fst. simpl snd.
           rewrite Hs, Hfind, bool_decide_eq_true_2 by reflexivity.
           rewrite andb_false_r. reflexivity.
        -- cbv zeta. rewrite workspace_run_nil. simpl fst. simpl snd.
           rewrite Hs, Hfind, Hmove. reflexivity.
      * cbv zeta. rewrite workspace_run_nil. simpl fst. simpl snd.
        rewrite Hs, Hfind. reflexivity.
    + cbv zeta. rewrite workspace_run_pointer. simpl fst. simpl snd.
      rewrite Hs. reflexivity.
  - unfold Plain.ProjectWorkspace_effect.
    destruct (truthy_string (storyText p) && not_completed p currentSceneId)
      eqn:Hguard.
    + destruct (find (not_completed p) (navItems_of (totalPages p)))
        as [f|] eqn:Hfind.
      * destruct (truthy_string f && negb (bool_decide (f = currentSceneId)))
          eqn:Hmove.
        -- cbv zeta. rewrite workspace_run_pointer. simpl fst. simpl snd.
           destruct (truthy_string (storyText p) && not_completed p f);
             [|reflexivity].
           rewrite Hfind, bool_decide_eq_true_2 by reflexivity.
           rewrite andb_false_r. reflexivity.
        -- cbv zeta. rewrite workspace_run_nil. simpl fst. simpl snd.
           rewrite Hguard, Hfind, Hmove. reflexivity.
      * cbv zeta. rewrite workspace_run_nil. simpl fst. simpl snd.
        rewrite Hguard, Hfind. reflexivity.
    + cbv zeta. rewrite workspace_run_nil. simpl fst. simpl snd.
      rewrite Hguard. reflexivity.
Qed.

(** X4. In the plain build a click on an enabled sidebar item sticks: the
    effect that runs after the pointer has moved there leaves it there,
    whether the scene is completed or is the one to generate next. *)
Theorem plain_click_sticks (p : Project) (index : nat) (sceneId : jstring) :
  clickNavItem p index = [SetCurrentSceneId sceneId] ->
  navItems p !! index = Some sceneId
  /\ isDisabled p index = false
  /\ Plain.ProjectWorkspace_effect p sceneId = [].
Proof.
  unfold clickNavItem. intros Hclick.
  destruct (navItems p !! index) as [sid|] eqn:Hat; [|discriminate].
  destruct (isDisabled p index) eqn:Hdis; [discriminate|].
  injection Hclick as ->.
  split; [reflexivity|]. split; [reflexivity|].
  unfold Plain.ProjectWorkspace_effect.
  destruct (truthy_string (storyText p)); [|reflexivity].
  destruct (not_completed p sceneId) eqn:Hnc; [|reflexivity].
  rewrite andb_true_l.
  assert (0 < totalPages p) as Hn.
  { unfold navItems in Hat. destruct (0 <? totalPages p) eqn:E;
      [apply Nat.ltb_lt in E; exact E|discriminate]. }
  unfold isDisabled, firstPendingSceneIndex in Hdis.
  rewrite (navItems_when_pages p Hn) in Hat, Hdis.
  pose proof (find_findIndex (not_completed p) (navItems_of (totalPages p)))
    as Hfi.
  destruct (findIndex_spec (not_completed p) (navItems_of (totalPages p)))
    as [[Hm Hall]|(k & Hk & (x & Hx & Hfx) & Hbefore)].
  - rewrite (Hall _ _ Hat) in Hnc. discriminate.
  - rewrite Hk in Hdis.
    apply andb_false_iff in Hdis as [Hdis|Hdis].
    { apply negb_false_iff, Z.eqb_eq in Hdis. lia. }
    apply Z.ltb_ge in Hdis.
    assert (index = k) as ->.
    { destruct (Nat.lt_ge_cases index k) as [Hlt|Hge]; [|lia].
      rewrite (Hbefore _ _ Hlt Hat) in Hnc. discriminate. }
    assert (x = sceneId) as -> by congruence.
    destruct (find (not_completed p) (navItems_of (totalPages p)))
      as [y|]; [|reflexivity].
    destruct Hfi as (k' & Hk' & Hy).
    assert (k' = k) as -> by lia.
    assert (y = sceneId) as -> by congruence.
    rewrite bool_decide_eq_true_2 by reflexivity.
    rewrite andb_false_r. reflexivity.
Qed.

Lemma plain_click_sticks_witness :
  navItems Samples.book !! 0 = Some (str "cover")
  /\ isDisabled Samples.book 0 = false
  /\ Plain.ProjectWorkspace_effect Samples.book (str "cover") = [].
Proof.
  apply (plain_click_sticks Samples.book 0 (str "cover")).
  vm_compute. reflexivity.
Defined.

(** ** The next-scene button *)

Lemma findIndex_of_item n k sid :
  navItems_of n !! k = Some sid ->
  findIndex (fun x => bool_decide (x = sid)) (navItems_of n) = Z.of_nat k.
Proof.
  intros Hk.
  destruct (findIndex_spec (fun x => bool_decide (x = sid)) (navItems_of n))
    as [[_ Hall]|(k' & Hk' & (x & Hx & Hfx) & _)].
  - specialize (Hall _ _ Hk). rewrite bool_decide_eq_true_2 in Hall by reflexivity.
    discriminate.
  - apply bool_decide_eq_true in Hfx. subst x.
    rewrite Hk'. f_equal. exact (navItems_of_index_unique n _ _ _ Hx Hk).
Qed.

(** X5. The scene after the scene at position [k] of the sidebar is the
    one at position [k + 1], and there is none after the last. For a scene
    id that is not in the sidebar the search gives [-1], so that the "next"
    scene is the first item, the cover. *)
Theorem next_scene_follows (p : Project) (sceneId : jstring) :
  (forall k, navItems_of (totalPages p) !! k = Some sceneId ->
             getNextScene p sceneId = navItems_of (totalPages p) !! S k)
  /\ (sceneId ∉ navItems_of (totalPages p) ->
        getNextScene p sceneId = Some (str "cover"))
  /\ getNextScene p (str "end") = None
  /\ (forall i, 1 <= i < totalPages p ->
                getNextScene p (String_of_nat i) = Some (String_of_nat (S i)))
  /\ (0 < totalPages p ->
        getNextScene p (str "cover") = Some (str "1")
        /\ getNextScene p (String_of_nat (totalPages p)) = Some (str "end")).
Proof.
  assert (forall k sid, navItems_of (totalPages p) !! k = Some sid ->
             getNextScene p sid = navItems_of (totalPages p) !! S k) as Hat.
  { intros k sid Hk. unfold getNextScene.
    rewrite (findIndex_of_item _ _ _ Hk). f_equal. lia. }
  split; [intros k; apply Hat|]. split.
  - intros Hnot. unfold getNextScene.
    destruct (findIndex_spec (fun x => bool_decide (x = sceneId))
                (navItems_of (totalPages p)))
      as [[-> _]|(k' & _ & (x & Hx & Hfx) & _)]; [reflexivity|].
    apply bool_decide_eq_true in Hfx. subst x.
    exfalso. apply Hnot. eapply list_elem_of_lookup_2. exact Hx.
  - split.
    { rewrite (Hat (totalPages p + 1)).
      - rewrite navItems_of_lookup. repeat case_decide; try lia; reflexivity.
      - rewrite navItems_of_lookup. repeat case_decide; try lia; reflexivity. }
    split.
    { intros i Hi. rewrite (Hat i).
      - rewrite navItems_of_lookup. repeat case_decide; try lia; reflexivity.
      - rewrite navItems_of_lookup. repeat case_decide; try lia; reflexivity. }
    intros Hn. split.
    + rewrite (Hat 0) by reflexivity.
      rewrite navItems_of_lookup. repeat case_decide; try lia; reflexivity.
    + rewrite (Hat (totalPages p)).
      * rewrite navItems_of_lookup. repeat case_decide; try lia; reflexivity.
      * rewrite navItems_of_lookup. repeat case_decide; try lia; reflexivity.
Qed.

Lemma next_scene_follows_witness :
  getNextScene Samples.book (str "cover") = Some (str "1")
  /\ getNextScene Samples.book (str "2") = Some (str "end")
  /\ getNextScene Samples.book (str "nowhere") = Some (str "cover").
Proof.
  destruct (next_scene_follows Samples.book (str "cover"))
    as (_ & _ & _ & _ & Hfirst).
  destruct (next_scene_follows Samples.book (str "nowhere"))
    as (_ & Hout & _).
  destruct Hfirst as [Hc Hlast]; [vm_compute; lia|].
  split; [exact Hc|]. split; [exact Hlast|].
  apply Hout. vm_compute. intros H.
  repeat (apply elem_of_cons in H as [H|H]; [discriminate H|]).
  inversion H.
Defined.

(** ** The pages of a layout *)

Lemma blank_or_not s : {blank s} + {~ blank s}.
Proof. unfold blank. apply Forall_dec. intros c. apply bool_dec. Qed.

Lemma filter_nonblank_cons_blank (t : jstring) ts :
  blank t ->
  filter (fun p => trim p <> []) (t :: ts) = filter (fun p => trim p <> []) ts.
Proof.
  intros Hb. rewrite filter_cons_False; [reflexivity|].
  intros H. apply H, trim_nil_iff, Hb.
Qed.

(** After a page, the separator runs over the two line feeds and over
    every blank page that follows, and stops before the next page that is
    not blank. *)
Lemma star_newline_over_blank_pages ts :
  Forall newline_free ts ->
  forall ws, blank ws ->
  exists ts',
    star_newline (ws ++ 10%N :: concat (map (fun t => t ++ nl ++ nl) ts))
    = Some (concat (map (fun t => t ++ nl ++ nl) ts'))
    /\ filter (fun p => trim p <> []) ts' = filter (fun p => trim p <> []) ts
    /\ length ts' <= length ts
    /\ Forall newline_free ts'.
Proof.
  induction 1 as [|t ts Ht Hts IH]; intros ws Hws.
  - exists []. simpl. rewrite (star_newline_last ws [] Hws eq_refl).
    repeat split; auto.
  - destruct (blank_or_not t) as [Hb|Hnb].
    + destruct (IH (ws ++ 10%N :: t ++ [10%N])) as (ts' & Hstar & Hf & Hlen & Hnf).
      { apply Forall_app. split; [exact Hws|].
        constructor; [reflexivity|]. apply Forall_app. split; [exact Hb|].
        constructor; [reflexivity|constructor]. }
      exists ts'. split.
      { rewrite <- Hstar. f_equal. simpl. unfold nl.
        rewrite <- !app_assoc. simpl. rewrite <- !app_assoc. reflexivity. }
      split; [rewrite filter_nonblank_cons_blank by exact Hb; exact Hf|].
      split; [simpl; lia|exact Hnf].
    + exists (t :: ts). split.
      { apply star_newline_last; [exact Hws|]. simpl.
        rewrite <- app_assoc. apply star_newline_nonblank; assumption. }
      split; [reflexivity|]. split; [lia|]. constructor; assumption.
Qed.

Lemma split_page_texts n : forall ts cur,
  length ts <= n ->
  Forall newline_free ts ->
  filter (fun p => trim p <> [])
    (split_from (concat (map (fun t => t ++ nl ++ nl) ts)) cur)
  = match ts with
    | [] => filter (fun p => trim p <> []) [cur]
    | t :: rest => filter (fun p => trim p <> []) ((cur ++ t) :: rest)
    end.
Proof.
  induction n as [|n IH]; intros ts cur Hlen Hnf.
  - destruct ts; [|simpl in Hlen; lia]. simpl. simp split_from. reflexivity.
  - destruct ts as [|t rest]; [simpl; simp split_from; reflexivity|].
    apply Forall_cons in Hnf as [Ht Hrest]. simpl.
    rewrite <- app_assoc, split_from_newline_free by exact Ht.
    destruct (star_newline_over_blank_pages rest Hrest [])
      as (ts' & Hstar & Hf & Hlen' & Hnf'); [constructor|].
    change ((nl ++ nl) ++ concat (map (fun t0 => t0 ++ nl ++ nl) rest))
      with (10%N :: 10%N :: concat (map (fun t0 => t0 ++ nl ++ nl) rest)).
    change (star_newline ([] ++ 10%N :: concat (map (fun t0 => t0 ++ nl ++ nl) rest)))
      with (match_separator
              (10%N :: 10%N :: concat (map (fun t0 => t0 ++ nl ++ nl) rest)))
      in Hstar.
    rewrite (split_from_cons_Some _ _ _ _ Hstar).
    rewrite !filter_cons. f_equal.
    rewrite (IH ts' []) by (try assumption; simpl in Hlen; lia).
    rewrite <- Hf. destruct ts' as [|t' r']; [|reflexivity].
    rewrite filter_cons_False; [reflexivity|].
    intros H. apply H. reflexivity.
Qed.

Lemma fullText_of_concat pdf :
  fullText_of pdf = concat (map (fun t => t ++ nl ++ nl) (page_texts pdf)).
Proof.
  unfold fullText_of, page_texts.
  assert (forall items acc,
             foldl (fun fullText its => fullText ++ join (str " ") its ++ nl ++ nl)
                   acc items
             = acc ++ concat (map (fun t => t ++ nl ++ nl)
                                  (map (join (str " ")) items))) as H.
  { induction items as [|its items IH]; intros acc; simpl.
    - rewrite app_nil_r. reflexivity.
    - rewrite IH, <- !app_assoc. reflexivity. }
  exact (H (pageItems pdf) []).
Qed.

Lemma join_newline_free items :
  Forall newline_free items -> newline_free (join (str " ") items).
Proof.
  induction 1 as [|x rest Hx Hrest IH]; [constructor|].
  destruct rest as [|y rest]; [exact Hx|].
  change (join (str " ") (x :: y :: rest))
    with (x ++ str " " ++ join (str " ") (y :: rest)).
  apply Forall_app. split; [exact Hx|].
  apply Forall_app. split; [|exact IH].
  constructor; [reflexivity|constructor].
Qed.

(** X6. When no text item of a layout contains a line feed, the pages
    that ingestion makes of it are the pages of the layout that are not
    blank, in order, each with the items of its page joined by spaces: a
    blank page of the layout gives no scene and shifts the numbers of the
    pages after it. When no page is blank there is one scene per page of
    the layout. *)
Theorem layout_pages (pdf : PdfDocument) :
  Forall (Forall newline_free) (pageItems pdf) ->
  pages_of (fullText_of pdf)
  = filter (fun p => trim p <> []) (page_texts pdf)
  /\ (Forall (fun p => trim p <> []) (page_texts pdf) ->
        pages_of (fullText_of pdf) = page_texts pdf
        /\ (pageItems pdf <> [] ->
              totalPages_of (fullText_of pdf) = length (pageItems pdf))).
Proof.
  intros Hitems.
  assert (Forall newline_free (page_texts pdf)) as Hnf.
  { unfold page_texts. apply Forall_fmap.
    eapply Forall_impl; [exact Hitems|].
    intros items Hi. apply join_newline_free, Hi. }
  assert (pages_of (fullText_of pdf)
          = filter (fun p => trim p <> []) (page_texts pdf)) as Hpages.
  { unfold pages_of, split_pages. rewrite fullText_of_concat.
    rewrite (split_page_texts (length (page_texts pdf)) (page_texts pdf) [])
      by (try assumption; lia).
    destruct (page_texts pdf) as [|t rest]; [|reflexivity].
    rewrite filter_cons_False; [reflexivity|]. intros H. apply H. reflexivity. }
  split; [exact Hpages|].
  intros Hall.
  assert (pages_of (fullText_of pdf) = page_texts pdf) as Hsame.
  { rewrite Hpages. clear Hpages Hnf.
    induction Hall as [|t rest Ht _ IH]; [reflexivity|].
    rewrite filter_cons_True by exact Ht. f_equal. exact IH. }
  split; [exact Hsame|].
  intros Hne. unfold totalPages_of. rewrite Hsame.
  unfold page_texts. rewrite length_map.
  destruct (pageItems pdf); [contradiction|reflexivity].
Qed.

Lemma layout_pages_witness :
  let pdf := {| pageItems := [[str "Once"; str "upon"]; [str " "]; [str "The end"]];
                coverImage := [] |} in
  Forall (Forall newline_free) (pageItems pdf)
  /\ pages_of (fullText_of pdf) = [str "Once upon"; str "The end"].
Proof.
  split.
  - repeat constructor.
  - pose proof (layout_pages
                  {| pageItems := [[str "Once"; str "upon"]; [str " "]; [str "The end"]];
                     coverImage := [] |}) as H.
    destruct H as [H _]; [repeat constructor|].
    rewrite H. unfold page_texts. simpl map.
    rewrite filter_cons_True by (vm_compute; discriminate).
    rewrite filter_cons_False by (vm_compute; intros H'; apply H'; reflexivity).
    rewrite filter_cons_True by (vm_compute; discriminate).
    reflexivity.
Defined.
(** ** Workspaces *)

Lemma pointers_app es1 es2 :
  pointers (es1 ++ es2) = pointers es1 ++ pointers es2.
Proof. apply omap_app. Qed.

Lemma busy_flags_app es1 es2 :
  busy_flags (es1 ++ es2) = busy_flags es1 ++ busy_flags es2.
Proof. apply omap_app. Qed.

Lemma currentSceneId_run es st :
  currentSceneId (run es st)
  = default (currentSceneId st) (last (pointers es)).
Proof.
  revert st. induction es as [|e es IH]; intros st; [reflexivity|].
  change (run (e :: es) st) with (run es (apply_event st e)).
  rewrite IH. destruct e; simpl; try reflexivity.
  destruct (pointers es) as [|x l] eqn:E; [reflexivity|].
  simpl. rewrite last_cons. destruct (last l); reflexivity.
Qed.

(** What a handler leaves of a workspace: its updates applied in order,
    and the pointer where the last call to [setCurrentSceneId] put it. *)
Lemma workspace_run_spec es w :
  workspace_run es w
  = (default (fst w) (head (commit es [fst w])),
     default (snd w) (last (pointers es))).
Proof.
  unfold workspace_run. cbv zeta.
  rewrite projects_run, currentSceneId_run. reflexivity.
Qed.

Lemma workspace_run_quiet es w :
  updates es = [] -> pointers es = [] -> workspace_run es w = w.
Proof.
  intros Hu Hp. rewrite workspace_run_spec. unfold commit.
  rewrite Hu, Hp. destruct w; reflexivity.
Qed.

Lemma workspace_run_update es w d :
  updates es = [(id (fst w), d)] ->
  workspace_run es w
  = (spread (fst w) d, default (snd w) (last (pointers es))).
Proof.
  intros Hu. rewrite workspace_run_spec. unfold commit. rewrite Hu.
  simpl. rewrite decide_True by reflexivity. reflexivity.
Qed.

Lemma scene_completed_insert_mono p p' sid s x :
  scenes p' = <[sid := s]> (scenes p) ->
  status s = completed ->
  scene_completed p x -> scene_completed p' x.
Proof.
  intros Hs Hc (s0 & Hx & Hst). unfold scene_completed. rewrite Hs.
  destruct (decide (sid = x)) as [->|Hne].
  - exists s. rewrite lookup_insert_eq. auto.
  - exists s0. rewrite lookup_insert_ne by exact Hne. auto.
Qed.

Lemma scene_completed_insert_inv p p' sid s x :
  scenes p' = <[sid := s]> (scenes p) ->
  scene_completed p' x -> x = sid \/ scene_completed p x.
Proof.
  intros Hs (s0 & Hx & Hst). rewrite Hs in Hx.
  destruct (decide (sid = x)) as [->|Hne]; [left; reflexivity|].
  rewrite lookup_insert_ne in Hx by exact Hne. right. exists s0. auto.
Qed.

Lemma navItems_of_cover_index n k :
  navItems_of n !! k = Some (str "cover") -> k = 0.
Proof.
  intros H. apply (navItems_of_index_unique n k 0 (str "cover") H).
  reflexivity.
Qed.

Lemma cover_in_navItems_of n : str "cover" ∈ navItems_of n.
Proof. unfold navItems_of. left. Qed.

(** The three parts of the sequential order of a workspace. *)
Local Abbreviation in_order w :=
  (completed_in_order (fst w) /\ pointer_allowed w
   /\ snd w ∈ navItems_of (totalPages (fst w))).

Lemma in_order_cover p :
  completed_in_order p -> in_order (p, str "cover").
Proof.
  intros Ho. split; [exact Ho|]. split; [|apply cover_in_navItems_of].
  intros k i sid Hk Hi. apply navItems_of_cover_index in Hk. simpl in *. lia.
Qed.

Lemma in_order_first_pending p f :
  completed_in_order p ->
  find (not_completed p) (navItems_of (totalPages p)) = Some f ->
  in_order (p, f).
Proof.
  intros Ho Hfind. split; [exact Ho|].
  destruct (find_first _ _ _ Hfind) as (k & Hk & Hbefore).
  split.
  - intros k' i sid Hk' Hi Hsid. simpl in *.
    assert (k' = k) as -> by (eapply navItems_of_index_unique; eauto).
    apply not_completed_false. eapply Hbefore; eauto.
  - simpl. eapply list_elem_of_lookup_2. exact Hk.
Qed.

Lemma in_order_enabled p index sid :
  completed_in_order p ->
  navItems p !! index = Some sid ->
  isDisabled p index = false ->
  in_order (p, sid).
Proof.
  intros Ho Hidx Hen.
  assert (0 < totalPages p) as Hpos.
  { unfold navItems in Hidx. destruct (0 <? totalPages p) eqn:E.
    - apply Nat.ltb_lt in E. exact E.
    - destruct index; discriminate. }
  rewrite (navItems_when_pages p Hpos) in Hidx.
  split; [exact Ho|]. split; [|eapply list_elem_of_lookup_2; exact Hidx].
  intros k i x Hk Hi Hx. simpl in *.
  assert (k = index) as -> by (eapply navItems_of_index_unique; eauto).
  apply not_completed_false.
  unfold isDisabled, firstPendingSceneIndex in Hen.
  rewrite (navItems_when_pages p Hpos) in Hen.
  destruct (findIndex_spec (not_completed p) (navItems_of (totalPages p)))
    as [[Hm Hall]|(k & Hk' & _ & Hbefore)].
  - eapply Hall. exact Hx.
  - rewrite Hk' in Hen.
    apply andb_false_iff in Hen as [Hen|Hen].
    + apply negb_false_iff, Z.eqb_eq in Hen. lia.
    + apply Z.ltb_ge in Hen. eapply Hbefore; [|exact Hx]. lia.
Qed.

Lemma in_order_next p ptr next :
  in_order (p, ptr) ->
  scene_completed p ptr ->
  getNextScene p ptr = Some next ->
  in_order (p, next).
Proof.
  intros (Ho & Hp & Hin) Hc Hnext. simpl in *.
  split; [exact Ho|].
  apply list_elem_of_lookup in Hin as [k Hk].
  unfold getNextScene in Hnext. cbv zeta in Hnext.
  rewrite (findIndex_of_item _ _ _ Hk) in Hnext.
  replace (Z.to_nat (Z.of_nat k + 1)) with (S k) in Hnext by lia.
  split; [|eapply list_elem_of_lookup_2; exact Hnext].
  intros k' i x Hk' Hi Hx. simpl in *.
  assert (k' = S k) as -> by (eapply navItems_of_index_unique; eauto).
  destruct (decide (i = k)) as [->|Hne].
  - assert (x = ptr) as -> by congruence. exact Hc.
  - apply (Hp k i x Hk); [lia|exact Hx].
Qed.

Lemma in_order_complete_current p p' ptr s :
  in_order (p, ptr) ->
  totalPages p' = totalPages p ->
  scenes p' = <[ptr := s]> (scenes p) ->
  status s = completed ->
  in_order (p', ptr).
Proof.
  intros (Ho & Hp & Hin) Htp Hs Hst. simpl in *.
  split; [|split].
  - intros i j sid_i sid_j Hij Hi Hj Hc. rewrite Htp in Hi, Hj.
    destruct (scene_completed_insert_inv p p' ptr s sid_j Hs Hc) as [->|Hc'].
    + eapply scene_completed_insert_mono; eauto.
    + eapply scene_completed_insert_mono; eauto.
  - intros k i sid Hk Hi Hsid. simpl in *. rewrite Htp in Hk, Hsid.
    eapply scene_completed_insert_mono; eauto.
  - simpl. rewrite Htp. exact Hin.
Qed.

Lemma in_order_ingested p' text cover :
  totalPages p' = totalPages_of text ->
  scenes p' = scenes_of text
  \/ scenes p' = <[str "cover" := cover]> (scenes_of text) ->
  in_order (p', str "cover").
Proof.
  intros Htp Hs. apply in_order_cover.
  intros i j sid_i sid_j Hij Hi Hj (s & Hsj & Hst).
  assert (sid_j = str "cover") as ->.
  { destruct Hs as [Hs|Hs]; rewrite Hs in Hsj.
    - apply scenes_of_pending in Hsj as [Hpend _]. congruence.
    - destruct (decide (str "cover" = sid_j)) as [<-|Hne]; [reflexivity|].
      rewrite lookup_insert_ne in Hsj by exact Hne.
      apply scenes_of_pending in Hsj as [Hpend _]. congruence. }
  apply navItems_of_cover_index in Hj. lia.
Qed.

Section Workspaces.

Variable JSON_parse : jstring -> result json.
Variable TypeError_message : option json -> jstring -> jstring.

Local Abbreviation jsx_upload :=
  (Jsx.handleFileChange JSON_parse TypeError_message).
Local Abbreviation jsx_generate :=
  (Jsx.handleGenerate JSON_parse TypeError_message).

(** An upload in the JSX build changes nothing, or sends its one update
    for a story text that is not blank and then points at the cover. *)
Lemma jsx_upload_outcome fetch pdfjsLib project file :
  (updates (jsx_upload fetch pdfjsLib project file) = []
   /\ pointers (jsx_upload fetch pdfjsLib project file) = [])
  \/ exists storyText newPrompt extracted_title extracted_author,
       trim storyText <> [] /\ newPrompt <> JNull
       /\ updates (jsx_upload fetch pdfjsLib project file)
          = [(id project,
              Jsx.finalProjectState project storyText newPrompt
                extracted_title extracted_author)]
       /\ pointers (jsx_upload fetch pdfjsLib project file) = [str "cover"].
Proof.
  destruct file as [file|]; [|left; split; reflexivity].
  destruct (endsWith (file_name file) (str ".pdf")) eqn:Hpdf;
    [|left; unfold Jsx.handleFileChange, Jsx.ingest, Jsx.read_layout;
      rewrite Hpdf; split; reflexivity].
  destruct pdfjsLib;
    [|left; unfold Jsx.handleFileChange, Jsx.ingest, Jsx.read_layout;
      rewrite Hpdf; split; reflexivity].
  destruct (file_pdf file) as [pdf|m] eqn:Hfile;
    [|left; unfold Jsx.handleFileChange, Jsx.ingest, Jsx.read_layout;
      rewrite Hpdf, Hfile; split; reflexivity].
  destruct (truthy_string (trim (fullText_of pdf))) eqn:Htrim;
    [|left; unfold Jsx.handleFileChange, Jsx.ingest, Jsx.read_layout;
      rewrite Hpdf, Hfile; unfold_M; simpl; rewrite Htrim; split; reflexivity].
  unfold Jsx.handleFileChange, try_catch_finally.
  rewrite (ingest_unfold JSON_parse TypeError_message fetch project file pdf
             Hpdf Hfile Htrim). cbv zeta.
  destruct (snd (generateScene JSON_parse TypeError_message fetch
                   (Jsx.initialProjectState project (fullText_of pdf))
                   (str "cover") (coverImage pdf) [])) as [newPrompt|m0];
    [|left; split; reflexivity].
  assert (trim (fullText_of pdf) <> []) as Hne
    by (intros E; rewrite E in Htrim; discriminate).
  destruct newPrompt; simpl; try (left; split; reflexivity);
    right; eexists _, _, _, _;
    (split; [exact Hne|]); (split; [|split; reflexivity]); discriminate.
Qed.

(** A click on "Generate Scene" never moves the pointer. *)
Lemma jsx_generate_pointers fetch project sceneId isRegenerating
    imageBase64 feedback :
  pointers (jsx_generate fetch project sceneId isRegenerating
              imageBase64 feedback) = [].
Proof.
  destruct (Jsx.missing_illustration sceneId imageBase64 isRegenerating)
    eqn:Hguard.
  - unfold Jsx.handleGenerate. rewrite Hguard. reflexivity.
  - rewrite (handleGenerate_unfold _ _ _ _ _ _ _ _ Hguard).
    rewrite generate_unfold. cbv zeta.
    destruct (snd (generateScene JSON_parse TypeError_message fetch project
                     sceneId imageBase64 feedback)) as [newPrompt|m0];
      [|reflexivity].
    destruct (Jsx.projectUpdates_of TypeError_message project sceneId
                newPrompt sampleVideo) as [d|m0]; reflexivity.
Qed.

Lemma jsx_ui_step_in_order w w' :
  Jsx.ui_step JSON_parse TypeError_message w w' ->
  in_order w -> in_order w'.
Proof.
  intros Hstep Hw. destruct Hstep as
    [w|w index|w Hview|w fetch pdfjsLib file Hview
    |w fetch imageBase64 feedback es Hclick|w].
  - (* the effect *)
    unfold Jsx.ProjectWorkspace_effect.
    destruct (truthy_string (storyText (fst w))).
    + destruct (find (not_completed (fst w))
                  (navItems_of (totalPages (fst w)))) as [f|] eqn:Hfind;
        [|rewrite workspace_run_nil; exact Hw].
      destruct (truthy_string f && negb (bool_decide (f = snd w)));
        [|rewrite workspace_run_nil; exact Hw].
      rewrite workspace_run_pointer.
      apply in_order_first_pending; [apply Hw|exact Hfind].
    + rewrite workspace_run_pointer. apply in_order_cover, Hw.
  - (* a sidebar item *)
    unfold clickNavItem.
    destruct (navItems (fst w) !! index) as [sid|] eqn:Hidx;
      [|rewrite workspace_run_nil; exact Hw].
    destruct (isDisabled (fst w) index) eqn:Hen;
      [rewrite workspace_run_nil; exact Hw|].
    rewrite workspace_run_pointer.
    eapply in_order_enabled; [apply Hw|exact Hidx|exact Hen].
  - (* the next-scene button *)
    unfold goToNextScene.
    destruct (getNextScene (fst w) (snd w)) as [next|] eqn:Hnext;
      [|rewrite workspace_run_nil; exact Hw].
    destruct (truthy_string next); [|rewrite workspace_run_nil; exact Hw].
    rewrite workspace_run_pointer.
    apply (in_order_next (fst w) (snd w) next); [exact Hw| |exact Hnext].
    unfold SceneGenerator in Hview.
    destruct (negb (truthy_string (storyText (fst w)))); [discriminate|].
    destruct (scenes (fst w) !! snd w) as [s|] eqn:Hs; [|discriminate].
    case_bool_decide; [|discriminate]. exists s. auto.
  - (* an upload *)
    destruct (jsx_upload_outcome fetch pdfjsLib (fst w) file)
      as [[Hu Hp]|(storyText & newPrompt & et & ea & Hne & _ & Hu & Hp)].
    + rewrite workspace_run_quiet by assumption. exact Hw.
    + rewrite (workspace_run_update _ _ _ Hu), Hp.
      apply (in_order_ingested _ storyText
               {| status := completed; text := None;
                  prompt := Some newPrompt; videoUrl := Some sampleVideo |});
        [reflexivity|right; reflexivity].
  - (* a generation *)
    assert (exists isRegenerating,
               es = jsx_generate fetch (fst w) (snd w) isRegenerating
                      imageBase64 feedback) as [isRegenerating ->].
    { unfold Jsx.clickGenerate in Hclick.
      destruct (SceneGenerator (fst w) (snd w)); [discriminate| |];
        injection Hclick as <-; eauto. }
    pose proof (jsx_generate_pointers fetch (fst w) (snd w) isRegenerating
                  imageBase64 feedback) as Hp.
    destruct (handleGenerate_updates JSON_parse TypeError_message fetch
                (fst w) (snd w) isRegenerating imageBase64 feedback)
      as [Hu|(newPrompt & d & Hd & Hu)].
    + rewrite workspace_run_quiet by assumption. exact Hw.
    + rewrite (workspace_run_update _ _ _ Hu), Hp.
      apply projectUpdates_of_shape in Hd as (Hsc & _ & _ & Htp & _).
      destruct w as [p ptr].
      change (default (snd (p, ptr)) (last [])) with ptr.
      change (fst (p, ptr)) with p in *.
      change (snd (p, ptr)) with ptr in *.
      refine (in_order_complete_current p (spread p d) ptr _ Hw _ _ _).
      * unfold spread. simpl. rewrite Htp. reflexivity.
      * unfold spread. simpl. rewrite Hsc. reflexivity.
      * reflexivity.
  - (* the workspace is opened anew *)
    apply in_order_cover, Hw.
Qed.

End Workspaces.

(** An upload in the plain build changes nothing, or sends its one
    update for a text that is not blank and then points at the cover. *)
Lemma plain_upload_outcome project file :
  (updates (Plain.handleFileChange project file) = []
   /\ pointers (Plain.handleFileChange project file) = [])
  \/ exists text,
       trim text <> []
       /\ updates (Plain.handleFileChange project file)
          = [(id project,
              {| set_id := None;
                 set_name := Some (JStr (str "My Animation Project"));
                 set_author := Some (JStr (str "Author Name"));
                 set_storyText := Some text;
                 set_totalPages := Some (totalPages_of text);
                 set_scenes := Some (scenes_of text);
                 set_createdAt := None |})]
       /\ pointers (Plain.handleFileChange project file) = [str "cover"].
Proof.
  destruct file as [file|]; [|left; split; reflexivity].
  unfold Plain.handleFileChange, Plain.ingest, try_catch_finally.
  destruct (endsWith (file_name file) (str ".pdf"));
    [left; split; reflexivity|].
  destruct (endsWith (file_name file) (str ".txt"));
    [|left; split; reflexivity].
  unfold_M. simpl.
  destruct (truthy_string (trim (file_text file))) eqn:Htrim;
    [|left; split; reflexivity].
  right. exists (file_text file). split; [|split; reflexivity].
  intros E. rewrite E in Htrim. discriminate.
Qed.

Section PlainWorkspaces.

Variable parseInt : jstring -> option Q.

Lemma plain_ui_step_in_order w w' :
  Plain.ui_step parseInt w w' -> in_order w -> in_order w'.
Proof.
  intros Hstep Hw. destruct Hstep as
    [w|w index|w Hview|w file Hview|w es Hclick|w].
  - (* the effect *)
    unfold Plain.ProjectWorkspace_effect.
    destruct (truthy_string (storyText (fst w))
              && not_completed (fst w) (snd w));
      [|rewrite workspace_run_nil; exact Hw].
    destruct (find (not_completed (fst w))
                (navItems_of (totalPages (fst w)))) as [f|] eqn:Hfind;
      [|rewrite workspace_run_nil; exact Hw].
    destruct (truthy_string f && negb (bool_decide (f = snd w)));
      [|rewrite workspace_run_nil; exact Hw].
    rewrite workspace_run_pointer.
    apply in_order_first_pending; [apply Hw|exact Hfind].
  - (* a sidebar item *)
    unfold clickNavItem.
    destruct (navItems (fst w) !! index) as [sid|] eqn:Hidx;
      [|rewrite workspace_run_nil; exact Hw].
    destruct (isDisabled (fst w) index) eqn:Hen;
      [rewrite workspace_run_nil; exact Hw|].
    rewrite workspace_run_pointer.
    eapply in_order_enabled; [apply Hw|exact Hidx|exact Hen].
  - (* the next-scene button *)
    unfold goToNextScene.
    destruct (getNextScene (fst w) (snd w)) as [next|] eqn:Hnext;
      [|rewrite workspace_run_nil; exact Hw].
    destruct (truthy_string next); [|rewrite workspace_run_nil; exact Hw].
    rewrite workspace_run_pointer.
    apply (in_order_next (fst w) (snd w) next); [exact Hw| |exact Hnext].
    unfold SceneGenerator in Hview.
    destruct (negb (truthy_string (storyText (fst w)))); [discriminate|].
    destruct (scenes (fst w) !! snd w) as [s|] eqn:Hs; [|discriminate].
    case_bool_decide; [|discriminate]. exists s. auto.
  - (* an upload *)
    destruct (plain_upload_outcome (fst w) file)
      as [[Hu Hp]|(text & Hne & Hu & Hp)].
    + rewrite workspace_run_quiet by assumption. exact Hw.
    + rewrite (workspace_run_update _ _ _ Hu), Hp.
      apply (in_order_ingested _ text (pending_scene None));
        [reflexivity|left; reflexivity].
  - (* a generation *)
    unfold Plain.clickGenerate in Hclick.
    destruct (SceneGenerator (fst w) (snd w)); try discriminate.
    injection Hclick as <-.
    destruct w as [p ptr].
    change (fst (p, ptr)) with p in *. change (snd (p, ptr)) with ptr in *.
    rewrite (workspace_run_update _ _
               {| set_id := None; set_name := None; set_author := None;
                  set_storyText := None; set_totalPages := None;
                  set_scenes :=
                    Some (<[ptr := {| status := completed;
                                      text := scenes p !! ptr ≫= text;
                                      prompt := Some (Plain.mockPrompt parseInt ptr);
                                      videoUrl := Some sampleVideo |}]>
                            (scenes p));
                  set_createdAt := None |}) by reflexivity.
    refine (in_order_complete_current p _ ptr _ Hw _ _ _); reflexivity.
  - (* the workspace is opened anew *)
    apply in_order_cover, Hw.
Qed.

End PlainWorkspaces.

Lemma newProject_in_order now iso :
  completed_in_order (newProject now iso).
Proof.
  intros i j sid_i sid_j _ _ _ (s & Hs & _). simpl in Hs.
  rewrite lookup_empty in Hs. discriminate.
Qed.

(** The workspace of [Samples.book] on page 1: a new project, the upload
    of [Samples.layout], and the effect. *)
Lemma book_workspace_reachable :
  Jsx.ui_reachable Reader.JSON_parse Reader.TypeError_message
    (Samples.book, str "1").
Proof.
  exists 1, (str "2024-01-01T00:00:00.000Z").
  assert (workspace_run
            (Jsx.handleFileChange Reader.JSON_parse Reader.TypeError_message
               (Samples.service_replying Samples.title_and_author) true
               Samples.untitled (Some Samples.layout))
            (Samples.untitled, str "cover")
          = (Samples.book, str "cover")) as Hupload
    by (vm_compute; reflexivity).
  assert (workspace_run
            (Jsx.ProjectWorkspace_effect Samples.book (str "cover"))
            (Samples.book, str "cover")
          = (Samples.book, str "1")) as Heffect
    by (vm_compute; reflexivity).
  change (rtc (Jsx.ui_step Reader.JSON_parse Reader.TypeError_message)
            (Samples.untitled, str "cover") (Samples.book, str "1")).
  apply (rtc_l _ _ (Samples.book, str "cover")).
  - rewrite <- Hupload.
    apply (Jsx.ui_upload _ _ (Samples.untitled, str "cover")
             (Samples.service_replying Samples.title_and_author) true
             (Some Samples.layout)).
    reflexivity.
  - apply rtc_once. rewrite <- Heffect.
    apply (Jsx.ui_effect _ _ (Samples.book, str "cover")).
Qed.

(** ** What the records of a workspace hold *)

Lemma navItems_of_elem n sid :
  sid ∈ navItems_of n
  <-> sid = str "cover" \/ sid = str "end"
      \/ exists i, 1 <= i <= n /\ sid = String_of_nat i.
Proof.
  split.
  - intros H. apply list_elem_of_lookup in H as [k Hk].
    rewrite navItems_of_lookup in Hk.
    repeat case_decide; try discriminate; injection Hk as <-; eauto.
    right. right. exists k. split; [lia|reflexivity].
  - intros [->|[->|(i & Hi & ->)]].
    + apply cover_in_navItems_of.
    + apply (list_elem_of_lookup_2 _ (n + 1)). rewrite navItems_of_lookup.
      repeat case_decide; try lia; reflexivity.
    + apply (list_elem_of_lookup_2 _ i). rewrite navItems_of_lookup.
      repeat case_decide; try lia; reflexivity.
Qed.

(** Ingestion makes a record for every sidebar item and for nothing
    else. *)
Lemma scenes_of_navItems text sid :
  is_Some (scenes_of text !! sid) <-> sid ∈ navItems_of (totalPages_of text).
Proof.
  rewrite navItems_of_elem. split.
  - apply scenes_of_keys.
  - intros [->|[->|(i & Hi & ->)]].
    + rewrite scenes_of_cover. eauto.
    + rewrite scenes_of_end. eauto.
    + rewrite scenes_of_page by exact Hi. eauto.
Qed.

Lemma records_match_new now iso : records_match_story (newProject now iso).
Proof. left. repeat split. Qed.

Lemma records_match_ingested p' story cover :
  trim story <> [] ->
  storyText p' = story ->
  totalPages p' = totalPages_of story ->
  scenes p' = scenes_of story
  \/ (scenes p' = <[str "cover" := cover]> (scenes_of story)
      /\ text cover = None) ->
  records_match_story p'.
Proof.
  intros Hne Hst Htp Hs. right. rewrite Hst. split; [exact Hne|].
  split; [exact Htp|]. intros sid.
  destruct Hs as [->|[-> Hc]]; [reflexivity|].
  destruct (decide (str "cover" = sid)) as [<-|Hsid].
  - rewrite lookup_insert_eq, scenes_of_cover. simpl. rewrite Hc. reflexivity.
  - rewrite lookup_insert_ne by exact Hsid. reflexivity.
Qed.

Lemma records_match_generation p p' ptr s :
  records_match_story p ->
  storyText p <> [] ->
  ptr ∈ navItems_of (totalPages p) ->
  storyText p' = storyText p ->
  totalPages p' = totalPages p ->
  scenes p' = <[ptr := s]> (scenes p) ->
  text s = scenes p !! ptr ≫= text ->
  records_match_story p'.
Proof.
  intros [[Hst _]|(Hne & Htp & Hrec)] Hstory Hptr Hst' Htp' Hs Htext;
    [contradiction|].
  right. rewrite Hst', Htp'. split; [exact Hne|]. split; [exact Htp|].
  intros sid. rewrite Hs.
  destruct (decide (ptr = sid)) as [<-|Hsid].
  - rewrite lookup_insert_eq, <- Hrec. simpl. rewrite Htext.
    rewrite Htp in Hptr. apply scenes_of_navItems in Hptr as [s0 Hs0].
    specialize (Hrec ptr). rewrite Hs0 in Hrec.
    destruct (scenes p !! ptr) as [s1|]; [reflexivity|discriminate].
  - rewrite lookup_insert_ne by exact Hsid. apply Hrec.
Qed.

Lemma generate_needs_story p sid :
  SceneGenerator p sid <> LayoutUploader -> storyText p <> [].
Proof.
  unfold SceneGenerator. intros H Hst. rewrite Hst in H. apply H. reflexivity.
Qed.

Lemma uploader_needs_no_story p sid :
  SceneGenerator p sid = LayoutUploader -> storyText p = [].
Proof.
  unfold SceneGenerator. destruct (storyText p); [reflexivity|]. simpl.
  destruct (scenes p !! sid) as [s|]; [|discriminate].
  case_bool_decide; discriminate.
Qed.

Lemma workspace_run_no_update es w :
  updates es = [] -> fst (workspace_run es w) = fst w.
Proof.
  intros Hu. rewrite workspace_run_spec. unfold commit. rewrite Hu.
  reflexivity.
Qed.

Lemma jsx_effect_no_update p sid : updates (Jsx.ProjectWorkspace_effect p sid) = [].
Proof.
  unfold Jsx.ProjectWorkspace_effect.
  destruct (truthy_string (storyText p)); [|reflexivity].
  destruct (find (not_completed p) (navItems_of (totalPages p))) as [f|];
    [|reflexivity].
  destruct (truthy_string f && negb (bool_decide (f = sid))); reflexivity.
Qed.

Lemma plain_effect_no_update p sid :
  updates (Plain.ProjectWorkspace_effect p sid) = [].
Proof.
  unfold Plain.ProjectWorkspace_effect.
  destruct (truthy_string (storyText p) && not_completed p sid); [|reflexivity].
  destruct (find (not_completed p) (navItems_of (totalPages p))) as [f|];
    [|reflexivity].
  destruct (truthy_string f && negb (bool_decide (f = sid))); reflexivity.
Qed.

Lemma clickNavItem_no_update p index : updates (clickNavItem p index) = [].
Proof.
  unfold clickNavItem. destruct (navItems p !! index); [|reflexivity].
  destruct (isDisabled p index); reflexivity.
Qed.

Lemma goToNextScene_no_update p sid : updates (goToNextScene p sid) = [].
Proof.
  unfold goToNextScene. destruct (getNextScene p sid) as [n|]; [|reflexivity].
  destruct (truthy_string n); reflexivity.
Qed.

Section JsxInvariants.

Variable JSON_parse : jstring -> result json.
Variable TypeError_message : option json -> jstring -> jstring.

Lemma jsx_click_is_generate fetch p sid imageBase64 feedback es :
  Jsx.clickGenerate JSON_parse TypeError_message fetch p sid imageBase64
    feedback = Some es ->
  storyText p <> []
  /\ exists isRegenerating,
       es = Jsx.handleGenerate JSON_parse TypeError_message fetch p sid
              isRegenerating imageBase64 feedback.
Proof.
  unfold Jsx.clickGenerate. intros H. split.
  - apply (generate_needs_story p sid). intros E. rewrite E in H. discriminate.
  - destruct (SceneGenerator p sid); [discriminate| |];
      injection H as <-; eauto.
Qed.

(** What a step of the JSX build does to the project: nothing, the
    update of an upload, or the update that completes the scene under the
    pointer. *)
Lemma jsx_ui_step_project w w' :
  Jsx.ui_step JSON_parse TypeError_message w w' ->
  fst w' = fst w
  \/ (storyText (fst w) = []
      /\ exists storyText newPrompt extracted_title extracted_author,
           trim storyText <> [] /\ newPrompt <> JNull
           /\ w' = (spread (fst w)
                      (Jsx.finalProjectState (fst w) storyText newPrompt
                         extracted_title extracted_author), str "cover"))
  \/ (storyText (fst w) <> []
      /\ exists newPrompt d,
           Jsx.projectUpdates_of TypeError_message (fst w) (snd w) newPrompt
             sampleVideo = Ok d
           /\ w' = (spread (fst w) d, snd w)).
Proof.
  intros Hstep. destruct Hstep as
    [w|w index|w Hview|w fetch pdfjsLib file Hview
    |w fetch imageBase64 feedback es Hclick|w].
  - left. apply workspace_run_no_update, jsx_effect_no_update.
  - left. apply workspace_run_no_update, clickNavItem_no_update.
  - left. apply workspace_run_no_update, goToNextScene_no_update.
  - destruct (jsx_upload_outcome JSON_parse TypeError_message fetch pdfjsLib
                (fst w) file)
      as [[Hu Hp]|(storyText & newPrompt & et & ea & Hne & Hnull & Hu & Hp)].
    + left. rewrite workspace_run_quiet by assumption. reflexivity.
    + right. left. split; [exact (uploader_needs_no_story _ _ Hview)|].
      exists storyText, newPrompt, et, ea.
      split; [exact Hne|]. split; [exact Hnull|].
      rewrite (workspace_run_update _ _ _ Hu), Hp. reflexivity.
  - apply jsx_click_is_generate in Hclick as [Hstory [isRegenerating ->]].
    pose proof (jsx_generate_pointers JSON_parse TypeError_message fetch
                  (fst w) (snd w) isRegenerating imageBase64 feedback) as Hp.
    destruct (handleGenerate_updates JSON_parse TypeError_message fetch
                (fst w) (snd w) isRegenerating imageBase64 feedback)
      as [Hu|(newPrompt & d & Hd & Hu)].
    + left. rewrite workspace_run_quiet by assumption. reflexivity.
    + right. right. split; [exact Hstory|]. exists newPrompt, d.
      split; [exact Hd|].
      rewrite (workspace_run_update _ _ _ Hu), Hp. reflexivity.
  - left. reflexivity.
Qed.

Lemma jsx_ui_step_records w w' :
  Jsx.ui_step JSON_parse TypeError_message w w' ->
  snd w ∈ navItems_of (totalPages (fst w)) ->
  records_match_story (fst w) -> records_match_story (fst w').
Proof.
  intros Hstep Hptr Hrec.
  destruct (jsx_ui_step_project w w' Hstep)
    as [->|[(_ & storyText & newPrompt & et & ea & Hne & _ & ->)
           |(Hstory & newPrompt & d & Hd & ->)]].
  - exact Hrec.
  - apply (records_match_ingested _ storyText
             {| status := completed; text := None; prompt := Some newPrompt;
                videoUrl := Some sampleVideo |});
      [exact Hne|reflexivity|reflexivity|right; split; reflexivity].
  - apply projectUpdates_of_shape in Hd as (Hsc & _ & Hst & Htp & _).
    eapply (records_match_generation (fst w) _ (snd w));
      [exact Hrec|exact Hstory|exact Hptr| | | |].
    + unfold spread. simpl. rewrite Hst. reflexivity.
    + unfold spread. simpl. rewrite Htp. reflexivity.
    + unfold spread. simpl. rewrite Hsc. reflexivity.
    + reflexivity.
Qed.

Lemma jsx_reachable_records w :
  Jsx.ui_reachable JSON_parse TypeError_message w ->
  (completed_in_order (fst w) /\ pointer_allowed w
   /\ snd w ∈ navItems_of (totalPages (fst w)))
  /\ records_match_story (fst w).
Proof.
  intros (now & iso & Hr). revert w Hr.
  apply (rtc_ind_r
           (fun w => (completed_in_order (fst w) /\ pointer_allowed w
                      /\ snd w ∈ navItems_of (totalPages (fst w)))
                     /\ records_match_story (fst w))).
  - split; [apply in_order_cover, newProject_in_order|apply records_match_new].
  - intros y z _ Hstep [Ho Hrec]. split.
    + exact (jsx_ui_step_in_order JSON_parse TypeError_message y z Hstep Ho).
    + apply (jsx_ui_step_records y z Hstep); [apply Ho|exact Hrec].
Qed.

End JsxInvariants.

Section PlainInvariants.

Variable parseInt : jstring -> option Q.

Set Warnings "-inconsistent-scopes".

(** The record that the simulated generation writes. *)
Local Abbreviation mock_scene p sid :=
  {| status := completed;
     text := scenes p !! sid ≫= text;
     prompt := Some (Plain.mockPrompt parseInt sid);
     videoUrl := Some sampleVideo |}.

Local Abbreviation mock_update p sid :=
  {| set_id := None; set_name := None; set_author := None;
     set_storyText := None; set_totalPages := None;
     set_scenes := Some (<[sid := mock_scene p sid]> (scenes p));
     set_createdAt := None |}.

Local Abbreviation plain_update story :=
  {| set_id := None;
     set_name := Some (JStr (str "My Animation Project"));
     set_author := Some (JStr (str "Author Name"));
     set_storyText := Some story;
     set_totalPages := Some (totalPages_of story);
     set_scenes := Some (scenes_of story);
     set_createdAt := None |}.

Set Warnings "inconsistent-scopes".

(** What a step of the plain build does to the project: nothing, the
    update of an upload, or the update that completes the scene under the
    pointer. *)
Lemma plain_ui_step_project w w' :
  Plain.ui_step parseInt w w' ->
  fst w' = fst w
  \/ (storyText (fst w) = []
      /\ exists story,
           trim story <> []
           /\ w' = (spread (fst w) (plain_update story), str "cover"))
  \/ (storyText (fst w) <> []
      /\ ~ scene_completed (fst w) (snd w)
      /\ w' = (spread (fst w) (mock_update (fst w) (snd w)), snd w)).
Proof.
  intros Hstep. destruct Hstep as
    [w|w index|w Hview|w file Hview|w es Hclick|w].
  - left. apply workspace_run_no_update, plain_effect_no_update.
  - left. apply workspace_run_no_update, clickNavItem_no_update.
  - left. apply workspace_run_no_update, goToNextScene_no_update.
  - destruct (plain_upload_outcome (fst w) file)
      as [[Hu Hp]|(story & Hne & Hu & Hp)].
    + left. rewrite workspace_run_quiet by assumption. reflexivity.
    + right. left. split; [exact (uploader_needs_no_story _ _ Hview)|].
      exists story. split; [exact Hne|].
      rewrite (workspace_run_update _ _ _ Hu), Hp. reflexivity.
  - right. right. unfold Plain.clickGenerate in Hclick.
    destruct (SceneGenerator (fst w) (snd w)) eqn:Hview; try discriminate.
    injection Hclick as <-.
    split; [apply (generate_needs_story (fst w) (snd w)); congruence|].
    split.
    + intros (s & Hs & Hst). unfold SceneGenerator in Hview.
      rewrite Hs in Hview. rewrite bool_decide_eq_true_2 in Hview by exact Hst.
      destruct (negb (truthy_string (storyText (fst w)))); discriminate.
    + rewrite (workspace_run_update _ _ (mock_update (fst w) (snd w)))
        by reflexivity.
      reflexivity.
  - left. reflexivity.
Qed.

Lemma plain_ui_step_records w w' :
  Plain.ui_step parseInt w w' ->
  snd w ∈ navItems_of (totalPages (fst w)) ->
  records_match_story (fst w) -> records_match_story (fst w').
Proof.
  intros Hstep Hptr Hrec.
  destruct (plain_ui_step_project w w' Hstep)
    as [->|[(_ & story & Hne & ->)|(Hstory & _ & ->)]].
  - exact Hrec.
  - apply (records_match_ingested _ story (pending_scene None));
      [exact Hne|reflexivity|reflexivity|left; reflexivity].
  - eapply (records_match_generation (fst w) _ (snd w));
      [exact Hrec|exact Hstory|exact Hptr| | | |]; reflexivity.
Qed.

Lemma plain_ui_step_fields w w' :
  Plain.ui_step parseInt w w' ->
  fields_follow_status (fst w) -> fields_follow_status (fst w').
Proof.
  intros Hstep Hf.
  destruct (plain_ui_step_project w w' Hstep)
    as [->|[(_ & story & Hne & ->)|(Hstory & _ & ->)]].
  - exact Hf.
  - intros sid s Hs. simpl in Hs.
    apply scenes_of_pending in Hs as (-> & Hp & Hv). auto.
  - intros sid s Hs. simpl in Hs.
    destruct (decide (snd w = sid)) as [<-|Hsid].
    + rewrite lookup_insert_eq in Hs. injection Hs as <-. simpl.
      split; [|reflexivity]. eexists. split; [reflexivity|discriminate].
    + rewrite lookup_insert_ne in Hs by exact Hsid. exact (Hf sid s Hs).
Qed.

Lemma plain_reachable_records w :
  Plain.ui_reachable parseInt w ->
  (completed_in_order (fst w) /\ pointer_allowed w
   /\ snd w ∈ navItems_of (totalPages (fst w)))
  /\ records_match_story (fst w)
  /\ fields_follow_status (fst w).
Proof.
  intros (now & iso & Hr). revert w Hr.
  apply (rtc_ind_r
           (fun w => (completed_in_order (fst w) /\ pointer_allowed w
                      /\ snd w ∈ navItems_of (totalPages (fst w)))
                     /\ records_match_story (fst w)
                     /\ fields_follow_status (fst w))).
  - split; [apply in_order_cover, newProject_in_order|].
    split; [apply records_match_new|].
    intros sid s Hs. simpl in Hs. rewrite lookup_empty in Hs. discriminate.
  - intros y z _ Hstep (Ho & Hrec & Hf). split; [|split].
    + exact (plain_ui_step_in_order parseInt y z Hstep Ho).
    + apply (plain_ui_step_records y z Hstep); [apply Ho|exact Hrec].
    + exact (plain_ui_step_fields y z Hstep Hf).
Qed.

End PlainInvariants.

(** The readable form of [records_match_story] for an ingested project. *)
Lemma records_match_story_explicit p :
  records_match_story p ->
  (storyText p = [] /\ totalPages p = 0 /\ scenes p = ∅)
  \/ (trim (storyText p) <> []
      /\ totalPages p = totalPages_of (storyText p)
      /\ (forall sid, is_Some (scenes p !! sid)
                      <-> sid ∈ navItems_of (totalPages p))
      /\ (forall i s, 1 <= i <= totalPages p ->
                      scenes p !! String_of_nat i = Some s ->
                      text s = Some (page_text (pages_of (storyText p)) i))
      /\ (forall sid s, sid = str "cover" \/ sid = str "end" ->
                        scenes p !! sid = Some s -> text s = None)).
Proof.
  intros [H|(Hne & Htp & Hrec)]; [left; exact H|right].
  split; [exact Hne|]. split; [exact Htp|]. split; [|split].
  - intros sid. rewrite Htp, <- scenes_of_navItems.
    specialize (Hrec sid).
    destruct (scenes p !! sid), (scenes_of (storyText p) !! sid);
      try discriminate; split; intros [? ?]; try discriminate; eauto.
  - intros i s Hi Hs. specialize (Hrec (String_of_nat i)).
    rewrite Hs, scenes_of_page in Hrec by (rewrite <- Htp; exact Hi).
    simpl in Hrec. congruence.
  - intros sid s Hsid Hs. specialize (Hrec sid). rewrite Hs in Hrec.
    destruct Hsid as [->| ->].
    + rewrite scenes_of_cover in Hrec. simpl in Hrec. congruence.
    + rewrite scenes_of_end in Hrec. simpl in Hrec. congruence.
Qed.

(** Before an upload the sidebar is empty and the pointer is on the
    cover; after it, the pointer is an item of the sidebar. *)
Lemma pointer_in_sidebar (w : Workspace) :
  pointer_allowed w ->
  snd w ∈ navItems_of (totalPages (fst w)) ->
  records_match_story (fst w) ->
  (storyText (fst w) = [] -> navItems (fst w) = [] /\ snd w = str "cover")
  /\ (storyText (fst w) <> [] -> snd w ∈ navItems (fst w)).
Proof.
  intros Hp Hin [(Hst & Htp & Hsc)|(Hne & Htp & _)].
  - split; [intros _|intros Hs; contradiction].
    unfold navItems. rewrite Htp. split; [reflexivity|].
    rewrite Htp in Hin. apply navItems_of_elem in Hin.
    destruct Hin as [Hc|[He|(i & Hi & _)]]; [exact Hc| |lia].
    destruct (Hp 1 0 (str "cover")) as (s & Hs & _).
    + rewrite Htp, He. reflexivity.
    + lia.
    + rewrite Htp. reflexivity.
    + rewrite Hsc, lookup_empty in Hs. discriminate.
  - split; [intros Hs; rewrite Hs in Hne; contradiction|intros _].
    unfold navItems.
    assert (0 < totalPages (fst w)) as Hpos.
    { rewrite Htp. unfold totalPages_of.
      destruct (0 <? length (pages_of (storyText (fst w)))) eqn:E; [|lia].
      apply Nat.ltb_lt in E. exact E. }
    apply Nat.ltb_lt in Hpos. rewrite Hpos. exact Hin.
Qed.

(** X7. The sequential order of the workflow holds in every workspace
    that a user of either build can get to, starting from a new project
    and using the effect, the sidebar, the next-scene button, uploads and
    generations in any order and with any answers of the service, each
    handler running to its end before the next step: no scene is
    completed while a scene above it in the list cover, 1..N, end is not,
    the scene pointer is one of these ids, and every scene above the
    pointer is completed. While the project has no story text, the
    sidebar shows no item and the pointer is on the cover; once it has a
    story text, the pointer is an item of the sidebar. *)
Theorem workspace_in_order (JSON_parse : jstring -> result json)
    (TypeError_message : option json -> jstring -> jstring)
    (parseInt : jstring -> option Q) (w : Workspace) :
  Jsx.ui_reachable JSON_parse TypeError_message w
  \/ Plain.ui_reachable parseInt w ->
  completed_in_order (fst w)
  /\ pointer_allowed w
  /\ snd w ∈ navItems_of (totalPages (fst w))
  /\ (storyText (fst w) = [] ->
        navItems (fst w) = [] /\ snd w = str "cover")
  /\ (storyText (fst w) <> [] -> snd w ∈ navItems (fst w)).
Proof.
  intros Hr.
  assert ((completed_in_order (fst w) /\ pointer_allowed w
           /\ snd w ∈ navItems_of (totalPages (fst w)))
          /\ records_match_story (fst w)) as [(Ho & Hp & Hin) Hrec].
  { destruct Hr as [Hr|Hr].
    - apply (jsx_reachable_records JSON_parse TypeError_message w Hr).
    - destruct (plain_reachable_records parseInt w Hr) as (H & Hrec & _).
      split; [exact H|exact Hrec]. }
  split; [exact Ho|]. split; [exact Hp|]. split; [exact Hin|].
  apply pointer_in_sidebar; assumption.
Qed.

Lemma workspace_in_order_witness :
  Jsx.ui_reachable Reader.JSON_parse Reader.TypeError_message
    (Samples.book, str "1")
  /\ pointer_allowed (Samples.book, str "1")
  /\ completed_in_order Samples.book
  /\ str "1" ∈ navItems Samples.book.
Proof.
  split; [exact book_workspace_reachable|].
  destruct (workspace_in_order Reader.JSON_parse Reader.TypeError_message
              Reader.parseInt (Samples.book, str "1")
              (or_introl book_workspace_reachable))
    as (Ho & Hp & _ & _ & Hside).
  split; [exact Hp|]. split; [exact Ho|].
  apply Hside. vm_compute. discriminate.
Defined.

(** X8. In every workspace that a user of either build can get to,
    either nothing was ingested (no story text, no pages, no scene
    records), or the story text is not blank, the page count is the
    number of pages of the story text, the project has a scene record for
    each sidebar item and for nothing else, the record of page [i] holds
    the text of the [i]-th page of the story text, and the cover and the
    end scene hold no text. Generations and regenerations never change
    the text of a scene. *)
Theorem records_follow_story (JSON_parse : jstring -> result json)
    (TypeError_message : option json -> jstring -> jstring)
    (parseInt : jstring -> option Q) (w : Workspace) :
  Jsx.ui_reachable JSON_parse TypeError_message w
  \/ Plain.ui_reachable parseInt w ->
  let p := fst w in
  (storyText p = [] /\ totalPages p = 0 /\ scenes p = ∅)
  \/ (trim (storyText p) <> []
      /\ totalPages p = totalPages_of (storyText p)
      /\ (forall sid, is_Some (scenes p !! sid)
                      <-> sid ∈ navItems_of (totalPages p))
      /\ (forall i s, 1 <= i <= totalPages p ->
                      scenes p !! String_of_nat i = Some s ->
                      text s = Some (page_text (pages_of (storyText p)) i))
      /\ (forall sid s, sid = str "cover" \/ sid = str "end" ->
                        scenes p !! sid = Some s -> text s = None)).
Proof.
  intros Hr p. apply records_match_story_explicit. subst p.
  destruct Hr as [Hr|Hr].
  - apply (jsx_reachable_records JSON_parse TypeError_message w Hr).
  - apply (plain_reachable_records parseInt w Hr).
Qed.

Lemma records_follow_story_witness :
  Jsx.ui_reachable Reader.JSON_parse Reader.TypeError_message
    (Samples.book, str "1")
  /\ exists s, scenes Samples.book !! str "2" = Some s
               /\ text s = Some (str "The end").
Proof.
  split; [exact book_workspace_reachable|].
  assert (scenes Samples.book !! str "2"
          = Some (pending_scene (Some (str "The end")))) as Hs
    by (vm_compute; reflexivity).
  eexists. split; [exact Hs|].
  destruct (records_follow_story Reader.JSON_parse Reader.TypeError_message
              Reader.parseInt (Samples.book, str "1")
              (or_introl book_workspace_reachable))
    as [(H & _)|(_ & _ & _ & Hpage & _)]; [discriminate H|].
  rewrite (Hpage 2 _ ltac:(simpl; lia) Hs). reflexivity.
Defined.

(** X9. In the plain build the fields of a scene follow its status
    in the strict reading, in every workspace a user can get to: a scene
    is completed exactly when its prompt is set to a value other than
    [null] and its video reference is set, a pending scene has neither
    field, and the video reference of a completed scene is the sample
    video. The simulated generation cannot store a [null] prompt. *)
Theorem plain_fields_follow_status (parseInt : jstring -> option Q)
    (w : Workspace) :
  Plain.ui_reachable parseInt w ->
  forall sceneId s, scenes (fst w) !! sceneId = Some s ->
    (status s = completed <-> prompt_set s /\ videoUrl_set s)
    /\ (status s = pending -> prompt s = None /\ videoUrl s = None)
    /\ (status s = completed -> videoUrl s = Some sampleVideo).
Proof.
  intros Hr sceneId s Hs.
  destruct (plain_reachable_records parseInt w Hr) as (_ & _ & Hf).
  specialize (Hf sceneId s Hs). unfold prompt_set, videoUrl_set in *.
  destruct (status s).
  - destruct Hf as [Hp Hv]. rewrite Hp, Hv.
    split; [split; [discriminate|]|].
    + intros [(v & Hv' & _) _]. discriminate.
    + split; [auto|discriminate].
  - destruct Hf as [Hp Hv]. rewrite Hv.
    split; [split; [intros _; split; [exact Hp|eauto]|reflexivity]|].
    split; [discriminate|reflexivity].
Qed.

(** The plain build at [Samples.story]: upload, then the cover. *)
Lemma told_cover_reachable :
  Plain.ui_reachable Reader.parseInt Samples.told_cover.
Proof.
  exists 1, (str "2024-01-01T00:00:00.000Z").
  change (rtc (Plain.ui_step Reader.parseInt)
            (Samples.untitled, str "cover") Samples.told_cover).
  apply (rtc_l _ _ Samples.told).
  - apply (Plain.ui_upload _ (Samples.untitled, str "cover")
             (Some Samples.story)).
    reflexivity.
  - apply rtc_once.
    apply (Plain.ui_generate _ Samples.told).
    vm_compute. reflexivity.
Qed.

Lemma plain_fields_follow_status_witness :
  Plain.ui_reachable Reader.parseInt Samples.told_cover
  /\ exists s, scenes (fst Samples.told_cover) !! str "cover" = Some s
               /\ status s = completed /\ prompt_set s /\ videoUrl_set s.
Proof.
  split; [exact told_cover_reachable|].
  assert (scenes (fst Samples.told_cover) !! str "cover"
          = Some {| status := completed; text := None;
                    prompt := Some (Plain.mockPrompt Reader.parseInt
                                      (str "cover"));
                    videoUrl := Some sampleVideo |}) as Hs
    by (vm_compute; reflexivity).
  eexists. split; [exact Hs|]. split; [reflexivity|].
  apply (plain_fields_follow_status Reader.parseInt Samples.told_cover
           told_cover_reachable (str "cover") _ Hs).
  reflexivity.
Defined.

(** ** What a step leaves alone *)

(** The update of a generation for a scene other than the cover carries
    the scenes only. *)
Lemma projectUpdates_of_page TypeError_message project sceneId newPrompt
    videoUrl d :
  sceneId <> str "cover" ->
  Jsx.projectUpdates_of TypeError_message project sceneId newPrompt videoUrl
  = Ok d ->
  set_name d = None /\ set_author d = None.
Proof.
  intros Hne. unfold Jsx.projectUpdates_of.
  rewrite bool_decide_eq_false_2 by exact Hne.
  intros [= <-]. split; reflexivity.
Qed.

(** The frame of a step: what holds between a workspace with story text
    and the workspace one step later. *)
Local Abbreviation frame w w' :=
  (id (fst w') = id (fst w)
   /\ createdAt (fst w') = createdAt (fst w)
   /\ storyText (fst w') = storyText (fst w)
   /\ totalPages (fst w') = totalPages (fst w)
   /\ (forall sid, sid <> snd w ->
                   scenes (fst w') !! sid = scenes (fst w) !! sid)
   /\ (forall s, scenes (fst w) !! snd w = Some s ->
                 exists s', scenes (fst w') !! snd w = Some s'
                            /\ text s' = text s)
   /\ (forall sid, scene_completed (fst w) sid ->
                   scene_completed (fst w') sid)
   /\ (snd w <> str "cover" ->
         name (fst w') = name (fst w) /\ author (fst w') = author (fst w))).

Lemma frame_same_project (w w' : Workspace) :
  fst w' = fst w -> frame w w'.
Proof.
  intros ->. repeat split; eauto.
Qed.

Lemma frame_complete_current (w : Workspace) (p' : Project) (s' : Scene) :
  id p' = id (fst w) ->
  createdAt p' = createdAt (fst w) ->
  storyText p' = storyText (fst w) ->
  totalPages p' = totalPages (fst w) ->
  scenes p' = <[snd w := s']> (scenes (fst w)) ->
  status s' = completed ->
  text s' = scenes (fst w) !! snd w ≫= text ->
  (snd w <> str "cover" ->
     name p' = name (fst w) /\ author p' = author (fst w)) ->
  frame w (p', snd w).
Proof.
  intros Hid Hc Hst Htp Hs Hstatus Htext Hname. simpl.
  split; [exact Hid|]. split; [exact Hc|]. split; [exact Hst|].
  split; [exact Htp|]. split; [|split; [|split; [|exact Hname]]].
  - intros sid Hsid. rewrite Hs. apply lookup_insert_ne. auto.
  - intros s Hsome. exists s'. rewrite Hs, lookup_insert_eq.
    split; [reflexivity|]. rewrite Htext, Hsome. reflexivity.
  - intros sid. apply (scene_completed_insert_mono _ _ _ _ _ Hs Hstatus).
Qed.

(** X10. Story text is written once, and a step touches one scene. From
    a workspace whose project has story text, any step of either build
    (effect, sidebar click, next-scene button, upload attempt,
    generation or regeneration with any answer of the service,
    reopening) keeps the id, the creation date, the story text and the
    page count of the project; it leaves every scene other than the one
    under the pointer as it was and keeps the text of that one; no
    completed scene stops being completed; and name and author can only
    change when the pointer is on the cover. *)
Theorem step_frame (JSON_parse : jstring -> result json)
    (TypeError_message : option json -> jstring -> jstring)
    (parseInt : jstring -> option Q) (w w' : Workspace) :
  Jsx.ui_step JSON_parse TypeError_message w w'
  \/ Plain.ui_step parseInt w w' ->
  storyText (fst w) <> [] ->
  id (fst w') = id (fst w)
  /\ createdAt (fst w') = createdAt (fst w)
  /\ storyText (fst w') = storyText (fst w)
  /\ totalPages (fst w') = totalPages (fst w)
  /\ (forall sid, sid <> snd w ->
                  scenes (fst w') !! sid = scenes (fst w) !! sid)
  /\ (forall s, scenes (fst w) !! snd w = Some s ->
                exists s', scenes (fst w') !! snd w = Some s'
                           /\ text s' = text s)
  /\ (forall sid, scene_completed (fst w) sid ->
                  scene_completed (fst w') sid)
  /\ (snd w <> str "cover" ->
        name (fst w') = name (fst w) /\ author (fst w') = author (fst w)).
Proof.
  intros [Hstep|Hstep] Hstory.
  - destruct (jsx_ui_step_project JSON_parse TypeError_message w w' Hstep)
      as [Hsame|[(Hempty & _)|(_ & newPrompt & d & Hd & ->)]];
      [exact (frame_same_project w w' Hsame)|contradiction|].
    pose proof Hd as Hshape.
    apply projectUpdates_of_shape in Hshape
      as (Hsc & Hid & Hst & Htp & Hc & _).
    eapply (frame_complete_current w (spread (fst w) d)).
    + unfold spread. simpl. rewrite Hid. reflexivity.
    + unfold spread. simpl. rewrite Hc. reflexivity.
    + unfold spread. simpl. rewrite Hst. reflexivity.
    + unfold spread. simpl. rewrite Htp. reflexivity.
    + unfold spread. simpl. rewrite Hsc. reflexivity.
    + reflexivity.
    + reflexivity.
    + intros Hne.
      destruct (projectUpdates_of_page _ _ _ _ _ _ Hne Hd) as [Hn Ha].
      unfold spread. simpl. rewrite Hn, Ha. split; reflexivity.
  - destruct (plain_ui_step_project parseInt w w' Hstep)
      as [Hsame|[(Hempty & _)|(_ & _ & ->)]];
      [exact (frame_same_project w w' Hsame)|contradiction|].
    eapply (frame_complete_current w); try reflexivity.
    intros _. split; reflexivity.
Qed.

Lemma step_frame_witness :
  let w := (Samples.book, str "1") in
  let w' := workspace_run Samples.null_reply_events w in
  storyText (fst w) <> []
  /\ storyText (fst w') = storyText (fst w)
  /\ scenes (fst w') !! str "cover" = scenes (fst w) !! str "cover"
  /\ scene_completed (fst w') (str "cover").
Proof.
  intros w w'.
  assert (Jsx.ui_step Reader.JSON_parse Reader.TypeError_message w w')
    as Hstep.
  { apply (Jsx.ui_generate _ _ w (Samples.service_replying (str "null"))
             (str "BBBB") []).
    vm_compute. reflexivity. }
  assert (storyText (fst w) <> []) as Hstory by discriminate.
  destruct (step_frame Reader.JSON_parse Reader.TypeError_message
              Reader.parseInt w w' (or_introl Hstep) Hstory)
    as (_ & _ & Hst & _ & Hother & _ & Hmono & _).
  split; [exact Hstory|]. split; [exact Hst|].
  split; [apply Hother; intros H; apply str_inj in H; discriminate|].
  apply Hmono. eexists. split; [vm_compute; reflexivity|reflexivity].
Defined.

(** ** How a handler ends *)

(** A message that starts with a literal is not the empty string. *)
Ltac literal_message :=
  let H := fresh "H" in intros H; vm_compute in H; discriminate H.

Section Outcomes.

Variable JSON_parse : jstring -> result json.
Variable TypeError_message : option json -> jstring -> jstring.
Variable parseInt : jstring -> option Q.

(** A run of a handler that ends well: its one update and no error
    message. *)
Local Abbreviation committed es project :=
  (exists d, updates es = [(id project, d)] /\ errors es = [[]]).

(** What the client throws carries a message when the exceptions of the
    platform do. *)
Lemma generateScene_message fetch file project sceneId imageBase64 feedback m :
  exceptions_carry_messages JSON_parse TypeError_message fetch file ->
  snd (generateScene JSON_parse TypeError_message fetch project sceneId
         imageBase64 feedback) = Throw m ->
  m <> [].
Proof.
  intros (_ & Hfetch & Hjson & Hparse & Htype).
  rewrite generateScene_result.
  destruct (fetch _ _) as [response|m0] eqn:Hf;
    [|intros [= <-]; exact (Hfetch _ _ _ Hf)].
  destruct (ok response).
  - destruct (body_json response) as [body|m0] eqn:Hb;
      [|intros [= <-]; exact (Hjson _ _ _ _ Hf Hb)].
    destruct (candidates body) as [[|c rest]|];
      try (intros [= <-]; literal_message).
    unfold first_text, get_field, parse_text.
    destruct (content c) as [ct|]; [|intros [= <-]; apply Htype].
    destruct (content_parts ct) as [ps|]; [|intros [= <-]; apply Htype].
    destruct (ps !! 0) as [p0|]; [|intros [= <-]; apply Htype].
    intros Hm. exact (Hparse _ _ Hm).
  - intros [= <-]. literal_message.
Qed.

Lemma jsx_upload_ends fetch pdfjsLib project file :
  let es := Jsx.handleFileChange JSON_parse TypeError_message fetch pdfjsLib
              project (Some file) in
  busy_flags es = [true; false]
  /\ length (fetches es) <= 1
  /\ ((committed es project /\ length (fetches es) = 1
       /\ pointers es = [str "cover"])
      \/ (updates es = [] /\ pointers es = []
          /\ exists m,
               errors es = [[]; m]
               /\ (exceptions_carry_messages JSON_parse TypeError_message
                     fetch file -> m <> []))).
Proof.
  cbv zeta.
  destruct (endsWith (file_name file) (str ".pdf")) eqn:Hpdf;
    [|unfold Jsx.handleFileChange, Jsx.ingest, Jsx.read_layout;
      rewrite Hpdf; split; [reflexivity|split; [simpl; lia|]];
      right; split; [reflexivity|split; [reflexivity|]];
      eexists; split; [reflexivity|intros _; literal_message]].
  destruct pdfjsLib;
    [|unfold Jsx.handleFileChange, Jsx.ingest, Jsx.read_layout;
      rewrite Hpdf; split; [reflexivity|split; [simpl; lia|]];
      right; split; [reflexivity|split; [reflexivity|]];
      eexists; split; [reflexivity|intros _; literal_message]].
  destruct (file_pdf file) as [pdf|m] eqn:Hfile;
    [|unfold Jsx.handleFileChange, Jsx.ingest, Jsx.read_layout;
      rewrite Hpdf, Hfile; split; [reflexivity|split; [simpl; lia|]];
      right; split; [reflexivity|split; [reflexivity|]];
      exists m; split; [reflexivity|intros (Hread & _); exact (Hread m Hfile)]].
  destruct (truthy_string (trim (fullText_of pdf))) eqn:Htrim;
    [|unfold Jsx.handleFileChange, Jsx.ingest, Jsx.read_layout;
      rewrite Hpdf, Hfile; unfold_M; simpl; rewrite Htrim;
      split; [reflexivity|split; [simpl; lia|]];
      right; split; [reflexivity|split; [reflexivity|]];
      eexists; split; [reflexivity|intros _; literal_message]].
  unfold Jsx.handleFileChange, try_catch_finally.
  rewrite (ingest_unfold JSON_parse TypeError_message fetch project file pdf
             Hpdf Hfile Htrim). cbv zeta.
  destruct (snd (generateScene JSON_parse TypeError_message fetch
                   (Jsx.initialProjectState project (fullText_of pdf))
                   (str "cover") (coverImage pdf) [])) as [newPrompt|m0]
    eqn:Hreply;
    [|split; [reflexivity|split; [simpl; lia|]];
      right; split; [reflexivity|split; [reflexivity|]];
      exists m0; split; [reflexivity|];
      intros Hs; exact (generateScene_message _ _ _ _ _ _ _ Hs Hreply)].
  destruct newPrompt; simpl;
    (split; [reflexivity|split; [lia|]]);
    try (right; split; [reflexivity|split; [reflexivity|]];
         eexists; split; [reflexivity|intros (_ & _ & _ & _ & Htype);
                                       apply Htype]);
    left; (split; [eexists; split; reflexivity|split; reflexivity]).
Qed.

Lemma jsx_generate_ends fetch project sceneId isRegenerating imageBase64
    feedback :
  let es := Jsx.handleGenerate JSON_parse TypeError_message fetch project
              sceneId isRegenerating imageBase64 feedback in
  (Jsx.missing_illustration sceneId imageBase64 isRegenerating = true
   /\ es = [SetError (str "Please upload an illustration for this page.")])
  \/ (Jsx.missing_illustration sceneId imageBase64 isRegenerating = false
      /\ busy_flags es = [true; false]
      /\ length (fetches es) = 1
      /\ pointers es = []
      /\ (committed es project
          \/ (updates es = []
              /\ exists m, errors es
                           = [[]; str "Operation failed: " ++ m ++ str "."]))).
Proof.
  cbv zeta.
  destruct (Jsx.missing_illustration sceneId imageBase64 isRegenerating)
    eqn:Hguard.
  - left. split; [reflexivity|]. unfold Jsx.handleGenerate.
    rewrite Hguard. reflexivity.
  - right. split; [reflexivity|].
    rewrite (handleGenerate_unfold _ _ _ _ _ _ _ _ Hguard).
    rewrite generate_unfold. cbv zeta.
    destruct (snd (generateScene JSON_parse TypeError_message fetch project
                     sceneId imageBase64 feedback)) as [newPrompt|m0].
    + destruct (Jsx.projectUpdates_of TypeError_message project sceneId
                  newPrompt sampleVideo) as [d|m0].
      * repeat (split; [reflexivity|]). left. eexists. split; reflexivity.
      * repeat (split; [reflexivity|]). right.
        split; [reflexivity|]. eexists. reflexivity.
    + repeat (split; [reflexivity|]). right.
      split; [reflexivity|]. eexists. reflexivity.
Qed.

Lemma plain_upload_ends project file :
  let es := Plain.handleFileChange project (Some file) in
  busy_flags es = [true; false]
  /\ fetches es = []
  /\ ((committed es project /\ pointers es = [str "cover"])
      \/ (updates es = [] /\ pointers es = []
          /\ exists m, errors es = [[]; m] /\ m <> [])).
Proof.
  cbv zeta. unfold Plain.handleFileChange, Plain.ingest, try_catch_finally.
  destruct (endsWith (file_name file) (str ".pdf"));
    [repeat (split; [reflexivity|]); right;
     split; [reflexivity|split; [reflexivity|]];
     eexists; split; [reflexivity|literal_message]|].
  destruct (endsWith (file_name file) (str ".txt"));
    [|repeat (split; [reflexivity|]); right;
      split; [reflexivity|split; [reflexivity|]];
      eexists; split; [reflexivity|literal_message]].
  unfold_M. simpl.
  destruct (truthy_string (trim (file_text file)));
    [|repeat (split; [reflexivity|]); right;
      split; [reflexivity|split; [reflexivity|]];
      eexists; split; [reflexivity|literal_message]].
  repeat (split; [reflexivity|]). left.
  split; [eexists; split; reflexivity|reflexivity].
Qed.

Lemma plain_generate_ends project sceneId :
  let es := Plain.handleGenerate parseInt project sceneId in
  busy_flags es = [true; false]
  /\ fetches es = []
  /\ pointers es = []
  /\ committed es project.
Proof.
  cbv zeta. repeat (split; [reflexivity|]). eexists. split; reflexivity.
Qed.

End Outcomes.

(** X11. How a handler ends, in the runs where what it awaits settles
    (the file is read or reading it fails, the service answers or the
    request fails). Every run of an upload handler on a file, and every
    run of a generation handler that passes its guard, sets its busy flag
    once and clears it at the end; it sends at most one request (the
    plain build none) and ends in one of two ways: it sent its one update
    for the project and no error message, or it sent no update, did not
    move the pointer and set the message of what was thrown after
    clearing the old one. That message is not empty in a generation of
    the JSX build, which puts ['Operation failed: '] before it, nor in an
    upload of the plain build, whose messages are its own; in an upload
    of the JSX build it is not empty when the exceptions of the platform
    carry messages, and it is empty, so that no banner is shown, when
    pdf.js throws an exception without one. A successful upload points at
    the cover; a generation never moves the pointer. An upload without a
    file does nothing. *)
Theorem handlers_end (JSON_parse : jstring -> result json)
    (TypeError_message : option json -> jstring -> jstring)
    (parseInt : jstring -> option Q) (fetch : Service) (pdfjsLib : bool)
    (project : Project) (file : File) (sceneId : jstring)
    (isRegenerating : bool) (imageBase64 feedback : jstring) :
  (let es := Jsx.handleFileChange JSON_parse TypeError_message fetch pdfjsLib
               project (Some file) in
   busy_flags es = [true; false]
   /\ length (fetches es) <= 1
   /\ (((exists d, updates es = [(id project, d)] /\ errors es = [[]])
        /\ length (fetches es) = 1 /\ pointers es = [str "cover"])
       \/ (updates es = [] /\ pointers es = []
           /\ exists m,
                errors es = [[]; m]
                /\ (exceptions_carry_messages JSON_parse TypeError_message
                      fetch file -> m <> []))))
  /\ (endsWith (file_name file) (str ".pdf") = true ->
      file_pdf file = Throw [] ->
      let es := Jsx.handleFileChange JSON_parse TypeError_message fetch true
                  project (Some file) in
      updates es = [] /\ errors es = [[]; []])
  /\ (let es := Jsx.handleGenerate JSON_parse TypeError_message fetch project
                  sceneId isRegenerating imageBase64 feedback in
      (Jsx.missing_illustration sceneId imageBase64 isRegenerating = true
       /\ es = [SetError (str "Please upload an illustration for this page.")])
      \/ (Jsx.missing_illustration sceneId imageBase64 isRegenerating = false
          /\ busy_flags es = [true; false]
          /\ length (fetches es) = 1
          /\ pointers es = []
          /\ ((exists d, updates es = [(id project, d)] /\ errors es = [[]])
              \/ (updates es = []
                  /\ exists m,
                       errors es
                       = [[]; str "Operation failed: " ++ m ++ str "."]
                       /\ str "Operation failed: " ++ m ++ str "." <> []))))
  /\ (let es := Plain.handleFileChange project (Some file) in
      busy_flags es = [true; false]
      /\ fetches es = []
      /\ (((exists d, updates es = [(id project, d)] /\ errors es = [[]])
           /\ pointers es = [str "cover"])
          \/ (updates es = [] /\ pointers es = []
              /\ exists m, errors es = [[]; m] /\ m <> [])))
  /\ (let es := Plain.handleGenerate parseInt project sceneId in
      busy_flags es = [true; false]
      /\ fetches es = []
      /\ pointers es = []
      /\ exists d, updates es = [(id project, d)] /\ errors es = [[]])
  /\ Jsx.handleFileChange JSON_parse TypeError_message fetch pdfjsLib
       project None = []
  /\ Plain.handleFileChange project None = [].
Proof.
  split; [apply jsx_upload_ends|].
  split.
  { intros Hpdf Hfile. cbv zeta.
    unfold Jsx.handleFileChange, Jsx.ingest, Jsx.read_layout.
    rewrite Hpdf, Hfile. split; reflexivity. }
  split.
  { destruct (jsx_generate_ends JSON_parse TypeError_message fetch project
                sceneId isRegenerating imageBase64 feedback)
      as [H|(Hg & Hb & Hf & Hp & [Hc|(Hu & m & Hm)])];
      [left; exact H|right..].
    - repeat (split; [assumption|]). left. exact Hc.
    - repeat (split; [assumption|]). right. split; [exact Hu|].
      exists m. split; [exact Hm|literal_message]. }
  split; [apply plain_upload_ends|].
  split; [apply plain_generate_ends|].
  split; reflexivity.
Qed.

(** The exceptions of the sample reader carry messages. *)
Lemma Reader_messages (fetch : Service) (file : File) :
  (forall m, file_pdf file = Throw m -> m <> []) ->
  (forall url payload m, fetch url payload = Throw m -> m <> []) ->
  (forall url payload response m,
     fetch url payload = Ok response ->
     body_json response = Throw m -> m <> []) ->
  exceptions_carry_messages Reader.JSON_parse Reader.TypeError_message
    fetch file.
Proof.
  intros Hread Hfetch Hjson.
  split; [exact Hread|]. split; [exact Hfetch|]. split; [exact Hjson|].
  split.
  - intros s m. unfold Reader.JSON_parse.
    destruct (Reader.read_value _ _) as [[v r]|];
      [destruct (Reader.skip_ws r)|];
      intros [= <-] || discriminate; literal_message.
  - intros base k. literal_message.
Qed.

(** An upload that the service answers with [null]: the message of the
    [TypeError] is set. *)
Lemma handlers_end_witness :
  let es := Jsx.handleFileChange Reader.JSON_parse Reader.TypeError_message
              (Samples.service_replying (str "null")) true Samples.untitled
              (Some Samples.layout) in
  busy_flags es = [true; false]
  /\ exists m, errors es = [[]; m] /\ m <> [].
Proof.
  intros es.
  destruct (handlers_end Reader.JSON_parse Reader.TypeError_message
              Reader.parseInt (Samples.service_replying (str "null")) true
              Samples.untitled Samples.layout (str "cover") false [] [])
    as ((Hbusy & _ & [((d & Hd & _) & _)|(_ & _ & m & Hm & Hne)]) & _).
  - vm_compute in Hd. discriminate Hd.
  - split; [exact Hbusy|]. exists m. split; [exact Hm|].
    apply Hne, Reader_messages.
    + intros m0 H0. vm_compute in H0. discriminate H0.
    + intros url payload m0 H0. discriminate H0.
    + intros url payload response m0 [= <-] H0. discriminate H0.
Defined.

(** ** Refused uploads *)

(** The text of a layout is blank exactly when every page of it is. *)
Lemma fullText_of_blank pdf :
  trim (fullText_of pdf) = [] <-> Forall blank (page_texts pdf).
Proof.
  rewrite trim_nil_iff, fullText_of_concat. unfold blank.
  induction (page_texts pdf) as [|t ts IH]; simpl.
  - split; constructor.
  - rewrite !Forall_app, Forall_cons, IH. split.
    + intros ((Ht & _) & Hts). constructor; assumption.
    + intros Hall. apply Forall_cons in Hall as [Ht Hts].
      repeat split; try assumption; repeat constructor.
Qed.

Section Refusals.

Variable JSON_parse : jstring -> result json.
Variable TypeError_message : option json -> jstring -> jstring.
Variable fetch : Service.

Local Abbreviation jsx_upload :=
  (Jsx.handleFileChange JSON_parse TypeError_message fetch).

Local Ltac quiet_refusal := repeat split; reflexivity.

Lemma jsx_upload_unsupported pdfjsLib project file :
  endsWith (file_name file) (str ".pdf") = false ->
  errors (jsx_upload pdfjsLib project (Some file))
  = [[]; str "Unsupported file type. Please upload a PDF layout file."]
  /\ fetches (jsx_upload pdfjsLib project (Some file)) = []
  /\ updates (jsx_upload pdfjsLib project (Some file)) = [].
Proof.
  intros Hpdf. unfold Jsx.handleFileChange, Jsx.ingest, Jsx.read_layout.
  rewrite Hpdf. quiet_refusal.
Qed.

Lemma jsx_upload_no_library project file :
  endsWith (file_name file) (str ".pdf") = true ->
  errors (jsx_upload false project (Some file))
  = [[]; str "PDF parsing library not loaded."]
  /\ fetches (jsx_upload false project (Some file)) = []
  /\ updates (jsx_upload false project (Some file)) = [].
Proof.
  intros Hpdf. unfold Jsx.handleFileChange, Jsx.ingest, Jsx.read_layout.
  rewrite Hpdf. quiet_refusal.
Qed.

Lemma jsx_upload_unreadable project file m :
  endsWith (file_name file) (str ".pdf") = true ->
  file_pdf file = Throw m ->
  errors (jsx_upload true project (Some file)) = [[]; m]
  /\ fetches (jsx_upload true project (Some file)) = []
  /\ updates (jsx_upload true project (Some file)) = [].
Proof.
  intros Hpdf Hfile.
  unfold Jsx.handleFileChange, Jsx.ingest, Jsx.read_layout.
  rewrite Hpdf, Hfile. quiet_refusal.
Qed.

Lemma jsx_upload_blank project file pdf :
  endsWith (file_name file) (str ".pdf") = true ->
  file_pdf file = Ok pdf ->
  Forall blank (page_texts pdf) ->
  errors (jsx_upload true project (Some file))
  = [[]; str "File is empty or text could not be extracted."]
  /\ fetches (jsx_upload true project (Some file)) = []
  /\ updates (jsx_upload true project (Some file)) = [].
Proof.
  intros Hpdf Hfile Hblank. apply fullText_of_blank in Hblank.
  unfold Jsx.handleFileChange, Jsx.ingest, Jsx.read_layout.
  rewrite Hpdf, Hfile. unfold_M. simpl. rewrite Hblank. quiet_refusal.
Qed.

Lemma jsx_upload_asks project file pdf :
  endsWith (file_name file) (str ".pdf") = true ->
  file_pdf file = Ok pdf ->
  ~ Forall blank (page_texts pdf) ->
  length (fetches (jsx_upload true project (Some file))) = 1.
Proof.
  intros Hpdf Hfile Hblank. rewrite <- fullText_of_blank in Hblank.
  apply truthy_string_ne in Hblank.
  unfold Jsx.handleFileChange, try_catch_finally.
  rewrite (ingest_unfold JSON_parse TypeError_message fetch project file pdf
             Hpdf Hfile Hblank). cbv zeta.
  destruct (snd (generateScene JSON_parse TypeError_message fetch
                   (Jsx.initialProjectState project (fullText_of pdf))
                   (str "cover") (coverImage pdf) [])) as [newPrompt|m0];
    [|reflexivity].
  destruct (get_member TypeError_message newPrompt (str "extracted_title"));
    [|reflexivity].
  destruct (get_member TypeError_message newPrompt (str "extracted_author"));
    reflexivity.
Qed.

End Refusals.

Lemma plain_upload_pdf project file :
  endsWith (file_name file) (str ".pdf") = true ->
  errors (Plain.handleFileChange project (Some file))
  = [[]; str "PDF parsing requires additional setup. Please use a text file for now."]
  /\ updates (Plain.handleFileChange project (Some file)) = [].
Proof.
  intros Hpdf. unfold Plain.handleFileChange, Plain.ingest.
  rewrite Hpdf. split; reflexivity.
Qed.

Lemma plain_upload_unsupported project file :
  endsWith (file_name file) (str ".pdf") = false ->
  endsWith (file_name file) (str ".txt") = false ->
  errors (Plain.handleFileChange project (Some file))
  = [[]; str "Unsupported file type. Please upload a text file."]
  /\ updates (Plain.handleFileChange project (Some file)) = [].
Proof.
  intros Hpdf Htxt. unfold Plain.handleFileChange, Plain.ingest.
  rewrite Hpdf, Htxt. split; reflexivity.
Qed.

Lemma plain_upload_blank project file :
  endsWith (file_name file) (str ".pdf") = false ->
  endsWith (file_name file) (str ".txt") = true ->
  blank (file_text file) ->
  errors (Plain.handleFileChange project (Some file))
  = [[]; str "File is empty or text could not be extracted."]
  /\ updates (Plain.handleFileChange project (Some file)) = [].
Proof.
  intros Hpdf Htxt Hblank. apply trim_nil_iff in Hblank.
  unfold Plain.handleFileChange, Plain.ingest.
  rewrite Hpdf, Htxt. unfold_M. simpl. rewrite Hblank. split; reflexivity.
Qed.

(** X12. Which uploads are refused, and with which message. In the JSX
    build a file whose name does not end in [.pdf] is refused as
    unsupported, a PDF is refused while pdf.js is not loaded, a PDF that
    pdf.js cannot open is refused with the message of pdf.js, and a PDF
    all of whose pages are blank (a scan without text layer, or no page)
    is refused as empty; none of these sends a request or an update. The
    service is asked exactly when the layout has a page that is not
    blank. In the plain build a name that ends in [.pdf] is refused with
    the advice to use a text file, any other name that does not end in
    [.txt] as unsupported, and a blank text file as empty. *)
Theorem refused_uploads (JSON_parse : jstring -> result json)
    (TypeError_message : option json -> jstring -> jstring)
    (fetch : Service) (project : Project) (file : File) :
  let jsx pdfjsLib :=
    Jsx.handleFileChange JSON_parse TypeError_message fetch pdfjsLib project
      (Some file) in
  let plain := Plain.handleFileChange project (Some file) in
  (endsWith (file_name file) (str ".pdf") = false ->
     (forall pdfjsLib,
        errors (jsx pdfjsLib)
        = [[]; str "Unsupported file type. Please upload a PDF layout file."]
        /\ fetches (jsx pdfjsLib) = [] /\ updates (jsx pdfjsLib) = [])
     /\ (endsWith (file_name file) (str ".txt") = false ->
           errors plain
           = [[]; str "Unsupported file type. Please upload a text file."]
           /\ updates plain = [])
     /\ (endsWith (file_name file) (str ".txt") = true ->
         blank (file_text file) ->
           errors plain
           = [[]; str "File is empty or text could not be extracted."]
           /\ updates plain = []))
  /\ (endsWith (file_name file) (str ".pdf") = true ->
        (errors (jsx false) = [[]; str "PDF parsing library not loaded."]
         /\ fetches (jsx false) = [] /\ updates (jsx false) = [])
        /\ (forall m, file_pdf file = Throw m ->
              errors (jsx true) = [[]; m]
              /\ fetches (jsx true) = [] /\ updates (jsx true) = [])
        /\ (forall pdf, file_pdf file = Ok pdf ->
              (Forall blank (page_texts pdf) ->
                 errors (jsx true)
                 = [[]; str "File is empty or text could not be extracted."]
                 /\ fetches (jsx true) = [] /\ updates (jsx true) = [])
              /\ (~ Forall blank (page_texts pdf) ->
                    length (fetches (jsx true)) = 1))
        /\ errors plain
           = [[]; str "PDF parsing requires additional setup. Please use a text file for now."]
        /\ updates plain = []).
Proof.
  intros jsx plain. subst jsx plain. split.
  - intros Hpdf. split; [|split].
    + intros pdfjsLib. apply jsx_upload_unsupported, Hpdf.
    + intros Htxt. apply plain_upload_unsupported; assumption.
    + intros Htxt Hblank. apply plain_upload_blank; assumption.
  - intros Hpdf. split; [apply jsx_upload_no_library, Hpdf|].
    split; [intros m Hm; apply jsx_upload_unreadable; assumption|].
    split; [|apply plain_upload_pdf, Hpdf].
    intros pdf Hfile. split.
    + intros Hblank. apply (jsx_upload_blank _ _ _ _ _ pdf); assumption.
    + intros Hsome. apply (jsx_upload_asks _ _ _ _ _ pdf); assumption.
Qed.

Lemma refused_uploads_witness :
  endsWith (file_name Samples.story) (str ".pdf") = false
  /\ errors (Jsx.handleFileChange Reader.JSON_parse Reader.TypeError_message
              (Samples.service_replying Samples.title_only) true
              Samples.untitled (Some Samples.story))
     = [[]; str "Unsupported file type. Please upload a PDF layout file."]
  /\ endsWith (file_name Samples.layout) (str ".pdf") = true
  /\ errors (Plain.handleFileChange Samples.untitled (Some Samples.layout))
     = [[]; str "PDF parsing requires additional setup. Please use a text file for now."]
  /\ length (fetches
               (Jsx.handleFileChange Reader.JSON_parse
                  Reader.TypeError_message
                  (Samples.service_replying Samples.title_only) true
                  Samples.untitled (Some Samples.layout))) = 1.
Proof.
  split; [reflexivity|]. split.
  { destruct (refused_uploads Reader.JSON_parse Reader.TypeError_message
                (Samples.service_replying Samples.title_only)
                Samples.untitled Samples.story) as [H _].
    destruct (H eq_refl) as [Hjsx _]. apply (Hjsx true). }
  split; [reflexivity|].
  destruct (refused_uploads Reader.JSON_parse Reader.TypeError_message
              (Samples.service_replying Samples.title_only)
              Samples.untitled Samples.layout) as [_ H].
  destruct (H eq_refl) as (_ & _ & Hpdf & Hplain & _).
  split; [exact Hplain|].
  destruct (Hpdf _ eq_refl) as [_ Hasks]. apply Hasks.
  intros Hall. apply Forall_cons in Hall as [Hblank _].
  apply Forall_cons in Hblank as [Hc _]. discriminate Hc.
Defined.

(** ** What the client and the prompt builder let through *)

(** X13. The client returns a value only for a parsed reply: when
    [generateScene] returns [v], the service answered the one request
    with a success status, the body was read as JSON and has a first
    candidate with content and parts and a first part, and [v] is what
    [JSON.parse] makes of the text of that part (of ["undefined"] when
    the part has no text). No other answer leads to a value. *)
Theorem client_returns_parsed_reply (JSON_parse : jstring -> result json)
    (TypeError_message : option json -> jstring -> jstring)
    (fetch : Service) (project : Project)
    (sceneId imageBase64 feedback : jstring) (v : json) :
  snd (generateScene JSON_parse TypeError_message fetch project sceneId
         imageBase64 feedback) = Ok v ->
  exists response body c rest ct ps p0,
    fetch apiUrl (payload_of (buildApiPromptText project sceneId feedback)
                    imageBase64) = Ok response
    /\ (200 <= http_status response <= 299)%N
    /\ body_json response = Ok body
    /\ candidates body = Some (c :: rest)
    /\ content c = Some ct
    /\ content_parts ct = Some ps
    /\ ps !! 0 = Some p0
    /\ JSON_parse (default (str "undefined") (part_text p0)) = Ok v.
Proof.
  rewrite generateScene_result.
  destruct (fetch _ _) as [response|m]; [|discriminate].
  destruct (ok response) eqn:Hok; [|discriminate].
  destruct (body_json response) as [body|m] eqn:Hbody; [|discriminate].
  destruct (candidates body) as [[|c rest]|] eqn:Hc; try discriminate.
  unfold first_text, get_field.
  destruct (content c) as [ct|] eqn:Hct; [|discriminate].
  destruct (content_parts ct) as [ps|] eqn:Hps; [|discriminate].
  destruct (ps !! 0) as [p0|] eqn:Hp0; [|discriminate].
  intros Hparse. exists response, body, c, rest, ct, ps, p0.
  split; [reflexivity|]. split.
  { unfold ok in Hok. apply andb_true_iff in Hok as [H1 H2].
    apply N.leb_le in H1, H2. split; assumption. }
  repeat (split; [assumption|]). exact Hparse.
Qed.

Lemma client_returns_parsed_reply_witness :
  exists response,
    Samples.service_replying Samples.title_only apiUrl
      (payload_of (buildApiPromptText Samples.book (str "1") []) (str "BBBB"))
    = Ok response
    /\ (200 <= http_status response <= 299)%N.
Proof.
  destruct (client_returns_parsed_reply Reader.JSON_parse
              Reader.TypeError_message
              (Samples.service_replying Samples.title_only) Samples.book
              (str "1") (str "BBBB") []
              (JObj [(str "extracted_title", JStr (str "Foo"))]))
    as (response & _ & _ & _ & _ & _ & _ & Hf & Hok & _).
  - vm_compute. reflexivity.
  - exists response. split; assumption.
Defined.

Lemma taskInstruction_of_feedback sceneId f1 f2 tail :
  tail = nl ++ indent ++ str "Now, populate the JSON schema based on this task."
         ++ nl ++ str "    " ->
  taskInstruction_of sceneId f1 ++ tail = taskInstruction_of sceneId f2 ++ tail ->
  f1 = f2.
Proof.
  intros Htail. unfold taskInstruction_of. rewrite <- !app_assoc.
  intros H. apply app_inv_head in H.
  destruct f1 as [|c1 f1], f2 as [|c2 f2].
  - reflexivity.
  - exfalso. subst tail. simpl in H. discriminate H.
  - exfalso. subst tail. simpl in H. discriminate H.
  - change (truthy_string (c1 :: f1)) with true in H.
    change (truthy_string (c2 :: f2)) with true in H.
    cbv iota in H. rewrite <- !app_assoc in H.
    do 4 apply app_inv_head in H.
    rewrite !app_assoc in H. apply app_inv_tail in H.
    apply app_inv_tail in H. exact H.
Qed.

(** X14. The feedback of the user reaches the service as written: for
    the same project and scene, two feedback texts that differ give
    instruction strings that differ, hence requests that differ. In
    particular an instruction built with feedback is never the one built
    without. *)
Theorem feedback_is_sent (project : Project)
    (sceneId imageBase64 f1 f2 : jstring) :
  f1 <> f2 ->
  buildApiPromptText project sceneId f1 <> buildApiPromptText project sceneId f2
  /\ payload_of (buildApiPromptText project sceneId f1) imageBase64
     <> payload_of (buildApiPromptText project sceneId f2) imageBase64.
Proof.
  intros Hne.
  assert (buildApiPromptText project sceneId f1
          <> buildApiPromptText project sceneId f2) as Hprompt.
  { intros Hp. apply Hne. unfold buildApiPromptText in Hp. cbv zeta in Hp.
    repeat apply app_inv_head in Hp.
    eapply taskInstruction_of_feedback; [reflexivity|exact Hp]. }
  split; [exact Hprompt|].
  intros H. apply Hprompt.
  pose proof (f_equal (fun payload => match parts payload with
                                      | TextPart t :: _ => t
                                      | _ => []
                                      end) H) as Hp.
  exact Hp.
Qed.

Lemma feedback_is_sent_witness :
  buildApiPromptText Samples.book (str "1") []
  <> buildApiPromptText Samples.book (str "1") (str "slower").
Proof.
  apply (feedback_is_sent Samples.book (str "1") (str "BBBB") []
           (str "slower")).
  discriminate.
Defined.

(** ** The project store *)

Lemma updateProject_absent projectId d ps :
  Forall (fun p => id p <> projectId) ps -> updateProject projectId d ps = ps.
Proof.
  unfold updateProject. induction 1 as [|p ps Hp _ IH]; [reflexivity|].
  simpl. rewrite decide_False by exact Hp. f_equal. exact IH.
Qed.

Lemma confirmDeleteProject_ids q ps :
  Forall (fun p => id p <> id q) (Jsx.confirmDeleteProject q ps).
Proof.
  unfold Jsx.confirmDeleteProject. apply Forall_forall. intros p Hp.
  apply list_elem_of_filter in Hp as [Hne _]. exact Hne.
Qed.

Lemma updateProject_ids projectId d ps :
  set_id d = None \/ set_id d = Some projectId ->
  map id (updateProject projectId d ps) = map id ps.
Proof.
  intros Hd. unfold updateProject. rewrite map_map. apply map_ext.
  intros p. destruct (decide (id p = projectId)) as [He|]; [|reflexivity].
  unfold spread. simpl. destruct Hd as [-> | ->]; simpl; congruence.
Qed.

Lemma find_id_fresh cid ps p :
  Forall (fun q => id q <> cid) ps -> id p = cid ->
  find (fun q => bool_decide (id q = cid)) (ps ++ [p]) = Some p.
Proof.
  intros Hps Hp. induction Hps as [|q ps Hq _ IH]; simpl.
  - rewrite bool_decide_eq_true_2 by exact Hp. reflexivity.
  - rewrite bool_decide_eq_false_2 by exact Hq. exact IH.
Qed.

Lemma find_id_absent cid ps :
  Forall (fun q => id q <> cid) ps ->
  find (fun q => bool_decide (id q = cid)) ps = None.
Proof.
  induction 1 as [|q ps Hq _ IH]; simpl; [reflexivity|].
  rewrite bool_decide_eq_false_2 by exact Hq. exact IH.
Qed.

Lemma find_exists {A} (f : A -> bool) (l : list A) x :
  x ∈ l -> f x = true -> exists y, find f l = Some y.
Proof.
  induction l as [|a l IH]; intros Hin Hx; [inversion Hin|]. simpl.
  destruct (f a) eqn:E; [eauto|].
  apply elem_of_cons in Hin as [->|Hin]; [congruence|exact (IH Hin Hx)].
Qed.

Lemma find_app_Some {A} (f : A -> bool) (l l' : list A) y :
  find f l = Some y -> find f (l ++ l') = Some y.
Proof.
  induction l as [|a l IH]; simpl; [discriminate|].
  destruct (f a); [auto|exact IH].
Qed.

(** X15. A new project opens on the uploader. When no project of the
    store has the id that [createNewProject] makes from the clock, the
    application shows the workspace of the new project, every scene of
    which shows the uploader, and the ids of the store stay distinct.
    When an older project has that id the application shows the older
    project instead: [find] returns the first match. *)
Theorem create_opens_uploader (now : nat) (iso : jstring) (st : App.State) :
  let st' := App.createNewProject now iso st in
  let newId := str "proj_" ++ String_of_nat now in
  App.projects st' = App.projects st ++ [newProject now iso]
  /\ (Forall (fun p => id p <> newId) (App.projects st) ->
        App.screen st' = App.ProjectWorkspace (newProject now iso)
        /\ (forall sceneId,
              SceneGenerator (newProject now iso) sceneId = LayoutUploader)
        /\ (NoDup (map id (App.projects st)) ->
              NoDup (map id (App.projects st'))))
  /\ (forall older, older ∈ App.projects st -> id older = newId ->
        exists first, App.screen st' = App.ProjectWorkspace first
                      /\ first ∈ App.projects st /\ id first = newId).
Proof.
  intros st' newId. subst st' newId. split; [reflexivity|]. split.
  - intros Hfresh. split; [|split].
    + unfold App.screen, App.currentProject, App.createNewProject. simpl.
      unfold createNewProject.
      rewrite (find_id_fresh _ _ _ Hfresh) by reflexivity. reflexivity.
    + intros sceneId. reflexivity.
    + intros Hnd. unfold App.createNewProject, createNewProject. simpl.
      rewrite map_app. apply NoDup_app. split; [exact Hnd|].
      split; [|apply NoDup_singleton].
      intros x Hx Hnew. simpl in Hnew. apply list_elem_of_singleton in Hnew.
      subst x. apply list_elem_of_fmap in Hx as (p & Hid & Hp).
      rewrite Forall_forall in Hfresh. apply (Hfresh p Hp). auto.
  - intros older Hin Hid.
    unfold App.screen, App.currentProject, App.createNewProject. simpl.
    unfold createNewProject.
    destruct (find_exists
                (fun p => bool_decide
                            (id p = str "proj_" ++ String_of_nat now))
                (App.projects st) older Hin) as [first Hfirst];
      [apply bool_decide_eq_true_2; exact Hid|].
    exists first. rewrite (find_app_Some _ _ _ _ Hfirst).
    split; [reflexivity|].
    apply find_Some in Hfirst as [Hin' Hb].
    apply bool_decide_eq_true in Hb. auto.
Qed.

Lemma create_opens_uploader_witness :
  let st := {| App.projects := []; App.currentProjectId := None;
               App.projectToDelete := None |} in
  App.screen (App.createNewProject 1 (str "2024-01-01T00:00:00.000Z") st)
  = App.ProjectWorkspace Samples.untitled
  /\ SceneGenerator Samples.untitled (str "cover") = LayoutUploader.
Proof.
  intros st.
  destruct (create_opens_uploader 1 (str "2024-01-01T00:00:00.000Z") st)
    as (_ & Hfresh & _).
  destruct (Hfresh (List.Forall_nil _)) as (Hscreen & Hview & _).
  split; [exact Hscreen|exact (Hview (str "cover"))].
Defined.

(** An update addressed to a project, as the handlers send it: it keeps
    the id. *)
Local Abbreviation own_updates es p :=
  (updates es = []
   \/ exists d, updates es = [(id p, d)]
                /\ (set_id d = None \/ set_id d = Some (id p))).

Lemma commit_own_updates es p ps :
  own_updates es p ->
  map id (commit es ps) = map id ps
  /\ (forall i q, ps !! i = Some q -> id q <> id p ->
                  commit es ps !! i = Some q)
  /\ commit es (Jsx.confirmDeleteProject p ps) = Jsx.confirmDeleteProject p ps.
Proof.
  unfold commit. intros [->|(d & -> & Hd)]; simpl.
  - repeat split; auto.
  - split; [apply updateProject_ids, Hd|]. split.
    + intros i q Hi Hq. unfold updateProject.
      rewrite list_lookup_fmap, Hi. simpl.
      rewrite decide_False by exact Hq. reflexivity.
    + apply updateProject_absent, confirmDeleteProject_ids.
Qed.

Section OwnUpdates.

Variable JSON_parse : jstring -> result json.
Variable TypeError_message : option json -> jstring -> jstring.
Variable parseInt : jstring -> option Q.

Lemma jsx_upload_own fetch pdfjsLib p file :
  own_updates (Jsx.handleFileChange JSON_parse TypeError_message fetch
                 pdfjsLib p file) p.
Proof.
  destruct (jsx_upload_outcome JSON_parse TypeError_message fetch pdfjsLib
              p file) as [[Hu _]|(s & v & et & ea & _ & _ & Hu & _)].
  - left. exact Hu.
  - right. eexists. split; [exact Hu|]. right. reflexivity.
Qed.

Lemma jsx_generate_own fetch p sceneId isRegenerating imageBase64 feedback :
  own_updates (Jsx.handleGenerate JSON_parse TypeError_message fetch p
                 sceneId isRegenerating imageBase64 feedback) p.
Proof.
  destruct (handleGenerate_updates JSON_parse TypeError_message fetch p
              sceneId isRegenerating imageBase64 feedback)
    as [Hu|(v & d & Hd & Hu)].
  - left. exact Hu.
  - right. exists d. split; [exact Hu|]. left.
    apply projectUpdates_of_shape in Hd as (_ & Hid & _). exact Hid.
Qed.

Lemma plain_upload_own p file : own_updates (Plain.handleFileChange p file) p.
Proof.
  destruct (plain_upload_outcome p file) as [[Hu _]|(s & _ & Hu & _)].
  - left. exact Hu.
  - right. eexists. split; [exact Hu|]. left. reflexivity.
Qed.

Lemma plain_generate_own p sceneId :
  own_updates (Plain.handleGenerate parseInt p sceneId) p.
Proof. right. eexists. split; [reflexivity|]. left. reflexivity. Qed.

End OwnUpdates.

(** X16. A handler changes its own project only. For the events of any
    run of an upload or generation handler of either build, started on
    project [p], committing them to a store keeps the ids of the store in
    place and leaves every project with another id as it is. In the plain
    build, whose [setProjects] applies the update to the store of the
    moment, the events change nothing in a store from which [p] was
    deleted in the meantime: the update of a generation that ends after
    the deletion is dropped. *)
Theorem handlers_keep_to_their_project
    (JSON_parse : jstring -> result json)
    (TypeError_message : option json -> jstring -> jstring)
    (parseInt : jstring -> option Q) (fetch : Service) (pdfjsLib : bool)
    (p : Project) (file : option File) (sceneId : jstring)
    (isRegenerating : bool) (imageBase64 feedback : jstring)
    (es : list Event) (ps : list Project) :
  es ∈ [Jsx.handleFileChange JSON_parse TypeError_message fetch pdfjsLib p
          file;
        Jsx.handleGenerate JSON_parse TypeError_message fetch p sceneId
          isRegenerating imageBase64 feedback;
        Plain.handleFileChange p file;
        Plain.handleGenerate parseInt p sceneId] ->
  map id (commit es ps) = map id ps
  /\ (forall i q, ps !! i = Some q -> id q <> id p ->
                  commit es ps !! i = Some q)
  /\ (es ∈ [Plain.handleFileChange p file;
            Plain.handleGenerate parseInt p sceneId] ->
        commit es (filter (fun q => id q <> id p) ps)
        = filter (fun q => id q <> id p) ps).
Proof.
  intros Hes.
  assert (own_updates es p) as Hown.
  { repeat (apply elem_of_cons in Hes as [->|Hes]).
    - apply jsx_upload_own.
    - apply jsx_generate_own.
    - apply plain_upload_own.
    - apply plain_generate_own.
    - inversion Hes. }
  destruct (commit_own_updates es p ps Hown) as (Hids & Hothers & Hgone).
  split; [exact Hids|]. split; [exact Hothers|]. intros _. exact Hgone.
Qed.

Lemma handlers_keep_to_their_project_witness :
  let es := Plain.handleGenerate Reader.parseInt (fst Samples.told)
              (str "cover") in
  updates es <> []
  /\ commit es (filter (fun q => id q <> id (fst Samples.told))
                  [fst Samples.told]) = [].
Proof.
  intros es. split; [vm_compute; discriminate|].
  destruct (handlers_keep_to_their_project Reader.JSON_parse
              Reader.TypeError_message Reader.parseInt
              (Samples.service_replying Samples.title_only) true
              (fst Samples.told) None (str "cover") false [] [] es
              [fst Samples.told]) as (_ & _ & Hgone).
  - right. right. right. left.
  - rewrite Hgone; [|right; left].
    rewrite filter_cons_False; [reflexivity|].
    intros H. apply H. reflexivity.
Defined.

(** X21. In the JSX build an update that arrives late writes an old
    store back. [setProjects] is the [setValue] of [useLocalStorage],
    which applies the update to the store of the render in which the
    handler was started. A run that sends no update leaves the store of
    the moment alone; a run that sends its update replaces the store of
    the moment by the updated store of its start, whatever happened in
    between: a project deleted while its generation was under way is
    back, and a project created meanwhile is gone. When nothing happened
    in between, the result is the store of the start with the update
    committed. *)
Theorem late_update_writes_back
    (JSON_parse : jstring -> result json)
    (TypeError_message : option json -> jstring -> jstring)
    (fetch : Service) (pdfjsLib : bool)
    (p : Project) (file : option File) (sceneId : jstring)
    (isRegenerating : bool) (imageBase64 feedback : jstring)
    (es : list Event) (seen current : list Project) :
  es ∈ [Jsx.handleFileChange JSON_parse TypeError_message fetch pdfjsLib p
          file;
        Jsx.handleGenerate JSON_parse TypeError_message fetch p sceneId
          isRegenerating imageBase64 feedback] ->
  commit_late es seen seen = commit es seen
  /\ (updates es = [] -> commit_late es seen current = current)
  /\ (updates es <> [] ->
        commit_late es seen current = commit es seen
        /\ map id (commit_late es seen current) = map id seen
        /\ (p ∈ seen ->
              exists p', p' ∈ commit_late es seen current /\ id p' = id p)).
Proof.
  intros Hes.
  assert (own_updates es p) as Hown.
  { repeat (apply elem_of_cons in Hes as [->|Hes]).
    - apply jsx_upload_own.
    - apply jsx_generate_own.
    - inversion Hes. }
  destruct (commit_own_updates es p seen Hown) as (Hids & _ & _).
  unfold commit_late, commit, setValue in *.
  destruct Hown as [Hu|(d & Hu & Hd)]; rewrite Hu in *; simpl in *.
  - split; [reflexivity|]. split; [reflexivity|]. intros H. contradiction.
  - split; [reflexivity|]. split; [discriminate|]. intros _.
    split; [reflexivity|]. split; [exact Hids|].
    intros Hin.
    assert (id p ∈ map id (updateProject (id p) d seen)) as Hback.
    { rewrite Hids. apply (list_elem_of_fmap_2 id). exact Hin. }
    apply list_elem_of_fmap in Hback as (p' & Hid & Hp').
    exists p'. split; [exact Hp'|symmetry; exact Hid].
Qed.

Lemma late_update_writes_back_witness :
  let es := Jsx.handleGenerate Reader.JSON_parse Reader.TypeError_message
              (Samples.service_replying Samples.title_only) Samples.book
              (str "1") false (str "BBBB") [] in
  Jsx.confirmDeleteProject Samples.book Samples.store1 = []
  /\ updates es <> []
  /\ exists p', p' ∈ commit_late es Samples.store1
                       (Jsx.confirmDeleteProject Samples.book Samples.store1)
                /\ id p' = id Samples.book.
Proof.
  intros es.
  assert (updates es <> []) as Hu by (vm_compute; discriminate).
  split; [|split; [exact Hu|]].
  - rewrite store1_book. unfold Jsx.confirmDeleteProject.
    rewrite filter_cons_False; [reflexivity|].
    intros H. apply H. reflexivity.
  - destruct (late_update_writes_back Reader.JSON_parse
                Reader.TypeError_message
                (Samples.service_replying Samples.title_only) true
                Samples.book None (str "1") false (str "BBBB") [] es
                Samples.store1
                (Jsx.confirmDeleteProject Samples.book Samples.store1))
      as (_ & _ & Hback).
    + right. left.
    + destruct (Hback Hu) as (_ & _ & Hin). apply Hin.
      rewrite store1_book. left.
Defined.

(** X17. A confirmed deletion removes every project that has the id of
    the project to delete and closes the dialog; the other projects stay,
    in order, and distinct ids stay distinct. If the deleted id was still
    selected, the application shows the dashboard. A second confirmation
    changes nothing, and without a project to delete the confirmation
    does nothing. *)
Theorem confirmed_deletion (st : App.State) :
  (App.projectToDelete st = None -> App.confirmDeleteProject st = st)
  /\ (forall p, App.projectToDelete st = Some p ->
        let st' := App.confirmDeleteProject st in
        App.projectToDelete st' = None
        /\ Forall (fun q => id q <> id p) (App.projects st')
        /\ (forall q, q ∈ App.projects st' <->
                      q ∈ App.projects st /\ id q <> id p)
        /\ sublist (App.projects st') (App.projects st)
        /\ (NoDup (map id (App.projects st)) ->
              NoDup (map id (App.projects st')))
        /\ (App.currentProjectId st = Some (id p) ->
              App.screen st' = App.ProjectsDashboard)
        /\ App.confirmDeleteProject st' = st').
Proof.
  split.
  - intros H. unfold App.confirmDeleteProject. rewrite H. reflexivity.
  - intros p Hp st'. subst st'. unfold App.confirmDeleteProject.
    rewrite Hp.
    assert (Forall (fun q => id q <> id p)
              (filter (fun q => id q <> id p) (App.projects st))) as Hgone
      by exact (confirmDeleteProject_ids p (App.projects st)).
    split; [reflexivity|]. split; [exact Hgone|]. split; [|split; [|split]].
    + intros q. simpl. rewrite list_elem_of_filter. tauto.
    + simpl. apply sublist_filter.
    + simpl. intros Hnd.
      apply (sublist_NoDup _ (map id (App.projects st))); [exact Hnd|].
      apply (fmap_sublist id), sublist_filter.
    + split.
      * intros Hcur. unfold App.screen, App.currentProject. simpl.
        rewrite Hcur. rewrite (find_id_absent _ _ Hgone). reflexivity.
      * reflexivity.
Qed.

Lemma confirmed_deletion_witness :
  let st := {| App.projects := Samples.store1;
               App.currentProjectId := Some (str "proj_1");
               App.projectToDelete := Some Samples.book |} in
  App.projectToDelete st = Some Samples.book
  /\ App.screen st = App.ProjectWorkspace Samples.book
  /\ App.screen (App.confirmDeleteProject st) = App.ProjectsDashboard.
Proof.
  intros st. split; [reflexivity|]. split; [vm_compute; reflexivity|].
  destruct (confirmed_deletion st) as [_ H].
  destruct (H Samples.book eq_refl) as (_ & _ & _ & _ & _ & Hscreen & _).
  apply Hscreen. reflexivity.
Defined.

(** ** The generator form *)

(** X18. The header of the regeneration form never names the scene:
    every header text starts with the word "Generate", which is all that
    [headerText.split(' ')[0]] keeps, so the header reads "Regenerate:
    Generate" for the cover, the end scene and every page alike. *)
Theorem regenerate_header (sceneId : jstring) :
  Jsx.headerText sceneId true = str "Regenerate: Generate"
  /\ first_word (Jsx.headerText sceneId false) = str "Generate".
Proof.
  unfold Jsx.headerText. cbv zeta.
  destruct (bool_decide (sceneId = str "cover")); [split; reflexivity|].
  destruct (bool_decide (sceneId = str "end")); split; reflexivity.
Qed.

Lemma after_first_comma_app prefix rest :
  Forall (fun c => c <> 44%N) prefix ->
  after_first_comma (prefix ++ 44%N :: rest)
  = after_first_comma (44%N :: rest).
Proof.
  induction 1 as [|c prefix Hc _ IH]; [reflexivity|].
  change ((c :: prefix) ++ 44%N :: rest) with (c :: (prefix ++ 44%N :: rest)).
  cbn [after_first_comma]. apply N.eqb_neq in Hc. rewrite Hc. exact IH.
Qed.

Lemma after_first_comma_whole data :
  Forall (fun c => c <> 44%N) data ->
  after_first_comma (44%N :: data) = Some data.
Proof.
  intros H. cbn [after_first_comma]. rewrite N.eqb_refl. f_equal.
  induction H as [|c data Hc _ IH]; [reflexivity|].
  apply N.eqb_neq in Hc. rewrite Hc. f_equal. exact IH.
Qed.

(** X19. The illustration goes out as read, and always as a JPEG. For
    a data URL [data:<type>;base64,<data>] whose type and data hold no
    comma, [handleImageChange] keeps exactly [<data>]; when the data is
    not empty the guard of [handleGenerate] lets the click through and
    the request carries the instruction and the data, declared as
    [image/jpeg] whatever the type of the file was. A reader result
    without a comma leaves the illustration undefined, and empty data
    counts as no illustration: the first generation of any scene but
    the end scene is then refused. *)
Theorem illustration_as_read (mediaType data prompt sceneId : jstring) :
  Forall (fun c => c <> 44%N) mediaType ->
  Forall (fun c => c <> 44%N) data ->
  Jsx.imageBase64_of (str "data:" ++ mediaType ++ str ";base64," ++ data)
  = Some data
  /\ Jsx.imageBase64_of (str "data:" ++ mediaType) = None
  /\ (data <> [] ->
        Jsx.missing_illustration sceneId data false = false
        /\ parts (payload_of prompt data)
           = [TextPart prompt; InlineData (str "image/jpeg") data])
  /\ (data = [] -> sceneId <> str "end" ->
        Jsx.missing_illustration sceneId data false = true
        /\ parts (payload_of prompt data) = [TextPart prompt]).
Proof.
  intros Hm Hd. unfold Jsx.imageBase64_of. split; [|split; [|split]].
  - replace (str "data:" ++ mediaType ++ str ";base64," ++ data)
      with ((str "data:" ++ mediaType ++ str ";base64") ++ 44%N :: data)
      by (rewrite <- !app_assoc; reflexivity).
    rewrite after_first_comma_app.
    + apply after_first_comma_whole, Hd.
    + apply Forall_app. split; [repeat constructor; discriminate|].
      apply Forall_app. split; [exact Hm|repeat constructor; discriminate].
  - change (str "data:" ++ mediaType)
      with (100%N :: 97%N :: 116%N :: 97%N :: 58%N :: mediaType).
    cbn [after_first_comma N.eqb Pos.eqb].
    induction Hm as [|c m Hc _ IH]; [reflexivity|].
    cbn [after_first_comma]. apply N.eqb_neq in Hc. rewrite Hc. exact IH.
  - intros Hne. destruct data as [|c data]; [contradiction|].
    split; [|reflexivity]. unfold Jsx.missing_illustration. simpl.
    rewrite andb_false_r. reflexivity.
  - intros -> Hend. split; [|reflexivity].
    unfold Jsx.missing_illustration.
    rewrite bool_decide_eq_false_2 by exact Hend. reflexivity.
Qed.

Lemma illustration_as_read_witness :
  Jsx.imageBase64_of (str "data:image/png;base64,iVBORw0KGgo=")
  = Some (str "iVBORw0KGgo=")
  /\ parts (payload_of (str "Animate.") (str "iVBORw0KGgo="))
     = [TextPart (str "Animate.");
        InlineData (str "image/jpeg") (str "iVBORw0KGgo=")].
Proof.
  destruct (illustration_as_read (str "image/png") (str "iVBORw0KGgo=")
              (str "Animate.") (str "1"))
    as (Hread & _ & Hsent & _).
  - repeat constructor; discriminate.
  - repeat constructor; discriminate.
  - split; [exact Hread|]. apply Hsent. discriminate.
Defined.

(** ** The download link of the viewer *)

(** X20. The viewer of the JSX build needs a title that is a string. A
    successful upload stores as project name whatever truthy value the
    reply has under [extracted_title], without looking at its type; the
    cover is then completed, so its viewer can be opened, and the
    download name of the viewer is the name with every white-space
    character replaced by an underscore, followed by the scene id, when
    the stored name is a string, and a [TypeError] at render for any
    other value (a number, [true], an array, an object). *)
Theorem title_must_be_string (JSON_parse : jstring -> result json)
    (TypeError_message : option json -> jstring -> jstring)
    (fetch : Service) (project : Project) (file : File) (pdf : PdfDocument)
    (members : list (jstring * json)) (v : json) :
  endsWith (file_name file) (str ".pdf") = true ->
  file_pdf file = Ok pdf ->
  trim (fullText_of pdf) <> [] ->
  snd (generateScene JSON_parse TypeError_message fetch
         (Jsx.initialProjectState project (fullText_of pdf)) (str "cover")
         (coverImage pdf) []) = Ok (JObj members) ->
  assoc (str "extracted_title") members = Some v ->
  truthy (Some v) = true ->
  exists p',
    commit (Jsx.handleFileChange JSON_parse TypeError_message fetch true
              project (Some file)) [project] = [p']
    /\ name p' = v
    /\ SceneGenerator p' (str "cover") = CompletedSceneViewer
    /\ forall sceneId,
         download_name p' sceneId
         = match v with
           | JStr n => Some (replace_spaces n ++ str "_Scene_" ++ sceneId
                             ++ str ".mp4")
           | _ => None
           end.
Proof.
  intros Hpdf Hfile Hne Hreply Htitle Htruthy.
  pose proof (truthy_string_ne _ Hne) as Htrim.
  unfold Jsx.handleFileChange, try_catch_finally.
  rewrite (ingest_unfold JSON_parse TypeError_message fetch project file pdf
             Hpdf Hfile Htrim). cbv zeta. rewrite Hreply.
  unfold get_member. rewrite Htitle.
  exists (spread project
            (Jsx.finalProjectState project (fullText_of pdf) (JObj members)
               (Some v) (assoc (str "extracted_author") members))).
  split.
  { unfold commit. rewrite !updates_app. simpl.
    rewrite decide_True by reflexivity. reflexivity. }
  assert (name (spread project
                  (Jsx.finalProjectState project (fullText_of pdf)
                     (JObj members) (Some v)
                     (assoc (str "extracted_author") members))) = v) as Hname.
  { change (or_value (Some v) (name project) = v).
    unfold or_value. rewrite Htruthy. reflexivity. }
  split; [exact Hname|]. split.
  - unfold SceneGenerator.
    change (storyText (spread project _)) with (fullText_of pdf).
    destruct (fullText_of pdf) eqn:Htext;
      [exfalso; apply Hne; reflexivity|].
    unfold spread. simpl. rewrite lookup_insert_eq. reflexivity.
  - intros sceneId. unfold download_name. rewrite Hname. reflexivity.
Qed.

Lemma title_must_be_string_witness :
  exists p',
    commit (Jsx.handleFileChange Reader.JSON_parse Reader.TypeError_message
              (Samples.service_replying Samples.title_seven) true
              Samples.untitled (Some Samples.layout)) [Samples.untitled]
    = [p']
    /\ name p' = JNum 7
    /\ SceneGenerator p' (str "cover") = CompletedSceneViewer
    /\ download_name p' (str "cover") = None.
Proof.
  destruct (title_must_be_string Reader.JSON_parse Reader.TypeError_message
              (Samples.service_replying Samples.title_seven)
              Samples.untitled Samples.layout
              {| pageItems := [[str "Once"; str "upon"]; [str "The end"]];
                 coverImage := str "AAAA" |}
              [(str "extracted_title", JNum 7)] (JNum 7))
    as (p' & Hcommit & Hname & Hview & Hdown).
  - reflexivity.
  - reflexivity.
  - vm_compute. discriminate.
  - vm_compute. reflexivity.
  - vm_compute. reflexivity.
  - vm_compute. reflexivity.
  - exists p'. split; [exact Hcommit|]. split; [exact Hname|].
    split; [exact Hview|]. exact (Hdown (str "cover")).
Defined.

(** ** No dead end *)

(** An item is enabled when every item above it is completed. *)
Lemma enabled_below_completed p k :
  (forall j sid, j < k -> navItems p !! j = Some sid ->
                 scene_completed p sid) ->
  isDisabled p k = false.
Proof.
  intros Habove. unfold isDisabled, firstPendingSceneIndex.
  destruct (findIndex_spec (not_completed p) (navItems p))
    as [[-> _]|(k' & -> & (x & Hx & Hfx) & _)]; [reflexivity|].
  apply andb_false_iff. right. apply Z.ltb_ge.
  destruct (decide (k' < k)) as [Hlt|]; [|lia].
  apply (Habove k' x Hlt), not_completed_false in Hx. congruence.
Qed.

Lemma clickNavItem_moves p k sid ptr :
  navItems p !! k = Some sid ->
  isDisabled p k = false ->
  workspace_run (clickNavItem p k) (p, ptr) = (p, sid).
Proof.
  intros Hk Hen. unfold clickNavItem. rewrite Hk, Hen.
  apply workspace_run_pointer.
Qed.

(** Every sidebar item is completed. *)
Local Abbreviation finished p :=
  (forall sid, sid ∈ navItems_of (totalPages p) -> scene_completed p sid).

Lemma finished_when_all_below p :
  (forall j sid, j < length (navItems_of (totalPages p)) ->
                 navItems_of (totalPages p) !! j = Some sid ->
                 scene_completed p sid) ->
  finished p.
Proof.
  intros H sid Hin. apply list_elem_of_lookup in Hin as [j Hj].
  apply (H j sid); [|exact Hj]. eapply lookup_lt_Some. exact Hj.
Qed.

(** Completing the first scene that is not completed, again and again:
    the shape of the argument, for a step relation that can move to an
    enabled item and complete the scene under the pointer, both on
    projects that are [good] and keeping them so. *)
Lemma finish_by_steps (step : relation Workspace) (good : Project -> Prop) :
  (forall p ptr k sid,
      good p ->
      navItems p !! k = Some sid -> isDisabled p k = false ->
      step (p, ptr) (p, sid)) ->
  (forall p sid,
      good p ->
      storyText p <> [] -> ~ scene_completed p sid ->
      exists p', step (p, sid) (p', sid)
                 /\ good p'
                 /\ storyText p' = storyText p
                 /\ totalPages p' = totalPages p
                 /\ scene_completed p' sid
                 /\ forall x, scene_completed p x -> scene_completed p' x) ->
  forall m p ptr,
    good p ->
    storyText p <> [] -> 0 < totalPages p ->
    m <= length (navItems_of (totalPages p)) ->
    (forall j sid, j < length (navItems_of (totalPages p)) - m ->
                   navItems_of (totalPages p) !! j = Some sid ->
                   scene_completed p sid) ->
    exists w', rtc step (p, ptr) w' /\ good (fst w') /\ finished (fst w').
Proof.
  intros Hmove Hcomplete. induction m as [|m IH];
    intros p ptr Hgood Hstory Hpages Hm Habove.
  - exists (p, ptr). split; [apply rtc_refl|]. split; [exact Hgood|].
    apply finished_when_all_below. cbn [fst]. intros j sid Hj Hx.
    apply (Habove j sid); [lia|exact Hx].
  - set (n := length (navItems_of (totalPages p))) in *.
    destruct (navItems_of (totalPages p) !! (n - S m)) as [sid|] eqn:Hk;
      [|apply lookup_ge_None in Hk; fold n in Hk; lia].
    assert (scene_completed p sid \/ ~ scene_completed p sid)
      as [Hdone|Hpending].
    { destruct (not_completed p sid) eqn:E.
      - right. intros H. apply not_completed_false in H. congruence.
      - left. apply not_completed_false, E. }
    + apply (IH p ptr Hgood Hstory Hpages); [lia|].
      intros j x Hj Hx. destruct (decide (j = n - S m)) as [->|Hne].
      * assert (x = sid) as -> by congruence. exact Hdone.
      * apply (Habove j x); [lia|exact Hx].
    + destruct (Hcomplete p sid Hgood Hstory Hpending)
        as (p' & Hgen & Hgood' & Hst & Htp & Hnow & Hmono).
      destruct (IH p' sid) as (w' & Hpath & Hfin).
      * exact Hgood'.
      * rewrite Hst. exact Hstory.
      * rewrite Htp. exact Hpages.
      * rewrite Htp. fold n. lia.
      * rewrite Htp. fold n. intros j x Hj Hx.
        destruct (decide (j = n - S m)) as [->|Hne].
        -- assert (x = sid) as -> by congruence. exact Hnow.
        -- apply Hmono, (Habove j x); [lia|exact Hx].
      * exists w'. split; [|exact Hfin].
        eapply rtc_l; [|eapply rtc_l; [exact Hgen|exact Hpath]].
        apply (Hmove p ptr (n - S m) sid Hgood).
        -- rewrite (navItems_when_pages p Hpages). exact Hk.
        -- apply enabled_below_completed. intros j x Hj Hx.
           rewrite (navItems_when_pages p Hpages) in Hx.
           apply (Habove j x); [lia|exact Hx].
Qed.

Lemma plain_can_finish parseInt p ptr :
  storyText p <> [] -> 0 < totalPages p ->
  exists w', rtc (Plain.ui_step parseInt) (p, ptr) w'
             /\ forall sid, sid ∈ navItems_of (totalPages (fst w')) ->
                            scene_completed (fst w') sid.
Proof.
  intros Hstory Hpages.
  destruct (finish_by_steps (Plain.ui_step parseInt) (fun _ => True))
    with (m := length (navItems_of (totalPages p))) (p := p) (ptr := ptr)
    as (w' & Hpath & _ & Hfin);
    [| |exact I|exact Hstory|exact Hpages|lia|intros j sid Hj; lia
     |exists w'; split; [exact Hpath|exact Hfin]].
  - intros q cur k sid _ Hk Hen.
    rewrite <- (clickNavItem_moves q k sid cur Hk Hen).
    apply (Plain.ui_navigate parseInt (q, cur) k).
  - intros q sid _ Hq Hpending.
    assert (Plain.clickGenerate parseInt q sid
            = Some (Plain.handleGenerate parseInt q sid)) as Hclick.
    { unfold Plain.clickGenerate, SceneGenerator.
      rewrite (truthy_string_ne _ Hq). simpl.
      destruct (scenes q !! sid) as [s|] eqn:Hs; [|reflexivity].
      case_bool_decide as Hst; [|reflexivity].
      exfalso. apply Hpending. exists s. auto. }
    set (d := {| set_id := None; set_name := None; set_author := None;
                 set_storyText := None; set_totalPages := None;
                 set_scenes :=
                   Some (<[sid := {| status := completed;
                                     text := scenes q !! sid ≫= text;
                                     prompt := Some (Plain.mockPrompt parseInt
                                                       sid);
                                     videoUrl := Some sampleVideo |}]>
                           (scenes q));
                 set_createdAt := None |}).
    exists (spread q d). split.
    { pose proof (Plain.ui_generate parseInt (q, sid) _ Hclick) as Hstep.
      rewrite (workspace_run_update (Plain.handleGenerate parseInt q sid)
                 (q, sid) d eq_refl) in Hstep.
      exact Hstep. }
    split; [exact I|].
    split; [reflexivity|]. split; [reflexivity|]. split.
    + eexists. split; [apply lookup_insert_eq|reflexivity].
    + intros x.
      apply (scene_completed_insert_mono q (spread q d) sid
               {| status := completed;
                  text := scenes q !! sid ≫= text;
                  prompt := Some (Plain.mockPrompt parseInt sid);
                  videoUrl := Some sampleVideo |} x eq_refl).
      reflexivity.
Qed.

Section JsxNoDeadEnd.

Variable JSON_parse : jstring -> result json.
Variable TypeError_message : option json -> jstring -> jstring.

(** A reply that keeps a project presentable: its title, if it has one,
    is a string, and its author, if it has one, is a child that React
    accepts. *)
Local Abbreviation reply_presentable members :=
  ((forall v, assoc (str "extracted_title") members = Some v ->
              exists n, v = JStr n)
   /\ (forall v, assoc (str "extracted_author") members = Some v ->
                 react_child v = true)).

Lemma presentable_renders p ptr : presentable p -> renders (p, ptr).
Proof.
  intros [[n Hn] Ha]. unfold renders, download_name. cbn [fst snd].
  rewrite Hn. split; [reflexivity|]. split; [exact Ha|]. eauto.
Qed.

Lemma projectUpdates_of_object p sid members videoUrl :
  presentable p -> reply_presentable members ->
  exists d, Jsx.projectUpdates_of TypeError_message p sid (JObj members)
              videoUrl = Ok d
            /\ presentable (spread p d).
Proof.
  intros Hp [Htitle Hauthor].
  unfold Jsx.projectUpdates_of, get_member.
  destruct (bool_decide (sid = str "cover"));
    [|eexists; split; [reflexivity|exact Hp]].
  destruct (assoc (str "extracted_title") members) as [title|] eqn:Et;
    [|eexists; split; [reflexivity|exact Hp]].
  destruct (truthy (Some title));
    [|eexists; split; [reflexivity|exact Hp]].
  eexists. split; [reflexivity|].
  split; [exact (Htitle title eq_refl)|].
  unfold spread. cbn [author set_author default].
  change (react_child (or_value (assoc (str "extracted_author") members)
                         (JStr (str "Unknown Author"))) = true).
  unfold or_value.
  destruct (assoc (str "extracted_author") members) as [v|] eqn:Ea;
    [|reflexivity].
  destruct (truthy (Some v)); [exact (Hauthor v eq_refl)|reflexivity].
Qed.

Lemma jsx_can_finish t members p ptr :
  JSON_parse t = Ok (JObj members) ->
  reply_presentable members ->
  presentable p ->
  storyText p <> [] -> 0 < totalPages p ->
  exists w', rtc (fun a b => Jsx.ui_step JSON_parse TypeError_message a b
                             /\ renders b) (p, ptr) w'
             /\ presentable (fst w')
             /\ forall sid, sid ∈ navItems_of (totalPages (fst w')) ->
                            scene_completed (fst w') sid.
Proof.
  intros Hparse Hreply Hgood Hstory Hpages.
  apply (finish_by_steps
           (fun a b => Jsx.ui_step JSON_parse TypeError_message a b
                       /\ renders b) presentable)
    with (m := length (navItems_of (totalPages p)));
    [| |exact Hgood|exact Hstory|exact Hpages|lia|intros j sid Hj; lia].
  - intros q cur k sid Hq Hk Hen.
    split; [|apply presentable_renders, Hq].
    rewrite <- (clickNavItem_moves q k sid cur Hk Hen).
    apply (Jsx.ui_navigate JSON_parse TypeError_message (q, cur) k).
  - intros q sid Hgq Hq Hpending.
    set (fetch := Samples.service_replying t).
    set (es := Jsx.handleGenerate JSON_parse TypeError_message fetch q sid
                 false (str "x") []).
    assert (Jsx.clickGenerate JSON_parse TypeError_message fetch q sid
              (str "x") [] = Some es) as Hclick.
    { unfold Jsx.clickGenerate, SceneGenerator.
      rewrite (truthy_string_ne _ Hq). simpl.
      destruct (scenes q !! sid) as [s|] eqn:Hs; [|reflexivity].
      case_bool_decide as Hst; [|reflexivity].
      exfalso. apply Hpending. exists s. auto. }
    destruct (projectUpdates_of_object q sid members sampleVideo Hgq Hreply)
      as (d & Hd & Hgood').
    assert (updates es = [(id q, d)]) as Hu.
    { subst es.
      rewrite (handleGenerate_unfold JSON_parse TypeError_message fetch q sid
                 false (str "x") [])
        by (unfold Jsx.missing_illustration; simpl;
            rewrite andb_false_r; reflexivity).
      rewrite generate_unfold. cbv zeta. rewrite generateScene_result.
      subst fetch. unfold Samples.service_replying, Samples.reply_with.
      simpl. unfold parse_text. simpl. rewrite Hparse, Hd. reflexivity. }
    pose proof (jsx_generate_pointers JSON_parse TypeError_message fetch q
                  sid false (str "x") []) as Hp. fold es in Hp.
    pose proof (Jsx.ui_generate JSON_parse TypeError_message (q, sid) fetch
                  (str "x") [] es Hclick) as Hstep.
    rewrite (workspace_run_update es (q, sid) d Hu), Hp in Hstep.
    exists (spread q d).
    split; [split; [exact Hstep|apply presentable_renders, Hgood']|].
    split; [exact Hgood'|].
    apply projectUpdates_of_shape in Hd as (Hsc & _ & Hst & Htp & _).
    split; [unfold spread; simpl; rewrite Hst; reflexivity|].
    split; [unfold spread; simpl; rewrite Htp; reflexivity|].
    assert (scenes (spread q d)
            = <[sid := {| status := completed;
                          text := scenes q !! sid ≫= text;
                          prompt := Some (JObj members);
                          videoUrl := Some sampleVideo |}]> (scenes q)) as Hs
      by (unfold spread; simpl; rewrite Hsc; reflexivity).
    split.
    + eexists. rewrite Hs. split; [apply lookup_insert_eq|reflexivity].
    + intros x. apply (scene_completed_insert_mono q _ sid _ x Hs).
      reflexivity.
Qed.

End JsxNoDeadEnd.

Lemma totalPages_of_positive story : 0 < totalPages_of story.
Proof.
  unfold totalPages_of.
  destruct (0 <? length (pages_of story)) eqn:E; [|lia].
  apply Nat.ltb_lt in E. exact E.
Qed.

Lemma records_match_pages p :
  records_match_story p -> storyText p <> [] -> 0 < totalPages p.
Proof.
  intros [[H _]|(_ & -> & _)] Hstory; [contradiction|].
  apply totalPages_of_positive.
Qed.

(** X22. No dead end. From every workspace with story text that a user
    can get to, the user can go on until every scene of the sidebar is
    completed: the sidebar always lets the user move to the first scene
    that is not completed, and that scene always shows the generate
    button. In the plain build this needs nothing else. In the JSX build
    the render of the workspace can throw, so it holds from a workspace
    whose project has a string as name and an author that React can
    show, with a service that answers with a text that [JSON.parse] reads
    as an object whose title, if any, is a string and whose author, if
    any, React can show; every workspace on the way then renders. *)
Theorem every_story_can_be_finished (JSON_parse : jstring -> result json)
    (TypeError_message : option json -> jstring -> jstring)
    (parseInt : jstring -> option Q) (w : Workspace) :
  storyText (fst w) <> [] ->
  (Plain.ui_reachable parseInt w ->
     exists w', rtc (Plain.ui_step parseInt) w w'
                /\ Plain.ui_reachable parseInt w'
                /\ forall sid, sid ∈ navItems_of (totalPages (fst w')) ->
                               scene_completed (fst w') sid)
  /\ (forall t members,
        JSON_parse t = Ok (JObj members) ->
        (forall v, assoc (str "extracted_title") members = Some v ->
                   exists n, v = JStr n) ->
        (forall v, assoc (str "extracted_author") members = Some v ->
                   react_child v = true) ->
        Jsx.ui_reachable JSON_parse TypeError_message w ->
        (exists n, name (fst w) = JStr n) ->
        react_child (author (fst w)) = true ->
        renders w
        /\ exists w',
             rtc (fun a b => Jsx.ui_step JSON_parse TypeError_message a b
                             /\ renders b) w w'
             /\ Jsx.ui_reachable JSON_parse TypeError_message w'
             /\ renders w'
             /\ forall sid, sid ∈ navItems_of (totalPages (fst w')) ->
                            scene_completed (fst w') sid).
Proof.
  intros Hstory. split.
  - intros Hr.
    destruct (plain_reachable_records parseInt w Hr) as (_ & Hrec & _).
    pose proof (records_match_pages _ Hrec Hstory) as Hpages.
    destruct w as [p ptr].
    destruct (plain_can_finish parseInt p ptr Hstory Hpages)
      as (w' & Hpath & Hfin).
    exists w'. split; [exact Hpath|]. split; [|exact Hfin].
    destruct Hr as (now & iso & Hr). exists now, iso.
    eapply rtc_trans; eassumption.
  - intros t members Hparse Htitle Hauthor Hr Hname Hchild.
    destruct (jsx_reachable_records JSON_parse TypeError_message w Hr)
      as (_ & Hrec).
    pose proof (records_match_pages _ Hrec Hstory) as Hpages.
    destruct w as [p ptr].
    assert (presentable p) as Hgood by (split; assumption).
    split; [apply presentable_renders, Hgood|].
    destruct (jsx_can_finish JSON_parse TypeError_message t members p ptr
                Hparse (conj Htitle Hauthor) Hgood Hstory Hpages)
      as (w' & Hpath & Hgood' & Hfin).
    exists w'. split; [exact Hpath|]. split; [|split; [|exact Hfin]].
    + destruct Hr as (now & iso & Hr). exists now, iso.
      eapply rtc_trans; [exact Hr|].
      eapply rtc_subrel; [|exact Hpath]. intros a b [Hstep _]. exact Hstep.
    + destruct w' as [p' ptr']. apply presentable_renders, Hgood'.
Qed.

Lemma every_story_can_be_finished_witness :
  storyText (fst (Samples.book, str "1")) <> []
  /\ Jsx.ui_reachable Reader.JSON_parse Reader.TypeError_message
       (Samples.book, str "1")
  /\ exists w',
       rtc (fun a b =>
              Jsx.ui_step Reader.JSON_parse Reader.TypeError_message a b
              /\ renders b)
         (Samples.book, str "1") w'
       /\ scene_completed (fst w') (str "end").
Proof.
  assert (storyText (fst (Samples.book, str "1")) <> []) as Hstory
    by discriminate.
  split; [exact Hstory|]. split; [exact book_workspace_reachable|].
  destruct (every_story_can_be_finished Reader.JSON_parse
              Reader.TypeError_message Reader.parseInt
              (Samples.book, str "1") Hstory) as [_ Hjsx].
  destruct (Hjsx Samples.title_only
              [(str "extracted_title", JStr (str "Foo"))])
    as (_ & w' & Hpath & Hreach & _ & Hfin).
  - vm_compute. reflexivity.
  - intros v Hv. vm_compute in Hv. injection Hv as <-. eauto.
  - intros v Hv. vm_compute in Hv. discriminate Hv.
  - exact book_workspace_reachable.
  - vm_compute. eauto.
  - reflexivity.
  - exists w'. split; [exact Hpath|]. apply Hfin.
    apply navItems_of_elem. right. left. reflexivity.
Defined.

(** ** After the upload *)

Lemma navItems_of_first_page n :
  0 < n -> exists rest, navItems_of n = str "cover" :: str "1" :: rest.
Proof.
  intros Hn. destruct n as [|n]; [lia|].
  unfold navItems_of. simpl. eexists. reflexivity.
Qed.

(** Where the pointer goes after an upload that was committed, the
    renders left aside. *)
Lemma upload_then_effect (JSON_parse : jstring -> result json)
    (TypeError_message : option json -> jstring -> jstring)
    (fetch : Service) (pdfjsLib : bool) (file : option File)
    (w : Workspace) :
  (let es := Jsx.handleFileChange JSON_parse TypeError_message fetch pdfjsLib
               (fst w) file in
   let w' := workspace_run es w in
   updates es <> [] ->
   snd w' = str "cover"
   /\ SceneGenerator (fst w') (str "cover") = CompletedSceneViewer
   /\ workspace_run (Jsx.ProjectWorkspace_effect (fst w') (snd w')) w'
      = (fst w', str "1")
   /\ SceneGenerator (fst w') (str "1") = SceneGeneratorUI)
  /\ (let es := Plain.handleFileChange (fst w) file in
      let w' := workspace_run es w in
      updates es <> [] ->
      snd w' = str "cover"
      /\ workspace_run (Plain.ProjectWorkspace_effect (fst w') (snd w')) w'
         = w'
      /\ SceneGenerator (fst w') (str "cover") = SceneGeneratorUI).
Proof.
  split.
  - intros es w' Hu. subst w' es.
    destruct (jsx_upload_outcome JSON_parse TypeError_message fetch pdfjsLib
                (fst w) file)
      as [[Hnone _]|(story & newPrompt & et & ea & Hne & _ & Hupd & Hp)];
      [contradiction|].
    rewrite (workspace_run_update _ _ _ Hupd), Hp.
    change (default (snd w) (last [str "cover"])) with (str "cover").
    cbn [fst snd].
    assert (story <> []) as Hstory
      by (intros ->; apply Hne; reflexivity).
    destruct (navItems_of_first_page (totalPages_of story)
                (totalPages_of_positive story)) as [rest Hnav].
    assert (scenes_of story !! str "1"
            = Some (pending_scene (Some (page_text (pages_of story) 1))))
      as Hone.
    { apply (scenes_of_page story 1).
      pose proof (totalPages_of_positive story). lia. }
    split; [reflexivity|]. split; [|split].
    + unfold SceneGenerator, spread. simpl.
      rewrite (truthy_string_ne _ Hstory). simpl.
      rewrite lookup_insert_eq. reflexivity.
    + unfold Jsx.ProjectWorkspace_effect.
      change (storyText (spread _ _)) with story.
      change (totalPages (spread _ _)) with (totalPages_of story).
      rewrite (truthy_string_ne _ Hstory), Hnav.
      cbn [find]. unfold not_completed at 1.
      change (scenes (spread _ _))
        with (<[str "cover" := {| status := completed; text := None;
                                  prompt := Some newPrompt;
                                  videoUrl := Some sampleVideo |}]>
                (scenes_of story)).
      rewrite lookup_insert_eq. cbn [status negb bool_decide].
      rewrite bool_decide_eq_true_2 by reflexivity. cbn [negb].
      unfold not_completed at 1.
      change (scenes (spread _ _))
        with (<[str "cover" := {| status := completed; text := None;
                                  prompt := Some newPrompt;
                                  videoUrl := Some sampleVideo |}]>
                (scenes_of story)).
      rewrite lookup_insert_ne
        by (intros H; apply str_inj in H; discriminate).
      rewrite Hone. cbn [status pending_scene].
      rewrite bool_decide_eq_false_2 by discriminate. cbn [negb].
      rewrite bool_decide_eq_false_2
        by (intros H; apply str_inj in H; discriminate).
      apply workspace_run_pointer.
    + unfold SceneGenerator, spread. simpl.
      rewrite (truthy_string_ne _ Hstory). simpl.
      rewrite lookup_insert_ne
        by (intros H; apply str_inj in H; discriminate).
      rewrite Hone. reflexivity.
  - intros es w' Hu. subst w' es.
    destruct (plain_upload_outcome (fst w) file)
      as [[Hnone _]|(story & Hne & Hupd & Hp)]; [contradiction|].
    rewrite (workspace_run_update _ _ _ Hupd), Hp.
    change (default (snd w) (last [str "cover"])) with (str "cover").
    cbn [fst snd].
    assert (story <> []) as Hstory
      by (intros ->; apply Hne; reflexivity).
    destruct (navItems_of_first_page (totalPages_of story)
                (totalPages_of_positive story)) as [rest Hnav].
    split; [reflexivity|]. split.
    + unfold Plain.ProjectWorkspace_effect.
      change (storyText (spread _ _)) with story.
      change (totalPages (spread _ _)) with (totalPages_of story).
      rewrite (truthy_string_ne _ Hstory), Hnav.
      assert (not_completed
                (spread (fst w)
                   {| set_id := None;
                      set_name := Some (JStr (str "My Animation Project"));
                      set_author := Some (JStr (str "Author Name"));
                      set_storyText := Some story;
                      set_totalPages := Some (totalPages_of story);
                      set_scenes := Some (scenes_of story);
                      set_createdAt := None |}) (str "cover") = true) as Hc.
      { unfold not_completed, spread. simpl. rewrite scenes_of_cover.
        reflexivity. }
      rewrite Hc. cbn [find andb]. rewrite Hc.
      rewrite bool_decide_eq_true_2 by reflexivity.
      apply workspace_run_nil.
    + unfold SceneGenerator, spread. simpl.
      rewrite (truthy_string_ne _ Hstory). simpl.
      rewrite scenes_of_cover. reflexivity.
Qed.

(** X23. Where the workspace settles after an upload that was committed.
    In the JSX build the handler points at the cover, which it has just
    completed, so that the viewer of the cover is rendered with the name
    that the upload stored; where that render goes through (the name is
    a string, and React can show the author), the effect then moves the
    pointer to page 1, which shows the generator and renders as well. In
    the plain build the pointer stays on the cover, which is still to be
    generated. *)
Theorem upload_lands (JSON_parse : jstring -> result json)
    (TypeError_message : option json -> jstring -> jstring)
    (fetch : Service) (pdfjsLib : bool) (file : option File)
    (w : Workspace) :
  (let es := Jsx.handleFileChange JSON_parse TypeError_message fetch pdfjsLib
               (fst w) file in
   let w' := workspace_run es w in
   updates es <> [] ->
   renders w' ->
   snd w' = str "cover"
   /\ SceneGenerator (fst w') (str "cover") = CompletedSceneViewer
   /\ (exists n, name (fst w') = JStr n)
   /\ workspace_run (Jsx.ProjectWorkspace_effect (fst w') (snd w')) w'
      = (fst w', str "1")
   /\ SceneGenerator (fst w') (str "1") = SceneGeneratorUI
   /\ renders (fst w', str "1"))
  /\ (let es := Plain.handleFileChange (fst w) file in
      let w' := workspace_run es w in
      updates es <> [] ->
      snd w' = str "cover"
      /\ workspace_run (Plain.ProjectWorkspace_effect (fst w') (snd w')) w'
         = w'
      /\ SceneGenerator (fst w') (str "cover") = SceneGeneratorUI).
Proof.
  destruct (upload_then_effect JSON_parse TypeError_message fetch pdfjsLib
              file w) as [Hjsx Hplain].
  split; [|exact Hplain].
  intros es w' Hu (Hname & Hauthor & Hdown).
  destruct (Hjsx Hu) as (Hptr & Hview & Heffect & Hone).
  fold es in Hptr, Hview, Heffect, Hone. fold w' in Hptr, Hview, Heffect, Hone.
  assert (exists n, name (fst w') = JStr n) as [n Hn].
  { rewrite Hptr in Hdown. destruct (Hdown Hview) as [x Hx].
    unfold download_name in Hx.
    destruct (name (fst w')) as [| | |n| |]; try discriminate. eauto. }
  split; [exact Hptr|]. split; [exact Hview|]. split; [eauto|].
  split; [exact Heffect|]. split; [exact Hone|].
  split; [exact Hname|]. split; [exact Hauthor|].
  intros _. unfold download_name. cbn [fst snd]. rewrite Hn. eauto.
Qed.

Lemma upload_lands_witness :
  let w := (Samples.untitled, str "cover") in
  let es := Jsx.handleFileChange Reader.JSON_parse Reader.TypeError_message
              (Samples.service_replying Samples.title_and_author) true
              (fst w) (Some Samples.layout) in
  let w' := workspace_run es w in
  updates es <> []
  /\ renders w'
  /\ workspace_run (Jsx.ProjectWorkspace_effect (fst w') (snd w')) w'
     = (fst w', str "1").
Proof.
  intros w es w'.
  assert (updates es <> []) as Hu by (vm_compute; discriminate).
  assert (renders w') as Hrender.
  { split; [reflexivity|]. split; [reflexivity|]. intros _.
    vm_compute. eauto. }
  split; [exact Hu|]. split; [exact Hrender|].
  destruct (upload_lands Reader.JSON_parse Reader.TypeError_message
              (Samples.service_replying Samples.title_and_author) true
              (Some Samples.layout) w) as [Hjsx _].
  destruct (Hjsx Hu Hrender) as (_ & _ & _ & Hland & _). exact Hland.
Defined.

(** ** What the request says about the scene *)

Lemma or_string_nil s : or_string s [] = s.
Proof. destruct s; reflexivity. Qed.

Lemma pages_of_not_blank story :
  Forall (fun p => trim p <> []) (pages_of story).
Proof.
  unfold pages_of. apply Forall_forall. intros p Hp.
  apply list_elem_of_filter in Hp as [Hne _]. exact Hne.
Qed.

(** X24. The request for a page quotes the text of that page. In every
    workspace of the JSX build that a user can get to and that has story
    text, the instruction built for page [i] carries, as scene text, the
    [i]-th page of the story text whenever the story text has that many
    pages that are not blank, and that text is not blank; the
    instructions for the cover and for the end scene carry an empty
    scene text; and every instruction carries the whole story text as
    context. *)
Theorem request_quotes_page (JSON_parse : jstring -> result json)
    (TypeError_message : option json -> jstring -> jstring)
    (w : Workspace) (feedback : jstring) :
  Jsx.ui_reachable JSON_parse TypeError_message w ->
  storyText (fst w) <> [] ->
  let p := fst w in
  (forall i page, pages_of (storyText p) !! (i - 1) = Some page -> 1 <= i ->
     trim page <> []
     /\ sceneText_of p (String_of_nat i) = page
     /\ exists before after,
          buildApiPromptText p (String_of_nat i) feedback
          = before ++ str "- Scene Text (if applicable): "
            ++ dquote ++ page ++ dquote ++ after)
  /\ sceneText_of p (str "cover") = []
  /\ sceneText_of p (str "end") = []
  /\ forall sceneId,
       exists before after,
         buildApiPromptText p sceneId feedback
         = before ++ str "FULL STORY CONTEXT:" ++ nl ++ indent
           ++ storyText p ++ after.
Proof.
  intros Hr Hstory p. subst p.
  destruct (jsx_reachable_records JSON_parse TypeError_message w Hr)
    as (_ & Hrec).
  apply records_match_story_explicit in Hrec
    as [(H & _)|(Hne & Htp & Hkeys & Hpage & Hedge)]; [contradiction|].
  split; [|split; [|split]].
  - intros i page Hi Hpos.
    pose proof (pages_of_not_blank (storyText (fst w))) as Hall.
    assert (trim page <> []) as Hpage_ne.
    { rewrite Forall_forall in Hall. apply Hall.
      eapply list_elem_of_lookup_2. exact Hi. }
    assert (1 <= i <= totalPages (fst w)) as Hrange.
    { rewrite Htp. unfold totalPages_of.
      apply lookup_lt_Some in Hi.
      destruct (0 <? length (pages_of (storyText (fst w)))) eqn:E;
        [apply Nat.ltb_lt in E|apply Nat.ltb_ge in E]; lia. }
    assert (sceneText_of (fst w) (String_of_nat i) = page) as Htext.
    { unfold sceneText_of.
      assert (is_Some (scenes (fst w) !! String_of_nat i)) as [s Hs].
      { apply Hkeys, navItems_of_elem. right. right. exists i. auto. }
      rewrite Hs, (Hpage i s Hrange Hs).
      rewrite (page_text_in_range _ _ _ Hall Hi). apply or_string_nil. }
    split; [exact Hpage_ne|]. split; [exact Htext|].
    unfold buildApiPromptText. cbv zeta. rewrite Htext.
    exists (nl ++ indent ++ str "SYSTEM INSTRUCTION: " ++ systemInstruction
            ++ nl ++ indent ++ str "FULL STORY CONTEXT:"
            ++ nl ++ indent
            ++ or_string (storyText (fst w))
                 (str "No story context provided yet.")
            ++ nl ++ indent ++ str "---"
            ++ nl ++ indent ++ str "CURRENT SCENE ANALYSIS TASK:"
            ++ nl ++ indent ++ str "- Scene ID: " ++ String_of_nat i
            ++ nl ++ indent).
    exists (nl ++ indent ++ str "- Task: "
            ++ taskInstruction_of (String_of_nat i) feedback
            ++ nl ++ indent
            ++ str "Now, populate the JSON schema based on this task."
            ++ nl ++ str "    ").
    rewrite <- !app_assoc. reflexivity.
  - unfold sceneText_of.
    destruct (scenes (fst w) !! str "cover") as [s|] eqn:Hs; [|reflexivity].
    rewrite (Hedge (str "cover") s (or_introl eq_refl) Hs). reflexivity.
  - unfold sceneText_of.
    destruct (scenes (fst w) !! str "end") as [s|] eqn:Hs; [|reflexivity].
    rewrite (Hedge (str "end") s (or_intror eq_refl) Hs). reflexivity.
  - intros sceneId. unfold buildApiPromptText. cbv zeta.
    unfold or_string. rewrite (truthy_string_ne _ Hstory).
    exists (nl ++ indent ++ str "SYSTEM INSTRUCTION: " ++ systemInstruction
            ++ nl ++ indent).
    exists (nl ++ indent ++ str "---"
            ++ nl ++ indent ++ str "CURRENT SCENE ANALYSIS TASK:"
            ++ nl ++ indent ++ str "- Scene ID: " ++ sceneId
            ++ nl ++ indent ++ str "- Scene Text (if applicable): "
            ++ dquote ++ sceneText_of (fst w) sceneId ++ dquote
            ++ nl ++ indent ++ str "- Task: "
            ++ taskInstruction_of sceneId feedback
            ++ nl ++ indent
            ++ str "Now, populate the JSON schema based on this task."
            ++ nl ++ str "    ").
    rewrite <- !app_assoc. reflexivity.
Qed.

Lemma request_quotes_page_witness :
  Jsx.ui_reachable Reader.JSON_parse Reader.TypeError_message
    (Samples.book, str "1")
  /\ sceneText_of Samples.book (str "2") = str "The end".
Proof.
  split; [exact book_workspace_reachable|].
  destruct (request_quotes_page Reader.JSON_parse Reader.TypeError_message
              (Samples.book, str "1") [] book_workspace_reachable)
    as (Hpage & _).
  - discriminate.
  - destruct (Hpage 2 (str "The end")) as (_ & Htext & _).
    + vm_compute. reflexivity.
    + lia.
    + exact Htext.
Defined.
